(** * browser-worker: the session registry, the cache key and the request handler

    A shallow embedding of [src/index.ts] (the [/content/{url}] worker and the
    older [?url=] worker it replaced) and the properties of the session pool,
    of the cache key and of the request state machine. *)

From Stdlib Require Import ZArith Ascii String List Lia DecimalString.
From stdpp Require Import base option list strings gmap.

Local Open Scope Z_scope.

(** ** JavaScript strings

    Every string the worker handles after normalisation is ASCII (the URL
    serialiser percent-encodes everything else), so a string is a sequence of
    8-bit characters. *)

Module Js.

Definition code (c : ascii) : Z := Z.of_N (N_of_ascii c).

Definition in_range (lo hi c : ascii) : bool :=
  (code lo <=? code c) && (code c <=? code hi).

(** [s.startsWith(p)] *)
Fixpoint startsWith (p s : string) : bool :=
  match p, s with
  | EmptyString, _ => true
  | String a p', String b s' => if Ascii.eqb a b then startsWith p' s' else false
  | String _ _, EmptyString => false
  end.

(** [s.substring(n)] *)
Fixpoint substring (n : nat) (s : string) : string :=
  match n, s with
  | O, _ => s
  | S n', String _ s' => substring n' s'
  | S _, EmptyString => EmptyString
  end.

(** [s.includes(needle)] *)
Fixpoint includes (needle s : string) : bool :=
  startsWith needle s ||
  match s with
  | EmptyString => false
  | String _ s' => includes needle s'
  end.

(** [s.endsWith(p)] *)
Definition endsWith (p s : string) : bool :=
  let lp := String.length p in
  let ls := String.length s in
  (lp <=? ls)%nat && String.eqb (substring (ls - lp) s) p.

Definition lower (c : ascii) : ascii :=
  if in_range "A" "Z" c then ascii_of_N (N_of_ascii c + 32) else c.

Fixpoint toLowerCase (s : string) : string :=
  match s with
  | EmptyString => EmptyString
  | String c s' => String (lower c) (toLowerCase s')
  end.

(** Truthiness of a string: only the empty string is falsy. *)
Definition truthy (s : string) : bool :=
  match s with EmptyString => false | String _ _ => true end.

(** Truthiness of [string | null | undefined]. *)
Definition truthy_opt (o : option string) : bool :=
  match o with Some s => truthy s | None => false end.

(** [s.replace(/[^a-zA-Z0-9]/g, '')] *)
Definition alnum (c : ascii) : bool :=
  in_range "a" "z" c || in_range "A" "Z" c || in_range "0" "9" c.

Fixpoint strip_non_alnum (s : string) : string :=
  match s with
  | EmptyString => EmptyString
  | String c s' =>
      if alnum c then String c (strip_non_alnum s') else strip_non_alnum s'
  end.

(** *** [btoa]: Base64 of a binary string (RFC 4648, with padding) *)

Definition b64_alphabet : string :=
  "ABCDEFGHIJKLMNOPQRSTUVWXYZabcdefghijklmnopqrstuvwxyz0123456789+/".

Definition b64 (i : Z) : ascii :=
  match String.get (Z.to_nat i) b64_alphabet with
  | Some c => c
  | None => "="%char
  end.

Definition sextet1 (a : Z) : Z := Z.shiftr a 2.
Definition sextet2 (a b : Z) : Z := Z.lor (Z.shiftl (Z.land a 3) 4) (Z.shiftr b 4).
Definition sextet3 (b c : Z) : Z := Z.lor (Z.shiftl (Z.land b 15) 2) (Z.shiftr c 6).
Definition sextet4 (c : Z) : Z := Z.land c 63.

Fixpoint btoa (s : string) : string :=
  match s with
  | EmptyString => EmptyString
  | String a EmptyString =>
      String (b64 (sextet1 (code a)))
        (String (b64 (sextet2 (code a) 0)) "==")
  | String a (String b EmptyString) =>
      String (b64 (sextet1 (code a)))
        (String (b64 (sextet2 (code a) (code b)))
           (String (b64 (sextet3 (code b) 0)) "="))
  | String a (String b (String c rest)) =>
      String (b64 (sextet1 (code a)))
        (String (b64 (sextet2 (code a) (code b)))
           (String (b64 (sextet3 (code b) (code c)))
              (String (b64 (sextet4 (code c))) (btoa rest))))
  end.

(** *** Reading a key back (used to show when keys are injective) *)

(** Every character of [s] is one of [a-zA-Z0-9] or the padding [=]. *)
Fixpoint plain (s : string) : bool :=
  match s with
  | EmptyString => true
  | String c s' => (alnum c || Ascii.eqb c "=") && plain s'
  end.

Fixpoint index_from (i : Z) (c : ascii) (alphabet : string) : Z :=
  match alphabet with
  | EmptyString => i
  | String d rest => if Ascii.eqb c d then i else index_from (i + 1) c rest
  end.

Definition b64_index (c : ascii) : Z := index_from 0 c b64_alphabet.

Definition chr (n : Z) : ascii := ascii_of_N (Z.to_N n).

Definition octet1 (i1 i2 : Z) : Z := Z.lor (Z.shiftl i1 2) (Z.shiftr i2 4).
Definition octet2 (i2 i3 : Z) : Z := Z.lor (Z.shiftl (Z.land i2 15) 4) (Z.shiftr i3 2).
Definition octet3 (i3 i4 : Z) : Z := Z.lor (Z.shiftl (Z.land i3 3) 6) i4.

(** The inverse of [btoa] on encodings whose padding was removed. *)
Fixpoint unpadded_atob (k : string) : string :=
  match k with
  | String c1 (String c2 EmptyString) =>
      String (chr (octet1 (b64_index c1) (b64_index c2))) EmptyString
  | String c1 (String c2 (String c3 EmptyString)) =>
      String (chr (octet1 (b64_index c1) (b64_index c2)))
        (String (chr (octet2 (b64_index c2) (b64_index c3))) EmptyString)
  | String c1 (String c2 (String c3 (String c4 rest))) =>
      String (chr (octet1 (b64_index c1) (b64_index c2)))
        (String (chr (octet2 (b64_index c2) (b64_index c3)))
           (String (chr (octet3 (b64_index c3) (b64_index c4)))
              (unpadded_atob rest)))
  | _ => EmptyString
  end.

Definition bytes : list Z := List.map Z.of_nat (List.seq 0 256).
Definition sextets : list Z := List.map Z.of_nat (List.seq 0 64).

End Js.

(** ** The cache key (index.ts, "Generate cache key based on URL") *)

Definition computeKey (reqUrl : string) : string :=
  "html:" +:+ Js.strip_non_alnum (Js.btoa reqUrl).


(** ** Values thrown by JavaScript code

    The handlers only look at whether the thrown value is an [Error] and, if
    so, at its [message]. *)

Inductive Thrown : Type :=
| ErrorObj (message : string)
| NonError.

(** [error instanceof Error ? error.message : 'Unknown error'] *)
Definition error_message (e : Thrown) : string :=
  match e with
  | ErrorObj m => m
  | NonError => "Unknown error"
  end.

Inductive Outcome (A : Type) : Type :=
| Ok (a : A)
| Throw (e : Thrown).
Arguments Ok {A} a.
Arguments Throw {A} e.

(** ** The Browser Service ([@cloudflare/puppeteer])

    The library is not part of the repository: a browser, a page and the
    endpoint are described by what each of their calls answers during the
    request at hand. *)

Module Puppeteer.

Record ActiveSession : Type := {
  sessionId : string;
  connectionId : option string
}.

Record Page : Type := {
  setUserAgent : option Thrown;
  setRequestInterception : option Thrown;
  goto : Outcome (option Z);       (* the response status, or [null] *)
  content : Outcome string;
  close : option Thrown
}.

Record Browser : Type := {
  browser_sessionId : option string;   (* [(browser as any).sessionId] *)
  newPage : Outcome Page;
  disconnect : option Thrown
}.

Record BrowserWorker : Type := {
  sessions : Outcome (list ActiveSession);
  connect : string -> Outcome Browser;
  launch : Outcome Browser
}.

End Puppeteer.

(** ** The worker's bindings and the clock *)

Record KVNamespace : Type := {
  get_fault : option Thrown;
  put_fault : option Thrown
}.

Record Env : Type := {
  MYBROWSER : Puppeteer.BrowserWorker;
  HTML_CACHE : option KVNamespace;
  CUSTOM_USER_AGENT : option string
}.

(** What [Date.now()] answers inside [getOptimalSession], what it answers when
    the session is handed back, and [new Date().toISOString()] in the fault
    response. *)
Record Clock : Type := {
  now_acquire : Z;
  now_release : Z;
  now_iso : string
}.

(** ** The process-wide state *)

Record SessionInfo : Type := {
  sessionId : string;
  lastUsed : Z;
  inUse : bool
}.

Definition loc : Type := nat.

Inductive Event : Type :=
| KvGet (key : string)
| KvPut (key value : string) (expirationTtl : Z)
| Sessions
| Connect (sid : string)
| Launch
| NewPage
| SetUserAgent (userAgent : string)
| SetRequestInterception
| Goto (url : string) (timeout : Z)
| Content
| PageClose
| Disconnect.

(** [sessionCache] is a [Map<string, SessionInfo>]: its entries in insertion
    order, each holding a reference to a [SessionInfo] object, so that the
    object [getOptimalSession] returns is the one the map holds. [kv] is the
    content of the Content Store and [trace] the calls made to the outside. *)
Record World : Type := {
  sessionCache : list (string * loc);
  heap_next : loc;
  heap : loc -> SessionInfo;
  kv : gmap string string;
  trace : list Event
}.

Definition SESSION_TIMEOUT : Z := 30 * 60 * 1000.
Definition MAX_SESSIONS : Z := 5.

Definition DEFAULT_USER_AGENT : string :=
  "Mozilla/5.0 (Macintosh; Intel Mac OS X 10_15_7) AppleWebKit/537.36 (KHTML, like Gecko) Chrome/120.0.0.0 Safari/537.36".

(** ** A state and exception monad *)

Definition M (S A : Type) : Type := S -> Outcome A * S.

Global Instance M_ret {S} : MRet (M S) := fun A a s => (Ok a, s).

Global Instance M_bind {S} : MBind (M S) := fun A B f m s =>
  match m s with
  | (Ok a, s') => f a s'
  | (Throw e, s') => (Throw e, s')
  end.

Definition throw {S A} (e : Thrown) : M S A := fun s => (Throw e, s).

Definition try_catch {S A} (m : M S A) (h : Thrown -> M S A) : M S A := fun s =>
  match m s with
  | (Ok a, s') => (Ok a, s')
  | (Throw e, s') => h e s'
  end.

(** The result of a call, as the outside answered it. *)
Definition settle {S A} (answer : Outcome A) : M S A := fun s => (answer, s).

Definition gets {S A} (f : S -> A) : M S A := fun s => (Ok (f s), s).
Definition modify {S} (f : S -> S) : M S unit := fun s => (Ok tt, f s).

(** *** Updates of the world *)

Definition with_sessionCache (c : list (string * loc)) (w : World) : World :=
  {| sessionCache := c; heap_next := heap_next w; heap := heap w;
     kv := kv w; trace := trace w |}.

Definition with_kv (k : gmap string string) (w : World) : World :=
  {| sessionCache := sessionCache w; heap_next := heap_next w; heap := heap w;
     kv := k; trace := trace w |}.

Definition with_trace (t : list Event) (w : World) : World :=
  {| sessionCache := sessionCache w; heap_next := heap_next w; heap := heap w;
     kv := kv w; trace := t |}.

(** [r.field = v] *)
Definition heap_write (r : loc) (v : SessionInfo) (w : World) : World :=
  {| sessionCache := sessionCache w; heap_next := heap_next w;
     heap := fun r' => if Nat.eqb r' r then v else heap w r';
     kv := kv w; trace := trace w |}.

(** A new object [{ ... }] *)
Definition heap_alloc (v : SessionInfo) (w : World) : loc * World :=
  (heap_next w,
   {| sessionCache := sessionCache w; heap_next := S (heap_next w);
      heap := fun r' => if Nat.eqb r' (heap_next w) then v else heap w r';
      kv := kv w; trace := trace w |}).

Definition alloc (v : SessionInfo) : M World loc := fun w =>
  let (r, w') := heap_alloc v w in (Ok r, w').

Definition set_inUse (b : bool) (i : SessionInfo) : SessionInfo :=
  {| sessionId := sessionId i; lastUsed := lastUsed i; inUse := b |}.

Definition set_lastUsed (t : Z) (i : SessionInfo) : SessionInfo :=
  {| sessionId := sessionId i; lastUsed := t; inUse := inUse i |}.

(** *** [Map] operations on the entries *)

Definition map_has (k : string) (c : list (string * loc)) : bool :=
  existsb (fun e => String.eqb (fst e) k) c.

Definition map_get (k : string) (c : list (string * loc)) : option loc :=
  snd <$> List.find (fun e => String.eqb (fst e) k) c.

Definition map_delete (k : string) (c : list (string * loc)) : list (string * loc) :=
  List.filter (fun e => negb (String.eqb (fst e) k)) c.

(** [set] keeps the position of a key that is present and appends a new one. *)
Fixpoint map_set (k : string) (r : loc) (c : list (string * loc)) : list (string * loc) :=
  match c with
  | [] => [(k, r)]
  | e :: c' => if String.eqb (fst e) k then (k, r) :: c' else e :: map_set k r c'
  end.

(** The registry as the objects it holds. *)
Definition entries (w : World) : list (string * SessionInfo) :=
  List.map (fun e => (fst e, heap w (snd e))) (sessionCache w).

(** *** Calls to the outside *)

Definition emit (ev : Event) : M World unit :=
  modify (fun w => with_trace (trace w ++ [ev]) w).

Definition call {A} (ev : Event) (answer : Outcome A) : M World A :=
  emit ev;; settle answer.

Definition call_void (ev : Event) (fault : option Thrown) : M World unit :=
  emit ev;; match fault with Some e => throw e | None => mret tt end.

Definition kv_get (ns : KVNamespace) (key : string) : M World (option string) :=
  call_void (KvGet key) (get_fault ns);; gets (fun w => kv w !! key).

Definition kv_put (ns : KVNamespace) (key value : string) (ttl : Z) : M World unit :=
  call_void (KvPut key value ttl) (put_fault ns);;
  modify (fun w => with_kv (<[key := value]> (kv w)) w).

(** ** [getOptimalSession] *)

(** "Clean up expired sessions from cache": a [Map] has one entry per key, so
    deleting the key being visited removes the visited entry and the loop is
    a filter. *)
Definition expired (now : Z) (info : SessionInfo) : bool :=
  now - lastUsed info >? SESSION_TIMEOUT.

Definition remove_expired (now : Z) (w : World) : World :=
  with_sessionCache
    (List.filter (fun e => negb (expired now (heap w (snd e)))) (sessionCache w)) w.

(** "Remove cached sessions that are no longer active" *)
Definition remove_stale (activeSessionIds : list string) (w : World) : World :=
  with_sessionCache
    (List.filter (fun e => existsb (String.eqb (fst e)) activeSessionIds) (sessionCache w)) w.

(** The test of the third loop on one entry. *)
Definition available (activeSessions : list Puppeteer.ActiveSession)
    (w : World) (e : string * loc) : bool :=
  negb (inUse (heap w (snd e))) &&
  existsb (String.eqb (fst e)) (List.map Puppeteer.sessionId activeSessions) &&
  match List.find (fun s => String.eqb (Puppeteer.sessionId s) (fst e)) activeSessions with
  | Some activeSession => negb (Js.truthy_opt (Puppeteer.connectionId activeSession))
  | None => false
  end.

(** The filter of "find a new available session". *)
Definition adoptable (w : World) (v : Puppeteer.ActiveSession) : bool :=
  negb (Js.truthy_opt (Puppeteer.connectionId v)) &&
  negb (map_has (Puppeteer.sessionId v) (sessionCache w)).

(** "Try to find an available cached session that's still active", then
    "If no cached session available, find a new available session". *)
Definition pick_session (activeSessions : list Puppeteer.ActiveSession) (now : Z)
  : M World (option loc) :=
  w ← gets id;
  match List.find (available activeSessions w) (sessionCache w) with
  | Some (_, info) =>
      modify (fun w => heap_write info (set_inUse true (heap w info)) w);;
      modify (fun w => heap_write info (set_lastUsed now (heap w info)) w);;
      mret (Some info)
  | None =>
      match List.filter (adoptable w) activeSessions with
      | selectedSession :: _ =>
          sessionInfo ← alloc
              {| sessionId := Puppeteer.sessionId selectedSession;
                 lastUsed := now; inUse := true |};
          modify (fun w => with_sessionCache
            (map_set (Puppeteer.sessionId selectedSession) sessionInfo (sessionCache w)) w);;
          mret (Some sessionInfo)
      | [] => mret None
      end
  end.

Definition getOptimalSession (endpoint : Puppeteer.BrowserWorker) (now : Z)
  : M World (option loc) :=
  modify (remove_expired now);;
  listed ← try_catch
    (activeSessions ← call Sessions (Puppeteer.sessions endpoint);
     mret (Some activeSessions))
    (fun _ => mret None);
  match listed with
  | None => mret None
  | Some activeSessions =>
      let activeSessionIds := List.map Puppeteer.sessionId activeSessions in
      modify (remove_stale activeSessionIds);;
      pick_session activeSessions now
  end.

(** The registry as [getOptimalSession] leaves it after its two clean-up
    loops, when the Browser Service answered [activeSessions]. *)
Definition reconciled (activeSessions : list Puppeteer.ActiveSession) (now : Z)
    (w : World) : World :=
  remove_stale (List.map Puppeteer.sessionId activeSessions)
    (with_trace (trace w ++ [Sessions]) (remove_expired now w)).

(** ** Requests and responses *)

(** [pathname] is [new URL(request.url).pathname]. *)
Record Request : Type := {
  method : string;
  pathname : string
}.

Inductive JsonValue : Type :=
| JBool (b : bool)
| JString (s : string).

(** A JSON body is kept as the object handed to [JSON.stringify]. *)
Inductive Body : Type :=
| BodyNull
| BodyText (text : string)
| BodyJson (fields : list (string * JsonValue)).

Record Response : Type := {
  status : Z;
  body : Body;
  headers : list (string * string)
}.

Definition json_headers : list (string * string) :=
  [("content-type", "application/json"); ("access-control-allow-origin", "*")].

Definition preflight_response : Response :=
  {| status := 200; body := BodyNull;
     headers := [("access-control-allow-origin", "*");
                 ("access-control-allow-methods", "GET, OPTIONS");
                 ("access-control-allow-headers", "Content-Type")] |}.

Definition missing_target_response : Response :=
  {| status := 400;
     body := BodyJson
       [("success", JBool false);
        ("error", JString "Missing target URL in path. Usage: /content/https://example.com")];
     headers := json_headers |}.

Definition invalid_url_response : Response :=
  {| status := 400;
     body := BodyJson [("success", JBool false); ("error", JString "Invalid URL format")];
     headers := json_headers |}.

Definition cache_hit_response (cached : string) : Response :=
  {| status := 200; body := BodyText cached;
     headers := [("content-type", "text/html;charset=UTF-8");
                 ("access-control-allow-origin", "*");
                 ("cache-control", "public, max-age=3600")] |}.

Definition html_response (htmlContent : string) : Response :=
  {| status := 200; body := BodyText htmlContent;
     headers := [("content-type", "text/html;charset=UTF-8");
                 ("access-control-allow-origin", "*")] |}.

Definition fault_response (error : Thrown) (reqUrl timestamp : string) : Response :=
  {| status := 500;
     body := BodyJson
       [("success", JBool false);
        ("error", JString (error_message error));
        ("url", JString reqUrl);
        ("timestamp", JString timestamp)];
     headers := json_headers |}.

Definition static_response : Response :=
  {| status := 204; body := BodyNull;
     headers := [("access-control-allow-origin", "*"); ("cache-control", "no-cache")] |}.

Definition method_not_allowed_response (request : Request) : Response :=
  {| status := 405;
     body := BodyJson
       [("success", JBool false);
        ("error", JString "Only GET requests to /content/{target_url} are supported");
        ("path", JString (pathname request));
        ("method", JString (method request))];
     headers := json_headers |}.

(** The [page.on('request', ...)] handler: [true] aborts the request. *)
Definition aborts_resource (resourceType : string) : bool :=
  existsb (String.eqb resourceType) ["stylesheet"; "font"; "image"; "media"; "other"].

Definition static_extensions : list string :=
  ["css"; "js"; "png"; "jpg"; "jpeg"; "gif"; "svg"; "ico"; "woff"; "woff2";
   "ttf"; "eot"; "webp"; "avif"].

Definition isStaticResource (path : string) : bool :=
  existsb (fun ext => Js.endsWith ("." +:+ ext) (Js.toLowerCase path)) static_extensions
  || Js.startsWith "/media/" path
  || Js.startsWith "/assets/" path
  || Js.startsWith "/static/" path
  || Js.startsWith "/images/" path
  || Js.startsWith "/css/" path
  || Js.startsWith "/js/" path
  || Js.includes "favicon" path.

(** ** The locals of [fetch] that its [catch] block reads *)

Record Scope : Type := {
  browser : option Puppeteer.Browser;
  launched : bool;
  sessionInfo : option loc;
  global : World
}.

Definition enter (w : World) : Scope :=
  {| browser := None; launched := false; sessionInfo := None; global := w |}.

Definition lift {A} (m : M World A) : M Scope A := fun s =>
  let (o, w') := m (global s) in
  (o, {| browser := browser s; launched := launched s;
         sessionInfo := sessionInfo s; global := w' |}).

Definition assign_browser (b : Puppeteer.Browser) : M Scope unit :=
  modify (fun s => {| browser := Some b; launched := launched s;
                      sessionInfo := sessionInfo s; global := global s |}).

Definition assign_launched (l : bool) : M Scope unit :=
  modify (fun s => {| browser := browser s; launched := l;
                      sessionInfo := sessionInfo s; global := global s |}).

Definition assign_sessionInfo (i : option loc) : M Scope unit :=
  modify (fun s => {| browser := browser s; launched := launched s;
                      sessionInfo := i; global := global s |}).

Definition run_scoped {A} (m : M Scope A) : M World A := fun w =>
  let (o, s) := m (enter w) in (o, global s).

Definition cache_delete (k : string) : M World unit :=
  modify (fun w => with_sessionCache (map_delete k (sessionCache w)) w).

Definition cache_set (k : string) (v : SessionInfo) : M World unit :=
  r ← alloc v;
  modify (fun w => with_sessionCache (map_set k r (sessionCache w)) w).

(** "Check cache first (if KV is available)": the payload when the handler
    answers from the cache. *)
Definition cache_lookup (env : Env) (cacheKey : string) : M World (option string) :=
  match HTML_CACHE env with
  | Some ns =>
      try_catch
        (cached ← kv_get ns cacheKey;
         if Js.truthy_opt cached then mret cached else mret None)
        (fun _ => mret None)
  | None => mret None
  end.

(** "Cache the HTML content (if KV is available)" *)
Definition cache_store (env : Env) (cacheKey htmlContent : string) : M World unit :=
  match HTML_CACHE env with
  | Some ns => try_catch (kv_put ns cacheKey htmlContent 3600) (fun _ => mret tt)
  | None => mret tt
  end.

Definition launch_new (endpoint : Puppeteer.BrowserWorker) : M Scope Puppeteer.Browser :=
  b ← lift (call Launch (Puppeteer.launch endpoint));
  assign_browser b;;
  assign_launched true;;
  mret b.

(** Lines "Try to get an existing session first" to "Launched new browser
    session": the browser the request uses. *)
Definition obtain_browser (env : Env) (clock : Clock) : M Scope Puppeteer.Browser :=
  let endpoint := MYBROWSER env in
  found ← lift (getOptimalSession endpoint (now_acquire clock));
  assign_sessionInfo found;;
  match found with
  | Some info =>
      sid ← lift (gets (fun w => sessionId (heap w info)));
      try_catch
        (b ← lift (call (Connect sid) (Puppeteer.connect endpoint sid));
         assign_browser b;;
         mret b)
        (fun connectError =>
           lift (cache_delete sid);;
           assign_sessionInfo None;;
           launch_new endpoint)
  | None => launch_new endpoint
  end.

Definition userAgent (env : Env) : string :=
  if Js.truthy_opt (CUSTOM_USER_AGENT env)
  then default DEFAULT_USER_AGENT (CUSTOM_USER_AGENT env)
  else DEFAULT_USER_AGENT.

(** From [browser.newPage()] to [page.close()]: the rendered document. The
    value [page.goto] resolves to is dropped. *)
Definition render (env : Env) (b : Puppeteer.Browser) (reqUrl : string) : M World string :=
  page ← call NewPage (Puppeteer.newPage b);
  call_void (SetUserAgent (userAgent env)) (Puppeteer.setUserAgent page);;
  call_void SetRequestInterception (Puppeteer.setRequestInterception page);;
  call (Goto reqUrl 15000) (Puppeteer.goto page);;
  htmlContent ← call Content (Puppeteer.content page);
  call_void PageClose (Puppeteer.close page);;
  mret htmlContent.

(** "Don't disconnect if we're reusing the session" *)
Definition hand_back (clock : Clock) (b : Puppeteer.Browser) : M Scope unit :=
  s ← gets id;
  if launched s then
    (match Puppeteer.browser_sessionId b with
     | Some newSessionId =>
         if Js.truthy newSessionId then
           lift (cache_set newSessionId
                   {| sessionId := newSessionId;
                      lastUsed := now_release clock; inUse := false |})
         else mret tt
     | None => mret tt
     end);;
    lift (call_void Disconnect (Puppeteer.disconnect b))
  else
    match sessionInfo s with
    | Some info =>
        lift (modify (fun w => heap_write info (set_inUse false (heap w info)) w));;
        lift (modify (fun w => heap_write info (set_lastUsed (now_release clock) (heap w info)) w))
    | None => mret tt
    end.

(** The [try] block from [browser.newPage()] on. *)
Definition carry_on (env : Env) (clock : Clock) (reqUrl cacheKey : string)
    (b : Puppeteer.Browser) : M Scope Response :=
  htmlContent ← lift (render env b reqUrl);
  hand_back clock b;;
  lift (cache_store env cacheKey htmlContent);;
  mret (html_response htmlContent).

(** The body of the [try] block. *)
Definition attempt (env : Env) (clock : Clock) (reqUrl cacheKey : string) : M Scope Response :=
  b ← obtain_browser env clock;
  carry_on env clock reqUrl cacheKey b.

(** [error instanceof Error && error.message.includes('Cannot read properties of null')] *)
Definition null_read (error : Thrown) : bool :=
  match error with
  | ErrorObj message => Js.includes "Cannot read properties of null" message
  | NonError => false
  end.

(** The [catch] block. *)
Definition recover (clock : Clock) (reqUrl : string) (error : Thrown) : M Scope Response :=
  s ← gets id;
  (match browser s with
   | Some b =>
       try_catch
         ((match sessionInfo s with
           | Some info =>
               if null_read error then
                 lift (sid ← gets (fun w => sessionId (heap w info)); cache_delete sid)
               else
                 lift (modify (fun w => heap_write info (set_inUse false (heap w info)) w))
           | None => mret tt
           end);;
          if launched s then lift (call_void Disconnect (Puppeteer.disconnect b))
          else mret tt)
         (fun cleanupError => mret tt)
   | None => mret tt
   end);;
  mret (fault_response error reqUrl (now_iso clock)).

(** The [try]/[catch] statement of a request the cache did not answer. *)
Definition handle_miss (env : Env) (clock : Clock) (reqUrl cacheKey : string)
  : M World Response :=
  run_scoped (try_catch (attempt env clock reqUrl cacheKey) (recover clock reqUrl)).

(** ** [warmupSessions]

    [now] is the value of [Date.now()]. *)
Definition warmupSessions (endpoint : Puppeteer.BrowserWorker) (now : Z) : M World unit :=
  size ← gets (fun w => Z.of_nat (length (sessionCache w)));
  if size >=? MAX_SESSIONS then mret tt
  else
    try_catch
      (b ← call Launch (Puppeteer.launch endpoint);
       (match Puppeteer.browser_sessionId b with
        | Some newSessionId =>
            if Js.truthy newSessionId then
              cache_set newSessionId
                {| sessionId := newSessionId; lastUsed := now; inUse := false |}
            else mret tt
        | None => mret tt
        end);;
       call_void Disconnect (Puppeteer.disconnect b))
      (fun error => mret tt).

Section Worker.

(** The platform's [decodeURIComponent] and [new URL(s).toString()];
    [None] when they throw. *)
Variable decodeURIComponent : string -> option string.
Variable URL_toString : string -> option string.

Definition normalize (targetUrl : string) : option string :=
  decodeURIComponent targetUrl ≫= URL_toString.

Definition fetch (request : Request) (env : Env) (clock : Clock) : M World Response :=
  if String.eqb (method request) "OPTIONS" then mret preflight_response
  else if String.eqb (method request) "GET" && Js.startsWith "/content/" (pathname request) then
    let targetUrl := Js.substring (String.length "/content/") (pathname request) in
    if negb (Js.truthy targetUrl) then mret missing_target_response
    else
      match normalize targetUrl with
      | None => mret invalid_url_response
      | Some reqUrl =>
          let cacheKey := computeKey reqUrl in
          hit ← cache_lookup env cacheKey;
          match hit with
          | Some cached => mret (cache_hit_response cached)
          | None => handle_miss env clock reqUrl cacheKey
          end
      end
  else if String.eqb (method request) "GET" && isStaticResource (pathname request)
  then mret static_response
  else mret (method_not_allowed_response request).

(** [request] is a [GET /content/{target}] whose target normalises to [reqUrl]. *)
Definition targets (request : Request) (reqUrl : string) : Prop :=
  method request = "GET" /\
  Js.startsWith "/content/" (pathname request) = true /\
  Js.truthy (Js.substring 9 (pathname request)) = true /\
  normalize (Js.substring 9 (pathname request)) = Some reqUrl.

End Worker.

(** ** The older [?url=] handler

    Only its treatment of the navigation response is needed here: from
    [const response = await page.goto(...)] to the test of the status, and
    the response of its [catch] block. *)

Module Legacy.

(** [`${status}`] for an integer status. *)
Definition number_to_string (n : Z) : string :=
  NilZero.string_of_int (Z.to_int n).

Definition load (page : Puppeteer.Page) : Outcome unit :=
  match Puppeteer.goto page with
  | Throw e => Throw e
  | Ok None => Throw (ErrorObj "Failed to load page: No response received")
  | Ok (Some status) =>
      if status >=? 400
      then Throw (ErrorObj ("Failed to load page: " +:+ number_to_string status))
      else Ok tt
  end.

Definition fault_response (error : Thrown) (reqUrl : string) (launched : bool)
    (sessionId : string) : Response :=
  {| status := 500;
     body := BodyJson
       [("success", JBool false);
        ("error", JString (error_message error));
        ("url", JString reqUrl);
        ("sessionInfo",
         JString ((if launched then "Launched" else "Connected to") +:+ " " +:+ sessionId))];
     headers := json_headers |}.

End Legacy.

(** ** The older [?url=] handler in full

    It keeps no registry and no store: its state is the sequence of calls it
    makes to the Browser Service. *)

Module LegacyWorker.

(** [url.searchParams.get("url")], [url.searchParams.get('format')] and
    [request.headers.get('accept')]. *)
Record Request : Type := {
  url_param : option string;
  format_param : option string;
  accept : option string
}.

(** What the script handed to [page.evaluate] reads: for a selector
    [meta[property="p"]] or [meta[name="p"]] the [content] attribute of the
    first element that matches ([None] when no element matches),
    [document.title] and [window.location.href]. *)
Record Document : Type := {
  meta_property : string -> option (option string);
  meta_name : string -> option (option string);
  document_title : string;
  location_href : string
}.

(** [goto] resolves to the status of the navigation response, or to [null];
    [evaluate] runs the script on the document the page holds. *)
Record Page : Type := {
  setDefaultTimeout : option Thrown;
  goto : Outcome (option Z);
  evaluate : Outcome Document
}.

(** [sessionId] is the value of [browser.sessionId()]. [disconnect] is called
    without [await]: its fault is an exception thrown by the call itself. *)
Record Browser : Type := {
  sessionId : string;
  newPage : Outcome Page;
  disconnect : option Thrown
}.

Record BrowserWorker : Type := {
  sessions : Outcome (list Puppeteer.ActiveSession);
  connect : string -> Outcome Browser;
  launch : Outcome Browser
}.

Inductive Event : Type :=
| Sessions
| Connect (sid : string)
| Launch
| NewPage
| SetDefaultTimeout (timeout : Z)
| Goto (url waitUntil : string)
| Evaluate
| Disconnect.

Definition Trace : Type := list Event.

Definition emit (ev : Event) : M Trace unit := modify (fun t => t ++ [ev]).

Definition call {A} (ev : Event) (answer : Outcome A) : M Trace A :=
  emit ev;; settle answer.

Definition call_void (ev : Event) (fault : option Thrown) : M Trace unit :=
  emit ev;; match fault with Some e => throw e | None => mret tt end.

(** *** The script run in the page *)

(** [a || b] on [string | null]. *)
Definition or_ (a b : option string) : option string :=
  if Js.truthy_opt a then a else b.

Definition getMeta (doc : Document) (prop : string) : option string :=
  match meta_property doc prop with
  | Some content => content
  | None =>
      match meta_name doc prop with
      | Some content => content
      | None => None
      end
  end.

Record OgData : Type := {
  title : option string;
  description : option string;
  image : option string;
  url : option string;
  type : option string;
  siteName : option string;
  locale : option string;
  twitterCard : option string;
  twitterImage : option string;
  twitterTitle : option string;
  twitterDescription : option string
}.

Definition extract (doc : Document) : OgData :=
  {| title := or_ (or_ (getMeta doc "og:title") (Some (document_title doc))) None;
     description := or_ (or_ (getMeta doc "og:description") (getMeta doc "description")) None;
     image := or_ (getMeta doc "og:image") None;
     url := or_ (getMeta doc "og:url") (Some (location_href doc));
     type := or_ (getMeta doc "og:type") (Some "website");
     siteName := or_ (getMeta doc "og:site_name") None;
     locale := or_ (getMeta doc "og:locale") None;
     twitterCard := or_ (getMeta doc "twitter:card") None;
     twitterImage := or_ (getMeta doc "twitter:image") None;
     twitterTitle := or_ (getMeta doc "twitter:title") None;
     twitterDescription := or_ (getMeta doc "twitter:description") None |}.

(** *** Responses *)

(** The values of the fields of the objects handed to [JSON.stringify];
    [ogData] is kept as the script returned it. *)
Inductive Json : Type :=
| JBool (b : bool)
| JString (s : string)
| JData (ogData : OgData).

(** A JSON body is kept as the object handed to [JSON.stringify]. *)
Inductive Payload : Type :=
| Text (text : string)
| Stringified (fields : list (string * Json)).

Record Response : Type := {
  status : Z;
  body : Payload;
  headers : list (string * string)
}.

(** [`${launched ? "Launched" : "Connected to"} ${sessionId}`] *)
Definition session_note (launched : bool) (sessionId : string) : string :=
  (if launched then "Launched" else "Connected to") +:+ " " +:+ sessionId.

Definition json_response (reqUrl : string) (launched : bool) (sessionId : string)
    (ogData : OgData) : Response :=
  {| status := 200;
     body := Stringified
       [("success", JBool true);
        ("url", JString reqUrl);
        ("sessionInfo", JString (session_note launched sessionId));
        ("data", JData ogData)];
     headers := [("content-type", "application/json");
                 ("access-control-allow-origin", "*");
                 ("access-control-allow-methods", "GET, POST, OPTIONS");
                 ("access-control-allow-headers", "Content-Type")] |}.

(** [`${v}`] and [v || d] for [v : string | null] and a string [d]. *)
Definition text (v : option string) : string := default "null" v.

Definition text_or (v : option string) (d : string) : string :=
  if Js.truthy_opt v then text v else d.

Definition q : string := String "034" EmptyString.
Definition nl : string := String "010" EmptyString.

(** The template of [htmlContent], line by line. *)
Definition html_lines (ogData : OgData) (reqUrl sessionId : string) : list string :=
  [ "<!DOCTYPE html>";
    "<html>";
    "<head>";
    "  <meta charset=" +:+ q +:+ "utf-8" +:+ q +:+ ">";
    "  <title>" +:+ text_or (title ogData) "Page Title" +:+ "</title>";
    "";
    "  <!-- Open Graph meta tags -->";
    "  <meta property=" +:+ q +:+ "og:title" +:+ q +:+ " content=" +:+ q +:+ text_or (title ogData) "" +:+ q +:+ ">";
    "  <meta property=" +:+ q +:+ "og:description" +:+ q +:+ " content=" +:+ q +:+ text_or (description ogData) "" +:+ q +:+ ">";
    "  <meta property=" +:+ q +:+ "og:image" +:+ q +:+ " content=" +:+ q +:+ text_or (image ogData) "" +:+ q +:+ ">";
    "  <meta property=" +:+ q +:+ "og:url" +:+ q +:+ " content=" +:+ q +:+ text_or (url ogData) reqUrl +:+ q +:+ ">";
    "  <meta property=" +:+ q +:+ "og:type" +:+ q +:+ " content=" +:+ q +:+ text_or (type ogData) "website" +:+ q +:+ ">";
    "  " +:+ (if Js.truthy_opt (siteName ogData) then "<meta property=" +:+ q +:+ "og:site_name" +:+ q +:+ " content=" +:+ q +:+ text (siteName ogData) +:+ q +:+ ">" else "");
    "  " +:+ (if Js.truthy_opt (locale ogData) then "<meta property=" +:+ q +:+ "og:locale" +:+ q +:+ " content=" +:+ q +:+ text (locale ogData) +:+ q +:+ ">" else "");
    "";
    "  <!-- Twitter Card meta tags -->";
    "  " +:+ (if Js.truthy_opt (twitterCard ogData) then "<meta name=" +:+ q +:+ "twitter:card" +:+ q +:+ " content=" +:+ q +:+ text (twitterCard ogData) +:+ q +:+ ">" else "");
    "  " +:+ (if Js.truthy_opt (twitterImage ogData) then "<meta name=" +:+ q +:+ "twitter:image" +:+ q +:+ " content=" +:+ q +:+ text (twitterImage ogData) +:+ q +:+ ">" else "");
    "  " +:+ (if Js.truthy_opt (twitterTitle ogData) then "<meta name=" +:+ q +:+ "twitter:title" +:+ q +:+ " content=" +:+ q +:+ text (twitterTitle ogData) +:+ q +:+ ">" else "");
    "  " +:+ (if Js.truthy_opt (twitterDescription ogData) then "<meta name=" +:+ q +:+ "twitter:description" +:+ q +:+ " content=" +:+ q +:+ text (twitterDescription ogData) +:+ q +:+ ">" else "");
    "";
    "  <!-- Standard meta tags -->";
    "  <meta name=" +:+ q +:+ "description" +:+ q +:+ " content=" +:+ q +:+ text_or (description ogData) "" +:+ q +:+ ">";
    "";
    "  <!-- Redirect to original URL after a short delay -->";
    "  <meta http-equiv=" +:+ q +:+ "refresh" +:+ q +:+ " content=" +:+ q +:+ "0;url=" +:+ reqUrl +:+ q +:+ ">";
    "</head>";
    "<body>";
    "  <h1>" +:+ text_or (title ogData) "Loading..." +:+ "</h1>";
    "  <p>" +:+ text_or (description ogData) "Redirecting to original page..." +:+ "</p>";
    "  <p><a href=" +:+ q +:+ reqUrl +:+ q +:+ ">Click here if you are not redirected automatically</a></p>";
    "";
    "  <!-- Debug info (hidden) -->";
    "  <!-- Session: " +:+ sessionId +:+ " -->";
    "</body>";
    "</html>" ].
Definition html_response (ogData : OgData) (reqUrl sessionId : string) : Response :=
  {| status := 200;
     body := Text (String.concat nl (html_lines ogData reqUrl sessionId));
     headers := [("content-type", "text/html;charset=UTF-8");
                 ("cache-control", "public, max-age=300")] |}.

Definition fault_response (error : Thrown) (reqUrl : string) (launched : bool)
    (sessionId : string) : Response :=
  {| status := 500;
     body := Stringified
       [("success", JBool false);
        ("error", JString (error_message error));
        ("url", JString reqUrl);
        ("sessionInfo", JString (session_note launched sessionId))];
     headers := [("content-type", "application/json");
                 ("access-control-allow-origin", "*")] |}.

(** [acceptHeader.includes('application/json') ||
     url.searchParams.get('format') === 'json'] *)
Definition wantsJson (request : Request) : bool :=
  Js.includes "application/json" (text_or (accept request) "") ||
  match format_param request with
  | Some format => String.eqb format "json"
  | None => false
  end.

Section Platform.

(** [new URL(s).toString()], with the error it throws where it does, and
    [Math.floor(Math.random() * n)]. *)
Variable URL_toString : string -> option string.
Variable URL_error : string -> Thrown.
Variable random_index : nat -> nat.

(** An index past the end of an array reads [undefined]. *)
Definition getRandomSession (endpoint : BrowserWorker) : M Trace (option string) :=
  listed ← call Sessions (sessions endpoint);
  let sessionsIds :=
    List.map Puppeteer.sessionId
      (List.filter (fun v => negb (Js.truthy_opt (Puppeteer.connectionId v))) listed) in
  if Nat.eqb (length sessionsIds) 0 then mret None
  else mret (nth_error sessionsIds (random_index (length sessionsIds))).

(** From [let browser, launched] to [launched = true]: the browser and
    whether it was launched. *)
Definition connect_or_launch (endpoint : BrowserWorker) (sessionId : option string)
  : M Trace (Browser * bool) :=
  connected ←
    match sessionId with
    | Some sid =>
        if Js.truthy sid then
          try_catch (b ← call (Connect sid) (connect endpoint sid); mret (Some b))
                    (fun e => mret None)
        else mret None
    | None => mret None
    end;
  match connected with
  | Some b => mret (b, false)
  | None => b ← call Launch (launch endpoint); mret (b, true)
  end.

(** The [try] block; [code] is [response.status()]. *)
Definition work (request : Request) (reqUrl : string) (b : Browser) (launched : bool)
    (page : Page) : M Trace Response :=
  call_void (SetDefaultTimeout 10000) (setDefaultTimeout page);;
  response ← call (Goto reqUrl "domcontentloaded") (goto page);
  match response with
  | None => throw (ErrorObj "Failed to load page: No response received")
  | Some code =>
      if code >=? 400 then
        throw (ErrorObj ("Failed to load page: " +:+ Legacy.number_to_string code))
      else
        doc ← call Evaluate (evaluate page);
        let ogData := extract doc in
        call_void Disconnect (disconnect b);;
        if wantsJson request
        then mret (json_response reqUrl launched (sessionId b) ogData)
        else mret (html_response ogData reqUrl (sessionId b))
  end.

(** The [catch] block. *)
Definition on_fault (reqUrl : string) (b : Browser) (launched : bool) (error : Thrown)
  : M Trace Response :=
  call_void Disconnect (disconnect b);;
  mret (fault_response error reqUrl launched (sessionId b)).

Definition fetch (request : Request) (env : BrowserWorker) : M Trace Response :=
  let target := text_or (url_param request) "https://example.com" in
  match URL_toString target with
  | None => throw (URL_error target)
  | Some reqUrl =>
      found ← getRandomSession env;
      '(b, launched) ← connect_or_launch env found;
      page ← call NewPage (newPage b);
      try_catch (work request reqUrl b launched page) (on_fault reqUrl b launched)
  end.

End Platform.

Definition is_disconnect (ev : Event) : bool :=
  match ev with Disconnect => true | _ => false end.

(** The browsers [env] can hand out. *)
Definition serves (env : BrowserWorker) (b : Browser) : Prop :=
  (exists sid, connect env sid = Ok b) \/ launch env = Ok b.

End LegacyWorker.

(** ** Sample surroundings *)

Module Sample.

(** Stand-ins for the platform on targets that need no decoding and are
    already normalised. *)
Definition decodeURIComponent (s : string) : option string := Some s.

Definition URL_toString (s : string) : option string :=
  if Js.startsWith "https://" s then Some s else None.

Definition request : Request :=
  {| method := "GET"; pathname := "/content/https://example.com/" |}.

Definition bad_request : Request :=
  {| method := "GET"; pathname := "/content/not-a-url" |}.

Definition clock : Clock :=
  {| now_acquire := 5000; now_release := 7000; now_iso := "2025-07-05T00:00:07.000Z" |}.

Definition page (status : option Z) (document : string) : Puppeteer.Page :=
  {| Puppeteer.setUserAgent := None;
     Puppeteer.setRequestInterception := None;
     Puppeteer.goto := Ok status;
     Puppeteer.content := Ok document;
     Puppeteer.close := None |}.

Definition hello : string := "<html><head></head><body>Hello</body></html>".
Definition not_found : string := "<html><head></head><body>Not Found</body></html>".

(** A page whose navigation times out. *)
Definition slow_page : Puppeteer.Page :=
  {| Puppeteer.setUserAgent := None;
     Puppeteer.setRequestInterception := None;
     Puppeteer.goto := Throw (ErrorObj "Navigation timeout of 15000 ms exceeded");
     Puppeteer.content := Ok "";
     Puppeteer.close := None |}.

Definition browser (sid : string) (p : Puppeteer.Page) : Puppeteer.Browser :=
  {| Puppeteer.browser_sessionId := Some sid;
     Puppeteer.newPage := Ok p;
     Puppeteer.disconnect := None |}.

(** No session is open; a launch gives session [s9]. *)
Definition fresh_service (p : Puppeteer.Page) : Puppeteer.BrowserWorker :=
  {| Puppeteer.sessions := Ok [];
     Puppeteer.connect := fun _ => Throw (ErrorObj "Unable to connect to session");
     Puppeteer.launch := Ok (browser "s9" p) |}.

(** Session [s1] is open and nobody is connected to it. *)
Definition warm_service (p : Puppeteer.Page) : Puppeteer.BrowserWorker :=
  {| Puppeteer.sessions :=
       Ok [{| Puppeteer.sessionId := "s1"; Puppeteer.connectionId := None |}];
     Puppeteer.connect := fun sid => Ok (browser sid p);
     Puppeteer.launch := Ok (browser "s9" p) |}.

(** Session [s1] is listed, but connecting to it fails. *)
Definition racing_service (p : Puppeteer.Page) : Puppeteer.BrowserWorker :=
  {| Puppeteer.sessions :=
       Ok [{| Puppeteer.sessionId := "s1"; Puppeteer.connectionId := None |}];
     Puppeteer.connect := fun _ => Throw (ErrorObj "Unable to connect to session");
     Puppeteer.launch := Ok (browser "s9" p) |}.

(** The listing itself fails. *)
Definition unlisted_service (p : Puppeteer.Page) : Puppeteer.BrowserWorker :=
  {| Puppeteer.sessions := Throw (ErrorObj "Unable to list sessions");
     Puppeteer.connect := fun _ => Throw (ErrorObj "Unable to connect to session");
     Puppeteer.launch := Ok (browser "s9" p) |}.

Definition store : KVNamespace := {| get_fault := None; put_fault := None |}.

Definition env (service : Puppeteer.BrowserWorker) : Env :=
  {| MYBROWSER := service; HTML_CACHE := Some store; CUSTOM_USER_AGENT := None |}.

Definition no_session : SessionInfo :=
  {| sessionId := ""; lastUsed := 0; inUse := false |}.

(** Nothing tracked, nothing cached. *)
Definition empty_world : World :=
  {| sessionCache := []; heap_next := 0%nat; heap := fun _ => no_session;
     kv := ∅; trace := [] |}.

(** Session [s1] is tracked and free. *)
Definition warm_world : World :=
  {| sessionCache := [("s1", 0%nat)]; heap_next := 1%nat;
     heap := fun _ => {| sessionId := "s1"; lastUsed := 4000; inUse := false |};
     kv := ∅; trace := [] |}.

(** Session [s0], which the Browser Service no longer lists, and [s1] are
    tracked. *)
Definition stale_world : World :=
  {| sessionCache := [("s0", 0%nat); ("s1", 1%nat)]; heap_next := 2%nat;
     heap := fun r => if Nat.eqb r 0
                      then {| sessionId := "s0"; lastUsed := 4500; inUse := false |}
                      else {| sessionId := "s1"; lastUsed := 4000; inUse := false |};
     kv := ∅; trace := [] |}.

(** The Content Store holds a payload for [https://example.com/]. *)
Definition cached_world (payload : string) : World :=
  {| sessionCache := []; heap_next := 0%nat; heap := fun _ => no_session;
     kv := {[ computeKey "https://example.com/" := payload ]}; trace := [] |}.

Definition url : string := "https://example.com/".

Definition fetch : Request -> Env -> Clock -> M World Response :=
  fetch decodeURIComponent URL_toString.

(** Scenario A: the tracked session [s1] is reused and the navigation
    times out. *)
Definition envA : Env := env (warm_service slow_page).
Definition wA0 : World := snd (cache_lookup envA (computeKey url) warm_world).
Definition wA1 : World :=
  snd (getOptimalSession (MYBROWSER envA) (now_acquire clock) wA0).
Definition bA : Puppeteer.Browser := browser "s1" slow_page.
Definition wA2 : World :=
  snd (render envA bA url (with_trace (trace wA1 ++ [Connect "s1"]) wA1)).

(** Scenario B: connecting to the tracked session [s1] fails. *)
Definition envB : Env := env (racing_service (page (Some 200) hello)).
Definition wB0 : World := snd (cache_lookup envB (computeKey url) warm_world).
Definition wB1 : World :=
  snd (getOptimalSession (MYBROWSER envB) (now_acquire clock) wB0).

(** Scenario C: the listing fails. *)
Definition envC : Env := env (unlisted_service (page (Some 200) hello)).
Definition wC0 : World := snd (cache_lookup envC (computeKey url) warm_world).
Definition wC1 : World :=
  with_trace (trace wC0 ++ [Sessions]) (remove_expired (now_acquire clock) wC0).
Definition bC : Puppeteer.Browser := browser "s9" (page (Some 200) hello).
Definition wC2 : World :=
  snd (render envC bC url (with_trace (trace wC1 ++ [Launch]) wC1)).

(** Scenario D: nothing is tracked or cached and the target answers 404. *)
Definition envD : Env := env (fresh_service (page (Some 404) not_found)).

(** Scenario E: the listing shows [s1]; [s0] and [s1] are tracked. *)
Definition serviceE : Puppeteer.BrowserWorker := warm_service (page (Some 200) hello).
Definition listE : list Puppeteer.ActiveSession :=
  [{| Puppeteer.sessionId := "s1"; Puppeteer.connectionId := None |}].
Definition wE : World := snd (getOptimalSession serviceE 5000 stale_world).

(** Scenario F: nothing is tracked and the target answers 200. *)
Definition envF : Env := env (fresh_service (page (Some 200) hello)).

(** Scenario G: as F, but the Content Store fails to answer lookups. *)
Definition failing_store : KVNamespace :=
  {| get_fault := Some (ErrorObj "KV GET failed: 503 Service Unavailable");
     put_fault := None |}.

Definition envG : Env :=
  {| MYBROWSER := fresh_service (page (Some 200) hello);
     HTML_CACHE := Some failing_store;
     CUSTOM_USER_AGENT := None |}.

(** Scenario H: sessions [s1] and [s2] are open and idle; [s1] is tracked
    and marked busy by a request still under way. *)
Definition two_service (p : Puppeteer.Page) : Puppeteer.BrowserWorker :=
  {| Puppeteer.sessions :=
       Ok [{| Puppeteer.sessionId := "s1"; Puppeteer.connectionId := None |};
           {| Puppeteer.sessionId := "s2"; Puppeteer.connectionId := None |}];
     Puppeteer.connect := fun sid => Ok (browser sid p);
     Puppeteer.launch := Ok (browser "s9" p) |}.

Definition serviceH : Puppeteer.BrowserWorker := two_service (page (Some 200) hello).

Definition busy_world : World :=
  {| sessionCache := [("s1", 0%nat)]; heap_next := 1%nat;
     heap := fun _ => {| sessionId := "s1"; lastUsed := 4000; inUse := true |};
     kv := ∅; trace := [] |}.

Definition wH : World := snd (getOptimalSession serviceH 5000 busy_world).

(** Scenario I: two acquisitions in a row on [warm_world]. *)
Definition wI1 : World := snd (getOptimalSession serviceH 5000 warm_world).
Definition wI2 : World := snd (getOptimalSession serviceH 6000 wI1).

(** Scenario J: the tracked session [s1] is reused and the page renders. *)
Definition envJ : Env := env serviceE.
Definition wJ0 : World := snd (cache_lookup envJ (computeKey url) warm_world).
Definition wJ1 : World :=
  snd (getOptimalSession (MYBROWSER envJ) (now_acquire clock) wJ0).
Definition bJ : Puppeteer.Browser := browser "s1" (page (Some 200) hello).
Definition wJ2 : World :=
  snd (render envJ bJ url (with_trace (trace wJ1 ++ [Connect "s1"]) wJ1)).

(** Scenario F, step by step. *)
Definition wF0 : World := snd (cache_lookup envF (computeKey url) empty_world).
Definition wF1 : World :=
  snd (getOptimalSession (MYBROWSER envF) (now_acquire clock) wF0).
Definition bF : Puppeteer.Browser := browser "s9" (page (Some 200) hello).
Definition wF2 : World :=
  snd (render envF bF url (with_trace (trace wF1 ++ [Launch]) wF1)).
Definition wF3 : World := snd (fetch request envF clock empty_world).

(** Scenario K: nothing is tracked and no browser can be launched. *)
Definition broken_service : Puppeteer.BrowserWorker :=
  {| Puppeteer.sessions := Ok [];
     Puppeteer.connect := fun _ => Throw (ErrorObj "Unable to connect to session");
     Puppeteer.launch :=
       Throw (ErrorObj "Unable to create new browser: code: 429: message: Too many browsers") |}.

Definition envK : Env := env broken_service.
Definition wK0 : World := snd (cache_lookup envK (computeKey url) empty_world).
Definition wK1 : World :=
  snd (getOptimalSession (MYBROWSER envK) (now_acquire clock) wK0).

(** Scenario L: nothing is tracked and the navigation of the launched
    browser times out. *)
Definition envL : Env := env (fresh_service slow_page).
Definition wL0 : World := snd (cache_lookup envL (computeKey url) empty_world).
Definition wL1 : World :=
  snd (getOptimalSession (MYBROWSER envL) (now_acquire clock) wL0).
Definition bL : Puppeteer.Browser := browser "s9" slow_page.
Definition wL2 : World :=
  snd (render envL bL url (with_trace (trace wL1 ++ [Launch]) wL1)).

(** Scenario M: the listing fails long after [s1] was last used. *)
Definition wM : World :=
  snd (getOptimalSession (unlisted_service (page (Some 200) hello)) 1804200 stale_world).

End Sample.

(** ** Sample surroundings of the older handler *)

Module LegacySample.

Definition URL_error (s : string) : Thrown := ErrorObj ("Invalid URL: " +:+ s).

(** The first element of the array is drawn. *)
Definition random_index (n : nat) : nat := 0%nat.

Definition request : LegacyWorker.Request :=
  {| LegacyWorker.url_param := Some "https://example.com/";
     LegacyWorker.format_param := None;
     LegacyWorker.accept := Some "text/html" |}.

(** A document with an [og:title] and a [description]. *)
Definition document : LegacyWorker.Document :=
  {| LegacyWorker.meta_property := fun p =>
       if String.eqb p "og:title" then Some (Some "Example Domain") else None;
     LegacyWorker.meta_name := fun p =>
       if String.eqb p "description" then Some (Some "An example") else None;
     LegacyWorker.document_title := "Example";
     LegacyWorker.location_href := "https://example.com/" |}.

Definition page (code : Z) : LegacyWorker.Page :=
  {| LegacyWorker.setDefaultTimeout := None;
     LegacyWorker.goto := Ok (Some code);
     LegacyWorker.evaluate := Ok document |}.

Definition browser (sid : string) (p : LegacyWorker.Page) : LegacyWorker.Browser :=
  {| LegacyWorker.sessionId := sid;
     LegacyWorker.newPage := Ok p;
     LegacyWorker.disconnect := None |}.

Definition listing : list Puppeteer.ActiveSession :=
  [{| Puppeteer.sessionId := "s0"; Puppeteer.connectionId := Some "c7" |};
   {| Puppeteer.sessionId := "s1"; Puppeteer.connectionId := None |}].

(** Session [s0] has a worker connected, [s1] is idle. *)
Definition service (p : LegacyWorker.Page) : LegacyWorker.BrowserWorker :=
  {| LegacyWorker.sessions := Ok listing;
     LegacyWorker.connect := fun sid => Ok (browser sid p);
     LegacyWorker.launch := Ok (browser "s9" p) |}.

(** The listing fails. *)
Definition unlisted_service : LegacyWorker.BrowserWorker :=
  {| LegacyWorker.sessions := Throw (ErrorObj "Unable to list sessions");
     LegacyWorker.connect := fun sid => Ok (browser sid (page 200));
     LegacyWorker.launch := Ok (browser "s9" (page 200)) |}.

Definition fetch : LegacyWorker.Request -> LegacyWorker.BrowserWorker ->
    M LegacyWorker.Trace LegacyWorker.Response :=
  LegacyWorker.fetch Sample.URL_toString URL_error random_index.

End LegacySample.

(** ** Notions used to state the properties *)

(** Each entry's key is the [sessionId] of the object it holds, as every
    [sessionCache.set] of the source makes it. *)
Definition keyed (w : World) : Prop :=
  forall k r, In (k, r) (sessionCache w) -> sessionId (heap w r) = k.


(** The clean-up loops as the source writes them: visit the entries and
    delete the key of each doomed one. *)
Definition delete_loop (doomed : string * loc -> bool)
    (visited c : list (string * loc)) : list (string * loc) :=
  fold_left (fun c e => if doomed e then map_delete (fst e) c else c) visited c.

(** The entries are those of a [Map]: no key occurs twice. *)
Definition distinct_keys (w : World) : Prop :=
  List.NoDup (List.map fst (sessionCache w)).

(** The kinds of calls to the outside. *)
Inductive Kind : Type :=
| KGet | KPut | KList | KConnect | KLaunch | KPage | KDisconnect.

Definition kind (ev : Event) : Kind :=
  match ev with
  | KvGet _ => KGet
  | KvPut _ _ _ => KPut
  | Sessions => KList
  | Connect _ => KConnect
  | Launch => KLaunch
  | NewPage | SetUserAgent _ | SetRequestInterception | Goto _ _ | Content
  | PageClose => KPage
  | Disconnect => KDisconnect
  end.

(** The calls of [t] whose kind is not among the [allowed] ones. *)
Definition others (allowed : Kind -> bool) (t : list Event) : list Event :=
  List.filter (fun ev => negb (allowed (kind ev))) t.

(** [w'] comes from [w] by calls of the [allowed] kinds only (and by changes
    to the registry); the Content Store changes only if [KPut] is allowed. *)
Definition only (allowed : Kind -> bool) (w w' : World) : Prop :=
  others allowed (trace w') = others allowed (trace w) /\
  (allowed KPut = false -> kv w' = kv w).

Definition confined {S A} (allowed : Kind -> bool) (proj : S -> World) (m : M S A) : Prop :=
  forall s o s', m s = (o, s') -> only allowed (proj s) (proj s').

(** Every run of [m] takes the world from [w] to some [w'] with [R w w']. *)
Definition respects {S A} (R : World -> World -> Prop) (proj : S -> World)
    (m : M S A) : Prop :=
  forall s o s', m s = (o, s') -> R (proj s) (proj s').

(** Every reference the registry holds is to an object already created. *)
Definition allocated (w : World) : Prop :=
  forall k r, In (k, r) (sessionCache w) -> (r < heap_next w)%nat.

(** The registry is a [Map] of [SessionInfo] objects filed under their ids. *)
Definition well_formed (w : World) : Prop :=
  distinct_keys w /\ keyed w /\ allocated w.

Definition stays_well_formed (w w' : World) : Prop :=
  well_formed w -> well_formed w'.

Definition no_launch (k : Kind) : bool :=
  match k with KLaunch => false | _ => true end.

Definition no_disconnect (k : Kind) : bool :=
  match k with KDisconnect => false | _ => true end.

Definition is_launch (ev : Event) : bool :=
  match ev with Launch => true | _ => false end.

Definition is_disconnect (ev : Event) : bool :=
  match ev with Disconnect => true | _ => false end.

Definition no_put (k : Kind) : bool :=
  match k with KPut => false | _ => true end.

Definition no_connect (k : Kind) : bool :=
  match k with KConnect => false | _ => true end.

Definition is_put (ev : Event) : bool :=
  match ev with KvPut _ _ _ => true | _ => false end.

Definition is_connect (ev : Event) : bool :=
  match ev with Connect _ => true | _ => false end.

(** Calls to the Browser Service. *)
Definition is_browser_call (ev : Event) : bool :=
  match ev with KvGet _ | KvPut _ _ _ => false | _ => true end.


(** * Properties *)

(** ** The definitions at work *)

Example btoa_sample : Js.btoa "ab>" = "YWI+".
Proof. reflexivity. Qed.

Example btoa_padding : Js.btoa "a" = "YQ==" /\ Js.btoa "ab" = "YWI=".
Proof. split; reflexivity. Qed.

Example computeKey_sample :
  computeKey "https://example.com/" = "html:aHR0cHM6Ly9leGFtcGxlLmNvbS8".
Proof. vm_compute. reflexivity. Qed.

Example null_read_sample :
  null_read (ErrorObj "TypeError: Cannot read properties of null (reading 'goto')") = true /\
  null_read (ErrorObj "Navigation timeout of 15000 ms exceeded") = false /\
  null_read NonError = false.
Proof. repeat split. Qed.

Example isStaticResource_sample :
  isStaticResource "/favicon.ico" = true /\
  isStaticResource "/app/MAIN.CSS" = true /\
  isStaticResource "/static/x" = true /\
  isStaticResource "/render" = false.
Proof. repeat split. Qed.

Example map_set_sample :
  map_set "b" 7%nat [("a", 0%nat); ("b", 1%nat); ("c", 2%nat)] =
    [("a", 0%nat); ("b", 7%nat); ("c", 2%nat)] /\
  map_set "d" 7%nat [("a", 0%nat)] = [("a", 0%nat); ("d", 7%nat)] /\
  map_delete "a" [("a", 0%nat); ("b", 1%nat)] = [("b", 1%nat)].
Proof. repeat split. Qed.

(** The sample registry with [s0] gone from the listing: [s0] is dropped and
    [s1], tracked and free, is handed out marked in use. *)
Example getOptimalSession_sample :
  fst (getOptimalSession Sample.serviceE 5000 Sample.stale_world) = Ok (Some 1%nat) /\
  entries Sample.wE = [("s1", {| sessionId := "s1"; lastUsed := 5000; inUse := true |})] /\
  trace Sample.wE = [Sessions].
Proof. repeat split. Qed.

(** ** The cache key *)

Module KeyFacts.
Import Js.

Lemma code_range c : 0 <= code c < 256.
Proof.
  unfold code. pose proof (N_ascii_bounded c). lia.
Qed.

Lemma chr_code c : chr (code c) = c.
Proof.
  unfold chr, code. rewrite N2Z.id. apply ascii_N_embedding.
Qed.

Lemma in_bytes a : 0 <= a < 256 -> In a bytes.
Proof.
  intros H. unfold bytes. apply in_map_iff. exists (Z.to_nat a).
  split; [lia | apply in_seq; lia].
Qed.

Lemma in_sextets a : 0 <= a < 64 -> In a sextets.
Proof.
  intros H. unfold sextets. apply in_map_iff. exists (Z.to_nat a).
  split; [lia | apply in_seq; lia].
Qed.

Lemma on_bytes (P : Z -> bool) :
  forallb P bytes = true -> forall a, 0 <= a < 256 -> P a = true.
Proof.
  intros H a Ha. rewrite forallb_forall in H. apply H, in_bytes, Ha.
Qed.

Lemma on_bytes2 (P : Z -> Z -> bool) :
  forallb (fun a => forallb (P a) bytes) bytes = true ->
  forall a b, 0 <= a < 256 -> 0 <= b < 256 -> P a b = true.
Proof.
  intros H a b Ha Hb.
  apply (on_bytes (P a)); [|exact Hb].
  apply (on_bytes (fun a => forallb (P a) bytes)); assumption.
Qed.

Lemma b64_index_b64 i : 0 <= i < 64 -> b64_index (b64 i) = i.
Proof.
  intros Hi.
  assert (H : forallb (fun i => b64_index (b64 i) =? i) sextets = true)
    by (vm_compute; reflexivity).
  rewrite forallb_forall in H. apply Z.eqb_eq, H, in_sextets, Hi.
Qed.

Lemma sextet1_range a : 0 <= a < 256 -> 0 <= sextet1 a < 64.
Proof.
  intros Ha.
  assert (H : forallb (fun a => (0 <=? sextet1 a) && (sextet1 a <? 64)) bytes = true)
    by (vm_compute; reflexivity).
  apply on_bytes with (a := a) in H; [lia | exact Ha].
Qed.

Lemma sextet2_range a b : 0 <= a < 256 -> 0 <= b < 256 -> 0 <= sextet2 a b < 64.
Proof.
  intros Ha Hb.
  assert (H : forallb (fun a => forallb (fun b =>
      (0 <=? sextet2 a b) && (sextet2 a b <? 64)) bytes) bytes = true)
    by (vm_compute; reflexivity).
  apply on_bytes2 with (a := a) (b := b) in H; [lia | exact Ha | exact Hb].
Qed.

Lemma sextet3_range b c : 0 <= b < 256 -> 0 <= c < 256 -> 0 <= sextet3 b c < 64.
Proof.
  intros Hb Hc.
  assert (H : forallb (fun b => forallb (fun c =>
      (0 <=? sextet3 b c) && (sextet3 b c <? 64)) bytes) bytes = true)
    by (vm_compute; reflexivity).
  apply on_bytes2 with (a := b) (b := c) in H; [lia | exact Hb | exact Hc].
Qed.

Lemma sextet4_range c : 0 <= c < 256 -> 0 <= sextet4 c < 64.
Proof.
  intros Hc.
  assert (H : forallb (fun c => (0 <=? sextet4 c) && (sextet4 c <? 64)) bytes = true)
    by (vm_compute; reflexivity).
  apply on_bytes with (a := c) in H; [lia | exact Hc].
Qed.

Lemma octet1_sextets a b :
  0 <= a < 256 -> 0 <= b < 256 -> octet1 (sextet1 a) (sextet2 a b) = a.
Proof.
  intros Ha Hb.
  assert (H : forallb (fun a => forallb (fun b =>
      octet1 (sextet1 a) (sextet2 a b) =? a) bytes) bytes = true)
    by (vm_compute; reflexivity).
  apply on_bytes2 with (a := a) (b := b) in H; [lia | exact Ha | exact Hb].
Qed.

Lemma sextet2_low a b :
  0 <= a < 256 -> 0 <= b < 256 -> Z.land (sextet2 a b) 15 = Z.shiftr b 4.
Proof.
  intros Ha Hb.
  assert (H : forallb (fun a => forallb (fun b =>
      Z.land (sextet2 a b) 15 =? Z.shiftr b 4) bytes) bytes = true)
    by (vm_compute; reflexivity).
  apply on_bytes2 with (a := a) (b := b) in H; [lia | exact Ha | exact Hb].
Qed.

Lemma sextet3_high b c :
  0 <= b < 256 -> 0 <= c < 256 -> Z.shiftr (sextet3 b c) 2 = Z.land b 15.
Proof.
  intros Hb Hc.
  assert (H : forallb (fun b => forallb (fun c =>
      Z.shiftr (sextet3 b c) 2 =? Z.land b 15) bytes) bytes = true)
    by (vm_compute; reflexivity).
  apply on_bytes2 with (a := b) (b := c) in H; [lia | exact Hb | exact Hc].
Qed.

Lemma nibbles b : 0 <= b < 256 -> Z.lor (Z.shiftl (Z.shiftr b 4) 4) (Z.land b 15) = b.
Proof.
  intros Hb.
  assert (H : forallb (fun b =>
      Z.lor (Z.shiftl (Z.shiftr b 4) 4) (Z.land b 15) =? b) bytes = true)
    by (vm_compute; reflexivity).
  apply on_bytes with (a := b) in H; [lia | exact Hb].
Qed.

Lemma octet2_sextets a b c :
  0 <= a < 256 -> 0 <= b < 256 -> 0 <= c < 256 ->
  octet2 (sextet2 a b) (sextet3 b c) = b.
Proof.
  intros Ha Hb Hc. unfold octet2.
  rewrite sextet2_low, sextet3_high by assumption. apply nibbles, Hb.
Qed.

Lemma octet3_sextets b c :
  0 <= b < 256 -> 0 <= c < 256 -> octet3 (sextet3 b c) (sextet4 c) = c.
Proof.
  intros Hb Hc.
  assert (H : forallb (fun b => forallb (fun c =>
      octet3 (sextet3 b c) (sextet4 c) =? c) bytes) bytes = true)
    by (vm_compute; reflexivity).
  apply on_bytes2 with (a := b) (b := c) in H; [lia | exact Hb | exact Hc].
Qed.

Lemma b64_kept i :
  0 <= i < 64 ->
  alnum (b64 i) || Ascii.eqb (b64 i) "=" = true -> alnum (b64 i) = true.
Proof.
  intros Hi Hp.
  assert (H : forallb (fun i => negb (Ascii.eqb (b64 i) "=")) sextets = true)
    by (vm_compute; reflexivity).
  rewrite forallb_forall in H. specialize (H i (in_sextets i Hi)).
  destruct (Ascii.eqb (b64 i) "="); [discriminate H|].
  now rewrite orb_false_r in Hp.
Qed.

Lemma string_ind3 (P : string -> Prop) :
  P EmptyString ->
  (forall a, P (String a EmptyString)) ->
  (forall a b, P (String a (String b EmptyString))) ->
  (forall a b c rest, P rest -> P (String a (String b (String c rest)))) ->
  forall s, P s.
Proof.
  intros H0 H1 H2 H3.
  assert (H : forall s, P s /\ (forall a, P (String a s)) /\
                        (forall a b, P (String a (String b s)))).
  { induction s as [|c s (IH0 & IH1 & IH2)].
    - repeat split; auto.
    - repeat split; auto. }
  intros s. apply H.
Qed.

Ltac byte_facts :=
  repeat match goal with
    | c : ascii |- _ =>
        lazymatch goal with
        | _ : 0 <= code c < 256 |- _ => fail
        | _ => pose proof (code_range c)
        end
    end.

(** Stripping an encoding that has no [+] and no [/] only removes the
    padding, and the octets can be read back from what is left. *)
Lemma unpadded_atob_btoa u :
  plain (btoa u) = true -> unpadded_atob (strip_non_alnum (btoa u)) = u.
Proof.
  induction u as [|a|a b|a b c rest IH] using string_ind3; intros Hp.
  - reflexivity.
  - byte_facts. simpl in Hp. apply andb_prop in Hp as [K1 Hp].
    apply andb_prop in Hp as [K2 _].
    apply b64_kept in K1; [|now apply sextet1_range].
    apply b64_kept in K2; [|apply sextet2_range; lia].
    cbn [btoa strip_non_alnum]. rewrite K1, K2.
    change (strip_non_alnum "==") with EmptyString.
    cbn [unpadded_atob].
    rewrite !b64_index_b64 by (try apply sextet1_range; try apply sextet2_range; lia).
    rewrite octet1_sextets by lia. now rewrite chr_code.
  - byte_facts. simpl in Hp. apply andb_prop in Hp as [K1 Hp].
    apply andb_prop in Hp as [K2 Hp]. apply andb_prop in Hp as [K3 _].
    apply b64_kept in K1; [|now apply sextet1_range].
    apply b64_kept in K2; [|now apply sextet2_range].
    apply b64_kept in K3; [|apply sextet3_range; lia].
    cbn [btoa strip_non_alnum]. rewrite K1, K2, K3.
    change (strip_non_alnum "=") with EmptyString.
    cbn [unpadded_atob].
    rewrite !b64_index_b64
      by (try apply sextet1_range; try apply sextet2_range; try apply sextet3_range; lia).
    rewrite octet1_sextets, octet2_sextets by lia. now rewrite !chr_code.
  - byte_facts. cbn [btoa plain] in Hp. apply andb_prop in Hp as [K1 Hp].
    apply andb_prop in Hp as [K2 Hp]. apply andb_prop in Hp as [K3 Hp].
    apply andb_prop in Hp as [K4 Hp].
    apply b64_kept in K1; [|now apply sextet1_range].
    apply b64_kept in K2; [|now apply sextet2_range].
    apply b64_kept in K3; [|now apply sextet3_range].
    apply b64_kept in K4; [|now apply sextet4_range].
    cbn [btoa strip_non_alnum]. rewrite K1, K2, K3, K4.
    cbn [unpadded_atob].
    rewrite !b64_index_b64
      by (try apply sextet1_range; try apply sextet2_range;
          try apply sextet3_range; try apply sextet4_range; lia).
    rewrite octet1_sextets, octet2_sextets, octet3_sextets by lia.
    rewrite !chr_code. now rewrite (IH Hp).
Qed.

End KeyFacts.

Lemma computeKey_eq_inv (u1 u2 : string) :
  Js.plain (Js.btoa u1) = true ->
  Js.plain (Js.btoa u2) = true ->
  computeKey u1 = computeKey u2 ->
  u1 = u2.
Proof.
  intros H1 H2 Hk. unfold computeKey in Hk. simpl in Hk.
  injection Hk as Hk.
  change (Js.strip_non_alnum (Js.btoa u1) = Js.strip_non_alnum (Js.btoa u2)) in Hk.
  rewrite <- (KeyFacts.unpadded_atob_btoa u1 H1), <- (KeyFacts.unpadded_atob_btoa u2 H2).
  now rewrite Hk.
Qed.

(** C3 (as amended). On target URLs whose Base64 encoding contains neither
    [+] nor [/], the cache key is injective: two distinct such URLs never
    get the same key. *)
Theorem computeKey_injective_on_plain (u1 u2 : string) :
  Js.plain (Js.btoa u1) = true ->
  Js.plain (Js.btoa u2) = true ->
  u1 <> u2 ->
  computeKey u1 <> computeKey u2.
Proof.
  intros H1 H2 Hne Hk. apply Hne. now apply computeKey_eq_inv.
Qed.

Lemma computeKey_injective_on_plain_witness :
  Js.plain (Js.btoa "https://example.com/a") = true /\
  Js.plain (Js.btoa "https://example.com/b") = true /\
  "https://example.com/a" <> "https://example.com/b" /\
  computeKey "https://example.com/a" <> computeKey "https://example.com/b".
Proof.
  split; [vm_compute; reflexivity|]. split; [vm_compute; reflexivity|].
  split; [discriminate|].
  apply (computeKey_injective_on_plain "https://example.com/a" "https://example.com/b");
    [vm_compute; reflexivity | vm_compute; reflexivity | discriminate].
Defined.

(** C3 (as stated) fails: two distinct normalised URLs with the same key. The
    encodings differ only in a [+], which the key drops, and in how the
    remaining characters fall into groups of four. *)
Lemma computeKey_collision :
  "https://example.com/~10" <> "https://example.com/LL" /\
  computeKey "https://example.com/~10" = computeKey "https://example.com/LL".
Proof.
  split; [discriminate | vm_compute; reflexivity].
Qed.

(** ** Session acquisition *)

Lemma filter_filter_and {A} (f g : A -> bool) (l : list A) :
  List.filter f (List.filter g l) = List.filter (fun x => g x && f x) l.
Proof.
  induction l as [|x l IH]; [reflexivity|]. cbn [List.filter].
  destruct (g x); cbn [List.filter andb]; [destruct (f x); now rewrite IH | exact IH].
Qed.

Lemma delete_loop_as_filter doomed visited c :
  delete_loop doomed visited c =
  List.filter
    (fun e => negb (existsb (fun v => doomed v && String.eqb (fst e) (fst v)) visited)) c.
Proof.
  revert c. induction visited as [|v visited IH]; intros c.
  - cbn. induction c as [|e c IHc]; [reflexivity|]. cbn. now rewrite <- IHc.
  - change (delete_loop doomed (v :: visited) c)
      with (delete_loop doomed visited (if doomed v then map_delete (fst v) c else c)).
    rewrite IH. cbn [existsb]. destruct (doomed v); cbn [andb orb].
    + unfold map_delete. rewrite filter_filter_and. apply filter_ext.
      intros e. now rewrite negb_orb.
    + reflexivity.
Qed.

Lemma same_key_same_entry (c : list (string * loc)) e v :
  List.NoDup (List.map fst c) -> In e c -> In v c -> fst e = fst v -> e = v.
Proof.
  induction c as [|x c IH]; intros Hnd He Hv Hk; [destruct He|].
  cbn [List.map] in Hnd. apply List.NoDup_cons_iff in Hnd as [Hx Hnd].
  destruct He as [<-|He], Hv as [<-|Hv].
  - reflexivity.
  - exfalso. apply Hx. rewrite Hk. now apply in_map.
  - exfalso. apply Hx. rewrite <- Hk. now apply in_map.
  - now apply IH.
Qed.

(** On a registry with distinct keys the loop of the source, visiting the
    registry itself, is the filter used in [remove_expired] and
    [remove_stale]. *)
Lemma delete_loop_filter doomed c :
  List.NoDup (List.map fst c) ->
  delete_loop doomed c c = List.filter (fun e => negb (doomed e)) c.
Proof.
  intros Hnd. rewrite delete_loop_as_filter. apply filter_ext_in. intros e He.
  f_equal. destruct (doomed e) eqn:Hd.
  - apply existsb_exists. exists e. split; [exact He|].
    now rewrite Hd, String.eqb_refl.
  - destruct (existsb _ c) eqn:Hx; [|reflexivity].
    apply existsb_exists in Hx as (v & Hv & Hx). apply andb_prop in Hx as [Hdv Hk].
    apply String.eqb_eq in Hk.
    rewrite (same_key_same_entry c e v Hnd He Hv Hk) in Hd. congruence.
Qed.

Lemma remove_expired_is_the_loop now w :
  distinct_keys w ->
  sessionCache (remove_expired now w) =
  delete_loop (fun e => expired now (heap w (snd e))) (sessionCache w) (sessionCache w).
Proof.
  intros Hnd. now rewrite delete_loop_filter.
Qed.

Lemma remove_stale_is_the_loop ids w :
  distinct_keys w ->
  sessionCache (remove_stale ids w) =
  delete_loop (fun e => negb (existsb (String.eqb (fst e)) ids))
    (sessionCache w) (sessionCache w).
Proof.
  intros Hnd. rewrite delete_loop_filter by exact Hnd.
  unfold remove_stale. cbn [sessionCache with_sessionCache].
  apply filter_ext. intros e. now rewrite negb_involutive.
Qed.

Lemma filter_keeps_distinct (f : string * loc -> bool) c :
  List.NoDup (List.map fst c) -> List.NoDup (List.map fst (List.filter f c)).
Proof.
  induction c as [|e c IH]; [auto|]. cbn [List.map List.filter].
  intros Hnd. apply List.NoDup_cons_iff in Hnd as [He Hnd].
  destruct (f e); [|now apply IH].
  cbn [List.map]. apply List.NoDup_cons_iff. split; [|now apply IH].
  intros Hin. apply He. apply in_map_iff in Hin as (x & Hx & Hin).
  apply filter_In in Hin as [Hin _]. rewrite <- Hx. now apply in_map.
Qed.

Lemma map_set_keys k r c :
  List.map fst (map_set k r c) =
  if map_has k c then List.map fst c else List.map fst c ++ [k].
Proof.
  unfold map_has. induction c as [|e c IH]; [reflexivity|].
  cbn [map_set existsb]. destruct (String.eqb (fst e) k) eqn:E.
  - apply String.eqb_eq in E. cbn. now rewrite E.
  - cbn [orb List.map]. rewrite IH. now destruct (existsb _ c).
Qed.

Lemma map_set_keeps_distinct k r c :
  List.NoDup (List.map fst c) -> List.NoDup (List.map fst (map_set k r c)).
Proof.
  intros Hnd. rewrite map_set_keys. destruct (map_has k c) eqn:Hh; [exact Hnd|].
  apply List.NoDup_app; [exact Hnd | |].
  - apply List.NoDup_cons; [intros [] | apply List.NoDup_nil].
  - intros x Hx [Heq|[]]. subst x.
    apply in_map_iff in Hx as ([k' r'] & Hk & Hin). cbn in Hk. subst k'.
    unfold map_has in Hh.
    assert (existsb (fun e => String.eqb (fst e) k) c = true); [|congruence].
    apply existsb_exists. exists (k, r'). split; [exact Hin | apply String.eqb_refl].
Qed.

Lemma getOptimalSession_listed endpoint now act w :
  Puppeteer.sessions endpoint = Ok act ->
  getOptimalSession endpoint now w = pick_session act now (reconciled act now w).
Proof.
  intros H. unfold getOptimalSession, reconciled.
  cbv [mbind M_bind mret M_ret try_catch call emit modify settle].
  rewrite H. reflexivity.
Qed.

Lemma getOptimalSession_unlisted endpoint now e w :
  Puppeteer.sessions endpoint = Throw e ->
  getOptimalSession endpoint now w =
  (Ok None, with_trace (trace w ++ [Sessions]) (remove_expired now w)).
Proof.
  intros H. unfold getOptimalSession.
  cbv [mbind M_bind mret M_ret try_catch call emit modify settle].
  rewrite H. reflexivity.
Qed.

Lemma pick_session_eq act now w :
  pick_session act now w =
  match List.find (available act w) (sessionCache w) with
  | Some (_, info) =>
      (Ok (Some info),
       heap_write info (set_lastUsed now (set_inUse true (heap w info)))
         (heap_write info (set_inUse true (heap w info)) w))
  | None =>
      match List.filter (adoptable w) act with
      | sel :: _ =>
          (Ok (Some (heap_next w)),
           with_sessionCache
             (map_set (Puppeteer.sessionId sel) (heap_next w) (sessionCache w))
             (snd (heap_alloc {| sessionId := Puppeteer.sessionId sel;
                                 lastUsed := now; inUse := true |} w)))
      | [] => (Ok None, w)
      end
  end.
Proof.
  unfold pick_session.
  cbv [mbind M_bind mret M_ret gets modify alloc id].
  destruct (List.find _ _) as [[k info]|].
  - cbn. rewrite Nat.eqb_refl. reflexivity.
  - destruct (List.filter _ _); reflexivity.
Qed.

Lemma remove_stale_keys ids w k r :
  In (k, r) (sessionCache (remove_stale ids w)) -> In k ids.
Proof.
  unfold remove_stale. cbn [sessionCache with_sessionCache]. intros H.
  apply filter_In in H as [_ H]. cbn [fst] in H.
  apply existsb_exists in H as (k' & Hin & Heq).
  apply String.eqb_eq in Heq. now subst k'.
Qed.

Lemma map_set_In k r c e : In e (map_set k r c) -> e = (k, r) \/ In e c.
Proof.
  induction c as [|e' c IH]; cbn [map_set].
  - intros [H|[]]; auto.
  - destruct (String.eqb (fst e') k).
    + intros [H|H]; [auto | right; right; exact H].
    + intros [H|H]; [right; left; exact H |].
      destruct (IH H) as [H'|H']; [auto | right; right; exact H'].
Qed.

Lemma map_set_has k r c : In (k, r) (map_set k r c).
Proof.
  induction c as [|e' c IH]; cbn [map_set].
  - now left.
  - destruct (String.eqb (fst e') k); [now left | right; exact IH].
Qed.

Lemma map_has_false k c : map_has k c = false -> forall r, ~ In (k, r) c.
Proof.
  unfold map_has. intros H r Hin.
  assert (existsb (fun e => String.eqb (fst e) k) c = true).
  { apply existsb_exists. exists (k, r). split; [exact Hin | apply String.eqb_refl]. }
  congruence.
Qed.

Lemma adoptable_listed w act sel rest :
  List.filter (adoptable w) act = sel :: rest ->
  In sel act /\
  Js.truthy_opt (Puppeteer.connectionId sel) = false /\
  map_has (Puppeteer.sessionId sel) (sessionCache w) = false.
Proof.
  intros H.
  assert (Hin : In sel (List.filter (adoptable w) act)) by (rewrite H; now left).
  apply filter_In in Hin as [Hin Ha]. unfold adoptable in Ha.
  apply andb_prop in Ha as [Ha Hb].
  repeat split; [exact Hin | |]; now apply negb_true_iff.
Qed.

Lemma available_listed act w k r :
  available act w (k, r) = true ->
  inUse (heap w r) = false /\
  exists a, In a act /\ Puppeteer.sessionId a = k /\
            Js.truthy_opt (Puppeteer.connectionId a) = false.
Proof.
  unfold available. cbn [fst snd]. intros H.
  apply andb_prop in H as [H Hc]. apply andb_prop in H as [Hu _].
  split; [now apply negb_true_iff in Hu|].
  destruct (List.find _ act) as [a|] eqn:Hf; [|discriminate].
  apply find_some in Hf as [Hin Heq]. apply String.eqb_eq in Heq.
  exists a. repeat split; [exact Hin | exact Heq | now apply negb_true_iff in Hc].
Qed.

Lemma reconciled_from k r act now w :
  In (k, r) (sessionCache (reconciled act now w)) -> In (k, r) (sessionCache w).
Proof.
  unfold reconciled, remove_stale, remove_expired.
  cbn [sessionCache with_sessionCache with_trace]. intros Hin.
  apply filter_In in Hin as [Hin _]. apply filter_In in Hin as [Hin _]. exact Hin.
Qed.

(** C4. When the Browser Service answers the listing, [getOptimalSession]
    decides on the registry its two clean-up loops leave, and that registry,
    like the one it returns with, has no entry whose key is absent from the
    listing; where keys are the ids of the objects held, no object left has
    an id absent from the listing. *)
Theorem reconciliation_drops_unlisted endpoint now act w :
  Puppeteer.sessions endpoint = Ok act ->
  getOptimalSession endpoint now w = pick_session act now (reconciled act now w) /\
  (forall k r, In (k, r) (sessionCache (reconciled act now w)) ->
               In k (List.map Puppeteer.sessionId act)) /\
  (keyed w ->
   forall k i, In (k, i) (entries (reconciled act now w)) ->
               In (sessionId i) (List.map Puppeteer.sessionId act)) /\
  (forall k r, In (k, r) (sessionCache (snd (getOptimalSession endpoint now w))) ->
               In k (List.map Puppeteer.sessionId act)).
Proof.
  intros Hs. pose proof (getOptimalSession_listed endpoint now act w Hs) as Hg.
  split; [exact Hg|].
  assert (Hrec : forall k r, In (k, r) (sessionCache (reconciled act now w)) ->
                             In k (List.map Puppeteer.sessionId act)).
  { intros k r. apply remove_stale_keys. }
  split; [exact Hrec|]. split.
  { intros Hk k i Hin. unfold entries in Hin.
    apply in_map_iff in Hin as ([k' r] & Heq & Hin). cbn [fst snd] in Heq.
    injection Heq as -> <-.
    change (heap (reconciled act now w) r) with (heap w r).
    rewrite (Hk k r (reconciled_from _ _ _ _ _ Hin)). now apply (Hrec k r). }
  intros k r. rewrite Hg, pick_session_eq.
  destruct (List.find _ _) as [[k' info]|].
  - cbn [snd sessionCache heap_write]. apply Hrec.
  - destruct (List.filter _ act) as [|sel rest] eqn:Hf.
    + cbn [snd]. apply Hrec.
    + cbn [snd sessionCache with_sessionCache heap_alloc]. intros Hin.
      apply map_set_In in Hin as [Heq|Hin]; [|now apply (Hrec k r)].
      injection Heq as -> _.
      apply adoptable_listed in Hf as (Hin & _). now apply in_map.
Qed.

(** The object [getOptimalSession] returns is one the registry holds. *)
Lemma acquired_is_tracked endpoint now w info w' :
  getOptimalSession endpoint now w = (Ok (Some info), w') ->
  exists k, In (k, info) (sessionCache w').
Proof.
  intros Hg.
  destruct (Puppeteer.sessions endpoint) as [act|err] eqn:Hs;
    [|rewrite (getOptimalSession_unlisted _ _ _ _ Hs) in Hg; discriminate Hg].
  rewrite (getOptimalSession_listed endpoint now act w Hs), pick_session_eq in Hg.
  destruct (List.find _ _) as [[k r]|] eqn:Hfind.
  - injection Hg as -> <-. exists k. now apply find_some in Hfind as [Hin _].
  - destruct (List.filter _ act) as [|sel rest]; [discriminate Hg|].
    injection Hg as <- <-. exists (Puppeteer.sessionId sel). apply map_set_has.
Qed.

(** [getOptimalSession] leaves a registry with distinct keys. *)
Lemma getOptimalSession_keeps_distinct endpoint now w :
  distinct_keys w ->
  distinct_keys (snd (getOptimalSession endpoint now w)).
Proof.
  unfold distinct_keys. intros Hnd.
  destruct (Puppeteer.sessions endpoint) as [act|e] eqn:Hs.
  - rewrite (getOptimalSession_listed _ _ _ _ Hs), pick_session_eq.
    assert (Hrec : List.NoDup (List.map fst (sessionCache (reconciled act now w)))).
    { unfold reconciled, remove_stale, remove_expired.
      cbn [sessionCache with_sessionCache with_trace].
      now apply filter_keeps_distinct, filter_keeps_distinct. }
    destruct (List.find _ _) as [[k info]|]; [exact Hrec|].
    destruct (List.filter _ act) as [|sel rest]; [exact Hrec|].
    cbn [snd sessionCache with_sessionCache heap_alloc].
    now apply map_set_keeps_distinct.
  - rewrite (getOptimalSession_unlisted _ _ _ _ Hs).
    cbn [snd sessionCache with_trace remove_expired with_sessionCache].
    now apply filter_keeps_distinct.
Qed.

Lemma reconciled_keeps k r act now w :
  In (k, r) (sessionCache w) ->
  expired now (heap w r) = false ->
  In k (List.map Puppeteer.sessionId act) ->
  In (k, r) (sessionCache (reconciled act now w)).
Proof.
  intros Hin He Hk. unfold reconciled, remove_stale, remove_expired.
  cbn [sessionCache with_sessionCache with_trace heap].
  apply filter_In. split.
  - apply filter_In. split; [exact Hin|]. cbn [snd]. now rewrite He.
  - cbn [fst]. apply existsb_exists. exists k. split; [exact Hk | apply String.eqb_refl].
Qed.

(** C5. A session [getOptimalSession] returns is held by the registry under
    a key that the listing shows without a connection; the returned object is
    the registry's, marked in use with [lastUsed] set to now. Either it was a
    tracked entry marked free, or its key was untracked once the clean-up
    loops had run (any entry it had was dropped as expired) and no tracked
    entry was available: tracked free sessions come first. *)
Theorem acquired_session_free_then_busy endpoint now w info w' :
  getOptimalSession endpoint now w = (Ok (Some info), w') ->
  exists act k,
    Puppeteer.sessions endpoint = Ok act /\
    In (k, info) (sessionCache w') /\
    inUse (heap w' info) = true /\
    lastUsed (heap w' info) = now /\
    (keyed w -> sessionId (heap w' info) = k) /\
    (exists a, In a act /\ Puppeteer.sessionId a = k /\
               Js.truthy_opt (Puppeteer.connectionId a) = false) /\
    ((In (k, info) (sessionCache (reconciled act now w)) /\
      In (k, info) (sessionCache w) /\
      inUse (heap w info) = false)
     \/
     (map_has k (sessionCache (reconciled act now w)) = false /\
      (forall r, In (k, r) (sessionCache w) -> expired now (heap w r) = true) /\
      forall e, In e (sessionCache (reconciled act now w)) ->
                available act (reconciled act now w) e = false)).
Proof.
  intros Hg.
  destruct (Puppeteer.sessions endpoint) as [act|err] eqn:Hs;
    [|rewrite (getOptimalSession_unlisted _ _ _ _ Hs) in Hg; discriminate Hg].
  exists act.
  rewrite (getOptimalSession_listed endpoint now act w Hs) in Hg.
  rewrite pick_session_eq in Hg.
  set (w2 := reconciled act now w) in *.
  destruct (List.find _ _) as [[k r]|] eqn:Hfind.
  - injection Hg as -> <-. exists k. split; [reflexivity|].
    apply find_some in Hfind as [Hin Hav].
    apply available_listed in Hav as (Hfree & a & Ha).
    assert (Hin0 : In (k, info) (sessionCache w))
      by exact (reconciled_from _ _ _ _ _ Hin).
    split; [exact Hin|]. cbn [heap heap_write]. rewrite Nat.eqb_refl.
    split; [reflexivity|]. split; [reflexivity|].
    split; [intros Hk; cbn; now apply Hk|].
    split; [exists a; exact Ha|].
    left. repeat split; assumption.
  - destruct (List.filter _ act) as [|sel rest] eqn:Hf; [discriminate Hg|].
    injection Hg as <- <-. exists (Puppeteer.sessionId sel). split; [reflexivity|].
    apply adoptable_listed in Hf as (Hin & Hconn & Hnew).
    split; [apply map_set_has|]. cbn [heap with_sessionCache heap_alloc snd].
    rewrite Nat.eqb_refl.
    split; [reflexivity|]. split; [reflexivity|]. split; [reflexivity|].
    split; [exists sel; auto|].
    right. split; [exact Hnew|]. split.
    + intros r Hr. destruct (expired now (heap w r)) eqn:He; [reflexivity|].
      exfalso. apply (map_has_false _ _ Hnew r).
      apply reconciled_keeps; [exact Hr | exact He | now apply in_map].
    + intros e He. now apply (find_none _ _ Hfind).
Qed.

(** ** Which calls a block can make *)

Section Confinement.

Variable allowed : Kind -> bool.

Lemma only_refl w : only allowed w w.
Proof. split; auto. Qed.

Lemma only_trans w1 w2 w3 :
  only allowed w1 w2 -> only allowed w2 w3 -> only allowed w1 w3.
Proof.
  intros [H1 K1] [H2 K2]. split.
  - now rewrite H2.
  - intros H. now rewrite K2, K1.
Qed.

Lemma only_emit w ev :
  allowed (kind ev) = true -> only allowed w (with_trace (trace w ++ [ev]) w).
Proof.
  intros H. split; [|reflexivity].
  unfold others. cbn [trace with_trace]. rewrite List.filter_app. cbn [List.filter].
  rewrite H. cbn [negb]. apply app_nil_r.
Qed.

Lemma only_registry w c n h :
  only allowed w {| sessionCache := c; heap_next := n; heap := h;
                    kv := kv w; trace := trace w |}.
Proof. split; auto. Qed.

Lemma only_put w k :
  allowed KPut = true -> only allowed w (with_kv k w).
Proof. intros H. split; [reflexivity | congruence]. Qed.

Section Blocks.

Context {S : Type} (proj : S -> World).

Lemma confined_ret {A} (a : A) : confined allowed proj (mret a).
Proof. intros s o s' H. injection H as <- <-. apply only_refl. Qed.

Lemma confined_throw {A} e : confined allowed proj (throw e : M S A).
Proof. intros s o s' H. injection H as <- <-. apply only_refl. Qed.

Lemma confined_settle {A} (r : Outcome A) : confined allowed proj (settle r).
Proof. intros s o s' H. injection H as <- <-. apply only_refl. Qed.

Lemma confined_gets {A} (f : S -> A) : confined allowed proj (gets f).
Proof. intros s o s' H. injection H as <- <-. apply only_refl. Qed.

Lemma confined_modify (f : S -> S) :
  (forall s, only allowed (proj s) (proj (f s))) -> confined allowed proj (modify f).
Proof. intros Hf s o s' H. injection H as <- <-. apply Hf. Qed.

Lemma confined_bind {A B} (m : M S A) (f : A -> M S B) :
  confined allowed proj m -> (forall a, confined allowed proj (f a)) ->
  confined allowed proj (m ≫= f).
Proof.
  intros Hm Hf s o s' H. unfold mbind, M_bind in H.
  destruct (m s) as [[a|e] s1] eqn:E.
  - eapply only_trans; [eapply Hm, E | eapply Hf, H].
  - injection H as <- <-. eapply Hm, E.
Qed.

Lemma confined_try_catch {A} (m : M S A) (h : Thrown -> M S A) :
  confined allowed proj m -> (forall e, confined allowed proj (h e)) ->
  confined allowed proj (try_catch m h).
Proof.
  intros Hm Hh s o s' H. unfold try_catch in H.
  destruct (m s) as [[a|e] s1] eqn:E.
  - injection H as <- <-. eapply Hm, E.
  - eapply only_trans; [eapply Hm, E | eapply Hh, H].
Qed.

End Blocks.

Lemma confined_lift {A} (m : M World A) :
  confined allowed id m -> confined allowed global (lift m).
Proof.
  intros Hm s o s' H. unfold lift in H.
  destruct (m (global s)) as [o1 w1] eqn:E. injection H as <- <-.
  cbn [global]. apply (Hm _ _ _ E).
Qed.

Lemma confined_run_scoped {A} (m : M Scope A) :
  confined allowed global m -> confined allowed id (run_scoped m).
Proof.
  intros Hm w o w' H. unfold run_scoped in H.
  destruct (m (enter w)) as [o1 s1] eqn:E. injection H as <- <-.
  apply (Hm _ _ _ E).
Qed.

Lemma confined_emit ev :
  allowed (kind ev) = true -> confined allowed id (emit ev).
Proof. intros H. apply confined_modify. intros w. now apply only_emit. Qed.

Lemma confined_call {A} ev (r : Outcome A) :
  allowed (kind ev) = true -> confined allowed id (call ev r).
Proof.
  intros H. apply confined_bind; [now apply confined_emit|].
  intros _. apply confined_settle.
Qed.

Lemma confined_call_void ev f :
  allowed (kind ev) = true -> confined allowed id (call_void ev f).
Proof.
  intros H. apply confined_bind; [now apply confined_emit|].
  intros _. destruct f; [apply confined_throw | apply confined_ret].
Qed.

Lemma confined_registry (f : World -> World) :
  (forall w, kv (f w) = kv w /\ trace (f w) = trace w) ->
  confined allowed id (modify f).
Proof.
  intros Hf. apply confined_modify. intros w. destruct (Hf w) as [Hk Ht].
  unfold id. split; [now rewrite Ht | now rewrite Hk].
Qed.

Lemma confined_alloc v : confined allowed id (alloc v).
Proof.
  intros w o w' H. unfold alloc, heap_alloc in H. injection H as <- <-.
  apply only_registry.
Qed.

Ltac registry_step := apply confined_registry; intros ?; split; reflexivity.

Ltac confine :=
  repeat first
    [ progress intros
    | apply confined_bind
    | apply confined_try_catch
    | apply confined_lift
    | apply confined_ret
    | apply confined_throw
    | apply confined_gets
    | apply confined_settle
    | apply confined_alloc
    | registry_step
    | apply confined_call; assumption
    | apply confined_call_void; assumption
    | match goal with
      | |- confined _ _ (match ?x with _ => _ end) => destruct x
      | |- confined _ _ (if ?x then _ else _) => destruct x
      end ].

Lemma confined_pick_session act now : confined allowed id (pick_session act now).
Proof. unfold pick_session. confine. Qed.

Lemma confined_getOptimalSession endpoint now :
  allowed KList = true -> confined allowed id (getOptimalSession endpoint now).
Proof.
  intros HL. unfold getOptimalSession.
  assert (allowed (kind Sessions) = true) by exact HL.
  confine.
Qed.

Lemma confined_cache_lookup env key :
  allowed KGet = true -> confined allowed id (cache_lookup env key).
Proof.
  intros HG. unfold cache_lookup, kv_get.
  assert (allowed (kind (KvGet key)) = true) by exact HG.
  confine.
Qed.

Lemma confined_cache_store env key html :
  allowed KPut = true -> confined allowed id (cache_store env key html).
Proof.
  intros HP. unfold cache_store, kv_put.
  assert (allowed (kind (KvPut key html 3600)) = true) by exact HP.
  confine. apply confined_modify. intros w. now apply only_put.
Qed.

Lemma confined_launch_new endpoint :
  allowed KLaunch = true -> confined allowed global (launch_new endpoint).
Proof.
  intros HL. unfold launch_new, assign_browser, assign_launched.
  assert (allowed (kind Launch) = true) by exact HL.
  confine; apply confined_modify; intros s; apply only_refl.
Qed.

Lemma confined_obtain_browser env clock :
  allowed KList = true -> allowed KConnect = true -> allowed KLaunch = true ->
  confined allowed global (obtain_browser env clock).
Proof.
  intros HL HC HN. unfold obtain_browser, assign_browser, assign_sessionInfo, cache_delete.
  apply confined_bind; [apply confined_lift, confined_getOptimalSession, HL|].
  intros found. apply confined_bind; [apply confined_modify; intros s; apply only_refl|].
  intros _. destruct found as [info|]; [|now apply confined_launch_new].
  apply confined_bind; [confine|]. intros sid.
  assert (allowed (kind (Connect sid)) = true) by exact HC.
  apply confined_try_catch.
  - confine. apply confined_modify; intros s; apply only_refl.
  - intros e. apply confined_bind; [confine|]. intros _.
    apply confined_bind; [apply confined_modify; intros s; apply only_refl|].
    intros _. now apply confined_launch_new.
Qed.

Lemma confined_render env b reqUrl :
  allowed KPage = true -> confined allowed id (render env b reqUrl).
Proof.
  intros HP. unfold render.
  assert (forall ev, kind ev = KPage -> allowed (kind ev) = true) as Hk
    by (intros ev ->; exact HP).
  pose proof (Hk NewPage eq_refl). pose proof (Hk (SetUserAgent (userAgent env)) eq_refl).
  pose proof (Hk SetRequestInterception eq_refl). pose proof (Hk (Goto reqUrl 15000) eq_refl).
  pose proof (Hk Content eq_refl). pose proof (Hk PageClose eq_refl).
  confine.
Qed.

Lemma confined_hand_back clock b :
  allowed KDisconnect = true -> confined allowed global (hand_back clock b).
Proof.
  intros HD. unfold hand_back, cache_set.
  assert (allowed (kind Disconnect) = true) by exact HD.
  confine.
Qed.

Lemma confined_recover clock reqUrl error :
  allowed KDisconnect = true -> confined allowed global (recover clock reqUrl error).
Proof.
  intros HD. unfold recover, cache_delete.
  assert (allowed (kind Disconnect) = true) by exact HD.
  confine.
Qed.

Lemma confined_carry_on env clock reqUrl cacheKey b :
  allowed KPage = true -> allowed KDisconnect = true -> allowed KPut = true ->
  confined allowed global (carry_on env clock reqUrl cacheKey b).
Proof.
  intros HP HD HS. unfold carry_on.
  apply confined_bind; [apply confined_lift, confined_render, HP|].
  intros html. apply confined_bind; [apply confined_hand_back, HD|].
  intros _. apply confined_bind; [apply confined_lift, confined_cache_store, HS|].
  intros _. apply confined_ret.
Qed.

End Confinement.

(** ** The request handler *)

Lemma bind_eq {S A B} (m : M S A) (f : A -> M S B) s :
  (m ≫= f) s =
  match m s with
  | (Ok a, s') => f a s'
  | (Throw e, s') => (Throw e, s')
  end.
Proof. reflexivity. Qed.

Lemma cache_lookup_returns env key w :
  exists hit w', cache_lookup env key w = (Ok hit, w').
Proof.
  unfold cache_lookup. destruct (HTML_CACHE env) as [ns|]; [|eauto].
  unfold try_catch, kv_get, call_void. rewrite !bind_eq. cbn.
  destruct (get_fault ns); cbn; [eauto|].
  destruct (Js.truthy_opt _); eauto.
Qed.

Lemma cache_store_returns env key html w :
  exists w', cache_store env key html w = (Ok tt, w').
Proof.
  unfold cache_store. destruct (HTML_CACHE env) as [ns|]; [|eauto].
  unfold try_catch, kv_put, call_void. rewrite !bind_eq. cbn.
  destruct (put_fault ns); cbn; eauto.
Qed.

Lemma recover_returns clock reqUrl error s :
  exists s', recover clock reqUrl error s =
             (Ok (fault_response error reqUrl (now_iso clock)), s').
Proof.
  unfold recover. rewrite bind_eq. cbn [gets id].
  destruct (browser s) as [b|]; [|eauto].
  rewrite bind_eq. unfold try_catch. rewrite bind_eq.
  destruct (sessionInfo s) as [info|].
  - destruct (null_read error).
    + cbn. destruct (launched s); cbn; [|eauto].
      destruct (Puppeteer.disconnect b); cbn; eauto.
    + cbn. destruct (launched s); cbn; [|eauto].
      destruct (Puppeteer.disconnect b); cbn; eauto.
  - cbn. destruct (launched s); cbn; [|eauto].
    destruct (Puppeteer.disconnect b); cbn; eauto.
Qed.


Lemma handle_miss_returns env clock reqUrl cacheKey w :
  exists resp w', handle_miss env clock reqUrl cacheKey w = (Ok resp, w').
Proof.
  unfold handle_miss, run_scoped, try_catch.
  destruct (attempt env clock reqUrl cacheKey (enter w)) as [[r|e] s1]; [eauto|].
  destruct (recover_returns clock reqUrl e s1) as [s' ->]. eauto.
Qed.

Lemma getOptimalSession_returns endpoint now w :
  exists found w', getOptimalSession endpoint now w = (Ok found, w').
Proof.
  destruct (Puppeteer.sessions endpoint) as [act|e] eqn:Hs.
  - rewrite (getOptimalSession_listed _ _ _ _ Hs), pick_session_eq.
    destruct (List.find _ _) as [[k info]|]; [eauto|].
    destruct (List.filter _ act); eauto.
  - rewrite (getOptimalSession_unlisted _ _ _ _ Hs). eauto.
Qed.

Lemma launch_new_ok endpoint b s :
  Puppeteer.launch endpoint = Ok b ->
  launch_new endpoint s =
  (Ok b, {| browser := Some b; launched := true; sessionInfo := sessionInfo s;
            global := with_trace (trace (global s) ++ [Launch]) (global s) |}).
Proof.
  intros H. unfold launch_new, lift, call. rewrite !bind_eq. cbn. rewrite H. reflexivity.
Qed.

Lemma obtain_browser_none env clock w w1 :
  getOptimalSession (MYBROWSER env) (now_acquire clock) w = (Ok None, w1) ->
  obtain_browser env clock (enter w) = launch_new (MYBROWSER env) (enter w1).
Proof.
  intros H. unfold obtain_browser. rewrite bind_eq. unfold lift at 1.
  cbn [global enter]. rewrite H. reflexivity.
Qed.

Lemma obtain_browser_connected env clock w w1 info b :
  getOptimalSession (MYBROWSER env) (now_acquire clock) w = (Ok (Some info), w1) ->
  Puppeteer.connect (MYBROWSER env) (sessionId (heap w1 info)) = Ok b ->
  obtain_browser env clock (enter w) =
  (Ok b, {| browser := Some b; launched := false; sessionInfo := Some info;
            global := with_trace (trace w1 ++ [Connect (sessionId (heap w1 info))]) w1 |}).
Proof.
  intros H Hc. unfold obtain_browser. rewrite bind_eq. unfold lift at 1.
  cbn [global enter]. rewrite H. rewrite bind_eq. cbn [assign_sessionInfo modify].
  rewrite bind_eq. cbn [lift gets global]. unfold try_catch. rewrite bind_eq.
  unfold lift, call. rewrite bind_eq. cbn [global emit modify settle with_trace trace].
  rewrite Hc. reflexivity.
Qed.

Lemma obtain_browser_refused env clock w w1 info ce :
  getOptimalSession (MYBROWSER env) (now_acquire clock) w = (Ok (Some info), w1) ->
  Puppeteer.connect (MYBROWSER env) (sessionId (heap w1 info)) = Throw ce ->
  obtain_browser env clock (enter w) =
  launch_new (MYBROWSER env)
    (enter (with_sessionCache
              (map_delete (sessionId (heap w1 info)) (sessionCache w1))
              (with_trace (trace w1 ++ [Connect (sessionId (heap w1 info))]) w1))).
Proof.
  intros H Hc. unfold obtain_browser. rewrite bind_eq. unfold lift at 1.
  cbn [global enter]. rewrite H. rewrite bind_eq. cbn [assign_sessionInfo modify].
  rewrite bind_eq. cbn [lift gets global]. unfold try_catch. rewrite bind_eq.
  unfold lift at 1, call. rewrite bind_eq. cbn [global emit modify settle with_trace trace].
  rewrite Hc. reflexivity.
Qed.

(** Rendering only adds to the trace. *)
Lemma render_touches_trace_only env b reqUrl w o w' :
  render env b reqUrl w = (o, w') -> w' = with_trace (trace w') w.
Proof.
  unfold render, call, call_void. rewrite !bind_eq. cbn.
  destruct (Puppeteer.newPage b) as [page|e]; [|intros H; injection H as _ <-; reflexivity].
  cbn. destruct (Puppeteer.setUserAgent page); cbn;
    [intros H; injection H as _ <-; reflexivity|].
  destruct (Puppeteer.setRequestInterception page); cbn;
    [intros H; injection H as _ <-; reflexivity|].
  destruct (Puppeteer.goto page); cbn; [|intros H; injection H as _ <-; reflexivity].
  destruct (Puppeteer.content page); cbn; [|intros H; injection H as _ <-; reflexivity].
  destruct (Puppeteer.close page); cbn; intros H; injection H as _ <-; reflexivity.
Qed.

Lemma map_delete_has k c : map_has k (map_delete k c) = false.
Proof.
  unfold map_has, map_delete. induction c as [|e c IH]; [reflexivity|].
  cbn [List.filter]. destruct (String.eqb (fst e) k) eqn:E; cbn [negb]; [exact IH|].
  cbn [existsb]. now rewrite E.
Qed.

Lemma hand_back_launched clock b s :
  launched s = true ->
  Puppeteer.disconnect b = None ->
  exists w', hand_back clock b s =
             (Ok tt, {| browser := browser s; launched := launched s;
                        sessionInfo := sessionInfo s; global := w' |}).
Proof.
  intros Hl Hd. unfold hand_back. rewrite bind_eq. cbn [gets id]. rewrite Hl.
  rewrite bind_eq.
  destruct (Puppeteer.browser_sessionId b) as [[|c sid]|]; cbn;
    rewrite Hd; unfold lift, call_void, cache_set, alloc; rewrite ?bind_eq; cbn;
    rewrite ?Hl; eexists; reflexivity.
Qed.

Ltac run_monad :=
  cbv [try_catch launch_new carry_on recover hand_back render lift call call_void
       cache_store cache_set cache_delete kv_put kv_get alloc heap_alloc
       assign_browser assign_launched assign_sessionInfo
       mbind M_bind mret M_ret modify emit settle throw gets id enter
       global browser launched sessionInfo].

(** Once the handler has fallen back to launching, the only key it can add
    to the registry is the id of the browser it launched. *)
Lemma after_launch_registry env clock reqUrl key w o s' :
  try_catch (launch_new (MYBROWSER env) ≫= carry_on env clock reqUrl key)
            (recover clock reqUrl) (enter w) = (o, s') ->
  forall k r, In (k, r) (sessionCache (global s')) ->
    In (k, r) (sessionCache w) \/
    exists b, Puppeteer.launch (MYBROWSER env) = Ok b /\
              Puppeteer.browser_sessionId b = Some k.
Proof.
  run_monad.
  destruct (Puppeteer.launch (MYBROWSER env)) as [b|e] eqn:Hb.
  2:{ intros H. injection H as _ <-. cbn. auto. }
  destruct (Puppeteer.newPage b) as [page|e].
  2:{ destruct (Puppeteer.disconnect b); intros H; injection H as _ <-; cbn; auto. }
  repeat match goal with
  | |- context [match ?x with _ => _ end] =>
      lazymatch x with
      | Puppeteer.setUserAgent _ => destruct x
      | Puppeteer.setRequestInterception _ => destruct x
      | Puppeteer.goto _ => destruct x
      | Puppeteer.content _ => destruct x
      | Puppeteer.close _ => destruct x
      | Puppeteer.disconnect _ => destruct x
      | HTML_CACHE _ => destruct x
      | put_fault _ => destruct x
      | Puppeteer.browser_sessionId _ => destruct x as [[|? ?]|] eqn:Hid
      end; cbn [null_read Js.truthy]
  end.
  all: intros H; injection H as _ <-; cbn; auto.
  all: intros k0 r0 Hin; apply map_set_In in Hin as [Heq|Hin]; [|now left].
  all: injection Heq as Hk _; subst k0; right; exists b; split; [reflexivity | exact Hid].
Qed.

(** The calls of a rendering are calls on the page. *)
Lemma render_trace env b reqUrl w o w' :
  render env b reqUrl w = (o, w') ->
  exists evs, trace w' = trace w ++ evs /\ List.Forall (fun ev => kind ev = KPage) evs.
Proof.
  unfold render, call, call_void. rewrite !bind_eq. cbn.
  assert (Hshape : forall (l : list Event) (t : list Event),
            List.Forall (fun ev => kind ev = KPage) l ->
            t = trace w ++ l ->
            exists evs, t = trace w ++ evs /\ List.Forall (fun ev => kind ev = KPage) evs)
    by (intros l t Hl ->; now exists l).
  destruct (Puppeteer.newPage b) as [page|e]; cbn.
  2:{ intros H. injection H as _ <-. cbn [trace].
      apply (Hshape [NewPage]); [repeat constructor|reflexivity]. }
  destruct (Puppeteer.setUserAgent page); cbn.
  { intros H. injection H as _ <-. cbn [trace]. rewrite <- !app_assoc.
    eapply Hshape; [|reflexivity]. repeat constructor. }
  destruct (Puppeteer.setRequestInterception page); cbn.
  { intros H. injection H as _ <-. cbn [trace]. rewrite <- !app_assoc.
    eapply Hshape; [|reflexivity]. repeat constructor. }
  destruct (Puppeteer.goto page); cbn.
  2:{ intros H. injection H as _ <-. cbn [trace]. rewrite <- !app_assoc.
      eapply Hshape; [|reflexivity]. repeat constructor. }
  destruct (Puppeteer.content page); cbn.
  2:{ intros H. injection H as _ <-. cbn [trace]. rewrite <- !app_assoc.
      eapply Hshape; [|reflexivity]. repeat constructor. }
  destruct (Puppeteer.close page); cbn; intros H; injection H as _ <-; cbn [trace];
    rewrite <- !app_assoc; (eapply Hshape; [|reflexivity]); repeat constructor.
Qed.

Lemma page_calls_are_late (evs : list Event) :
  List.Forall (fun ev => kind ev = KPage) evs ->
  List.Forall (fun ev => In (kind ev) [KPage; KDisconnect; KPut]) evs.
Proof.
  intros H. eapply List.Forall_impl; [|exact H]. cbn. intros ev ->. now left.
Qed.

(** Once the handler has fallen back to launching: the launch is the next
    call, only calls on the page, disconnects and puts follow it, and the
    answer and the world left are those of the launch and of the rendering
    on the launched browser. *)
Lemma provisioning_outcome env clock reqUrl key w0 w2 :
  obtain_browser env clock (enter w0) = launch_new (MYBROWSER env) (enter w2) ->
  exists resp w' evs,
    handle_miss env clock reqUrl key w0 = (Ok resp, w') /\
    trace w' = trace w2 ++ Launch :: evs /\
    List.Forall (fun ev => In (kind ev) [KPage; KDisconnect; KPut]) evs /\
    (forall e, Puppeteer.launch (MYBROWSER env) = Throw e ->
       resp = fault_response e reqUrl (now_iso clock) /\
       w' = with_trace (trace w2 ++ [Launch]) w2) /\
    (forall b error w3,
       Puppeteer.launch (MYBROWSER env) = Ok b ->
       render env b reqUrl (with_trace (trace w2 ++ [Launch]) w2) = (Throw error, w3) ->
       resp = fault_response error reqUrl (now_iso clock) /\
       w' = with_trace (trace w3 ++ [Disconnect]) w3) /\
    (forall b html w3 de,
       Puppeteer.launch (MYBROWSER env) = Ok b ->
       render env b reqUrl (with_trace (trace w2 ++ [Launch]) w2) = (Ok html, w3) ->
       Puppeteer.disconnect b = Some de ->
       resp = fault_response de reqUrl (now_iso clock)) /\
    (forall b html w3,
       Puppeteer.launch (MYBROWSER env) = Ok b ->
       render env b reqUrl (with_trace (trace w2 ++ [Launch]) w2) = (Ok html, w3) ->
       Puppeteer.disconnect b = None ->
       resp = html_response html /\
       sessionCache w' =
         match Puppeteer.browser_sessionId b with
         | Some sid => if Js.truthy sid
                       then map_set sid (heap_next w2) (sessionCache w2)
                       else sessionCache w2
         | None => sessionCache w2
         end /\
       (forall sid, Puppeteer.browser_sessionId b = Some sid -> Js.truthy sid = true ->
          heap w' (heap_next w2) =
            {| sessionId := sid; lastUsed := now_release clock; inUse := false |}) /\
       List.filter is_disconnect evs = [Disconnect] /\
       List.filter is_put evs =
         match HTML_CACHE env with
         | Some _ => [KvPut key html 3600]
         | None => []
         end).
Proof.
  intros Ho. unfold handle_miss, run_scoped, try_catch, attempt. rewrite bind_eq, Ho.
  destruct (Puppeteer.launch (MYBROWSER env)) as [b|e] eqn:Hb.
  2:{ unfold launch_new, lift, call. rewrite !bind_eq. cbn. rewrite Hb. cbn.
      eexists _, _, []. split; [reflexivity|]. split; [reflexivity|].
      split; [constructor|]. split; [|split; [|split]].
      - intros e' He. injection He as <-. split; reflexivity.
      - intros b error w3 Hb'. discriminate Hb'.
      - intros b html w3 de Hb'. discriminate Hb'.
      - intros b html w3 Hb'. discriminate Hb'. }
  rewrite (launch_new_ok _ _ _ Hb). unfold carry_on. rewrite bind_eq.
  unfold lift at 1. cbn [global enter].
  destruct (render env b reqUrl (with_trace (trace w2 ++ [Launch]) w2))
    as [[html|error] w3] eqn:Hr;
    destruct (render_trace _ _ _ _ _ _ Hr) as (revs & Htr & Hpage0);
    pose proof (page_calls_are_late _ Hpage0) as Hpage;
    pose proof (render_touches_trace_only _ _ _ _ _ _ Hr) as Hw3;
    cbn [trace with_trace] in Htr.
  2:{ exists (fault_response error reqUrl (now_iso clock)),
             (with_trace (trace w3 ++ [Disconnect]) w3), (revs ++ [Disconnect]).
      split; [run_monad; destruct (Puppeteer.disconnect b); reflexivity|].
      split; [cbn [trace with_trace]; rewrite Htr, <- !app_assoc; reflexivity|].
      split; [apply List.Forall_app; split;
               [exact Hpage|apply List.Forall_cons; [cbn; auto|constructor]]|].
      split; [intros e' He; discriminate He|]. split; [|split].
      - intros b' error' w3' Hb' Hr'. injection Hb' as Hbb. subst b'. rewrite Hr in Hr'.
        injection Hr' as <- <-. split; reflexivity.
      - intros b' html' w3' de Hb' Hr'. injection Hb' as Hbb. subst b'. rewrite Hr in Hr'.
        discriminate Hr'.
      - intros b' html' w3' Hb' Hr'. injection Hb' as Hbb. subst b'. rewrite Hr in Hr'.
        discriminate Hr'. }
  assert (Hnd : List.filter is_disconnect revs = [] /\ List.filter is_put revs = []).
  { clear -Hpage0. induction Hpage0 as [|ev l Hev _ [IH1 IH2]]; [split; reflexivity|].
    cbn [List.filter]. rewrite IH1, IH2. destruct ev; try discriminate Hev; split; reflexivity. }
  destruct Hnd as [Hnd Hnp].
  assert (Hsc : sessionCache w3 = sessionCache w2) by (rewrite Hw3; reflexivity).
  assert (Hhn : heap_next w3 = heap_next w2) by (rewrite Hw3; reflexivity).
  destruct (Puppeteer.browser_sessionId b) as [[|c sid]|] eqn:Hid;
    destruct (Puppeteer.disconnect b) as [de|] eqn:Hd;
    destruct (HTML_CACHE env) as [ns|] eqn:Hc;
    try destruct (put_fault ns) as [pe|] eqn:Hp.
  all: eexists _, _, _.
  all: split; [run_monad;
               repeat progress (rewrite ?Hid, ?Hd, ?Hc, ?Hp; cbn [Js.truthy]);
               reflexivity|].
  all: split; [cbn [trace with_trace with_kv with_sessionCache];
               rewrite Htr, <- !app_assoc; reflexivity|].
  all: split;
    [repeat (apply List.Forall_app; split); try exact Hpage;
     repeat (apply List.Forall_cons; [cbn; auto|]); constructor|].
  all: split; [intros e' He; discriminate He|].
  all: split; [intros b' error' w3' Hb' Hr'; injection Hb' as Hbb; subst b';
               rewrite Hr in Hr'; discriminate Hr'|].
  all: split; [intros b' html' w3' de' Hb' Hr' Hd'; injection Hb' as Hbb; subst b';
               rewrite ?Hd in Hd'; try discriminate Hd'; injection Hd' as <-;
               reflexivity|].
  all: intros b' html' w3' Hb' Hr' Hd'; injection Hb' as Hbb; subst b';
    rewrite Hr in Hr'; injection Hr' as <- <-;
    rewrite ?Hd in Hd'; try discriminate Hd'.
  all: split; [reflexivity|].
  all: rewrite ?Hid; cbn [Js.truthy].
  all: split; [cbn [sessionCache with_trace with_kv with_sessionCache];
               rewrite ?Hhn, ?Hsc; reflexivity|].
  all: split;
    [intros sid' Hs Ht; try discriminate Hs; injection Hs as <-;
     try (cbn in Ht; discriminate Ht);
     cbn [heap with_trace with_kv with_sessionCache]; rewrite ?Hhn, Nat.eqb_refl; reflexivity|].
  all: rewrite !List.filter_app, Hnd, Hnp; split; reflexivity.
Qed.
(** The status of the navigation response has no part in rendering: two
    pages that differ only in it render alike. *)
Lemma render_ignores_status env b reqUrl page status status' w :
  Puppeteer.newPage b = Ok page ->
  Puppeteer.goto page = Ok status ->
  render env b reqUrl w =
  render env
    {| Puppeteer.browser_sessionId := Puppeteer.browser_sessionId b;
       Puppeteer.newPage :=
         Ok {| Puppeteer.setUserAgent := Puppeteer.setUserAgent page;
               Puppeteer.setRequestInterception := Puppeteer.setRequestInterception page;
               Puppeteer.goto := Ok status';
               Puppeteer.content := Puppeteer.content page;
               Puppeteer.close := Puppeteer.close page |};
       Puppeteer.disconnect := Puppeteer.disconnect b |}
    reqUrl w.
Proof.
  intros Hp Hg. unfold render, call, call_void. rewrite !bind_eq.
  cbn. rewrite Hp. cbn.
  destruct (Puppeteer.setUserAgent page); cbn; [reflexivity|].
  destruct (Puppeteer.setRequestInterception page); cbn; [reflexivity|].
  rewrite Hg. reflexivity.
Qed.

(** The older handler turns a status of 400 or more into a fault. *)
Lemma legacy_load_rejects_status page status :
  Puppeteer.goto page = Ok (Some status) ->
  400 <= status ->
  Legacy.load page =
  Throw (ErrorObj ("Failed to load page: " +:+ Legacy.number_to_string status)).
Proof.
  intros Hg Hs. unfold Legacy.load. rewrite Hg.
  destruct (status >=? 400) eqn:E; [reflexivity | lia].
Qed.

Lemma legacy_load_rejects_404 :
  Legacy.load (Sample.page (Some 404) Sample.not_found) =
    Throw (ErrorObj "Failed to load page: 404") /\
  Legacy.fault_response (ErrorObj "Failed to load page: 404") Sample.url true "s9" =
    {| status := 500;
       body := BodyJson [("success", JBool false);
                         ("error", JString "Failed to load page: 404");
                         ("url", JString Sample.url);
                         ("sessionInfo", JString "Launched s9")];
       headers := json_headers |}.
Proof. split; reflexivity. Qed.

Section WorkerFacts.

Variable decodeURIComponent : string -> option string.
Variable URL_toString : string -> option string.

#[local] Abbreviation worker := (fetch decodeURIComponent URL_toString).
#[local] Abbreviation aims := (targets decodeURIComponent URL_toString).
#[local] Abbreviation normal := (normalize decodeURIComponent URL_toString).

Lemma fetch_target request env clock reqUrl w :
  aims request reqUrl ->
  worker request env clock w =
  match cache_lookup env (computeKey reqUrl) w with
  | (Ok (Some cached), w0) => (Ok (cache_hit_response cached), w0)
  | (Ok None, w0) => handle_miss env clock reqUrl (computeKey reqUrl) w0
  | (Throw e, w0) => (Throw e, w0)
  end.
Proof.
  intros (Hm & Hp & Ht & Hn). unfold fetch. rewrite Hm, Hp.
  cbn [String.eqb Ascii.eqb Bool.eqb andb String.length]. rewrite Ht, Hn. cbn [negb].
  rewrite bind_eq. destruct (cache_lookup _ _ _) as [[[c|]|e] w0]; reflexivity.
Qed.

Lemma fetch_returns request env clock w :
  exists resp w', worker request env clock w = (Ok resp, w').
Proof.
  unfold fetch.
  destruct (String.eqb (method request) "OPTIONS"); [eauto|].
  destruct (_ && _).
  - destruct (negb _); [eauto|].
    destruct (normalize _ _ _) as [reqUrl|]; [|eauto].
    rewrite bind_eq.
    destruct (cache_lookup_returns env (computeKey reqUrl) w) as (hit & w0 & ->).
    destruct hit; [eauto|]. apply handle_miss_returns.
  - destruct (_ && _); eauto.
Qed.

(** C9. A [GET /content/{target}] whose target does not decode and parse as
    a URL is answered 400 with error "Invalid URL format", and the handler
    touches nothing on the way: no cache lookup, no listing, no connect, no
    launch, and the registry is as it was. *)
Theorem unparsable_target_is_rejected request env clock w :
  method request = "GET" ->
  Js.startsWith "/content/" (pathname request) = true ->
  Js.truthy (Js.substring 9 (pathname request)) = true ->
  normal (Js.substring 9 (pathname request)) = None ->
  worker request env clock w =
  (Ok {| status := 400;
         body := BodyJson [("success", JBool false);
                           ("error", JString "Invalid URL format")];
         headers := json_headers |}, w).
Proof.
  intros Hm Hp Ht Hn. unfold fetch. rewrite Hm, Hp.
  cbn [String.eqb Ascii.eqb Bool.eqb andb String.length]. rewrite Ht, Hn.
  reflexivity.
Qed.

(** C7 (as amended). When the Content Store answers the lookup for the
    target's key with a non-empty payload, the handler returns that payload
    and its only call to the outside is that lookup: no listing, no connect,
    no launch, no navigation, and the registry is as it was. *)
Theorem cached_payload_short_circuits request env clock reqUrl ns cached w :
  aims request reqUrl ->
  HTML_CACHE env = Some ns ->
  get_fault ns = None ->
  kv w !! computeKey reqUrl = Some cached ->
  cached <> "" ->
  worker request env clock w =
  (Ok {| status := 200; body := BodyText cached;
         headers := [("content-type", "text/html;charset=UTF-8");
                     ("access-control-allow-origin", "*");
                     ("cache-control", "public, max-age=3600")] |},
   with_trace (trace w ++ [KvGet (computeKey reqUrl)]) w) /\
  List.filter is_browser_call (trace w ++ [KvGet (computeKey reqUrl)]) =
  List.filter is_browser_call (trace w).
Proof.
  intros Ha Hc Hg Hk Hne. split.
  - rewrite (fetch_target _ _ _ _ _ Ha).
    unfold cache_lookup. rewrite Hc. unfold try_catch, kv_get, call_void.
    rewrite !bind_eq. rewrite Hg. cbn. rewrite Hk.
    destruct cached; [congruence | reflexivity].
  - rewrite List.filter_app. cbn. apply app_nil_r.
Qed.

Lemma others_no_put t : others no_put t = List.filter is_put t.
Proof.
  unfold others. induction t as [|ev t IH]; [reflexivity|].
  cbn [List.filter]. rewrite IH. now destruct ev.
Qed.

Lemma attempt_throws_before_put env clock reqUrl cacheKey s e s' :
  attempt env clock reqUrl cacheKey s = (Throw e, s') ->
  only no_put (global s) (global s').
Proof.
  unfold attempt. rewrite bind_eq.
  destruct (obtain_browser env clock s) as [[b|e1] s1] eqn:E1.
  - pose proof (confined_obtain_browser no_put env clock eq_refl eq_refl eq_refl _ _ _ E1) as H1.
    unfold carry_on. rewrite bind_eq.
    destruct (lift (render env b reqUrl) s1) as [[html|e2] s2] eqn:E2.
    + pose proof (confined_lift no_put _ (confined_render no_put env b reqUrl eq_refl) _ _ _ E2) as H2.
      rewrite bind_eq.
      destruct (hand_back clock b s2) as [[[]|e3] s3] eqn:E3.
      * rewrite bind_eq. unfold lift.
        destruct (cache_store_returns env cacheKey html (global s3)) as [w4 ->].
        discriminate.
      * pose proof (confined_hand_back no_put clock b eq_refl _ _ _ E3) as H3.
        intros H. injection H as <- <-.
        eapply only_trans; [exact H1|]. eapply only_trans; [exact H2 | exact H3].
    + pose proof (confined_lift no_put _ (confined_render no_put env b reqUrl eq_refl) _ _ _ E2) as H2.
      intros H. injection H as <- <-. eapply only_trans; [exact H1 | exact H2].
  - intros H. injection H as <- <-.
    exact (confined_obtain_browser no_put env clock eq_refl eq_refl eq_refl _ _ _ E1).
Qed.



Lemma cache_store_puts env key html w w' :
  cache_store env key html w = (Ok tt, w') ->
  only no_put w w' \/
  List.filter is_put (trace w') = List.filter is_put (trace w) ++ [KvPut key html 3600].
Proof.
  unfold cache_store. destruct (HTML_CACHE env) as [ns|].
  - unfold try_catch, kv_put, call_void. rewrite !bind_eq. cbn.
    destruct (put_fault ns); cbn; intros H; injection H as <-; right;
      cbn [trace with_kv with_trace]; rewrite List.filter_app; reflexivity.
  - intros H. injection H as <-. left. apply only_refl.
Qed.

Lemma attempt_ok_puts env clock reqUrl cacheKey s r s' :
  attempt env clock reqUrl cacheKey s = (Ok r, s') ->
  exists htmlContent,
    r = html_response htmlContent /\
    (only no_put (global s) (global s') \/
     List.filter is_put (trace (global s')) =
       List.filter is_put (trace (global s)) ++ [KvPut cacheKey htmlContent 3600]).
Proof.
  unfold attempt. rewrite bind_eq.
  destruct (obtain_browser env clock s) as [[b|e1] s1] eqn:E1; [|discriminate].
  pose proof (confined_obtain_browser no_put env clock eq_refl eq_refl eq_refl _ _ _ E1) as H1.
  unfold carry_on. rewrite bind_eq.
  destruct (lift (render env b reqUrl) s1) as [[html|e2] s2] eqn:E2; [|discriminate].
  pose proof (confined_lift no_put _ (confined_render no_put env b reqUrl eq_refl) _ _ _ E2) as H2.
  rewrite bind_eq.
  destruct (hand_back clock b s2) as [[[]|e3] s3] eqn:E3; [|discriminate].
  pose proof (confined_hand_back no_put clock b eq_refl _ _ _ E3) as H3.
  rewrite bind_eq. unfold lift.
  destruct (cache_store env cacheKey html (global s3)) as [[[]|e4] w4] eqn:E4; [|discriminate].
  intros H. injection H as <- <-. exists html. split; [reflexivity|]. cbn [global].
  assert (H03 : only no_put (global s) (global s3)).
  { eapply only_trans; [exact H1|]. eapply only_trans; [exact H2 | exact H3]. }
  destruct (cache_store_puts _ _ _ _ _ E4) as [Hq|Hp].
  - left. eapply only_trans; [exact H03 | exact Hq].
  - right. destruct H03 as [Ht _]. rewrite !others_no_put in Ht. now rewrite Hp, Ht.
Qed.

Lemma handle_miss_puts env clock reqUrl cacheKey w resp w' :
  handle_miss env clock reqUrl cacheKey w = (Ok resp, w') ->
  only no_put w w' \/
  exists htmlContent,
    resp = html_response htmlContent /\
    List.filter is_put (trace w') =
      List.filter is_put (trace w) ++ [KvPut cacheKey htmlContent 3600].
Proof.
  unfold handle_miss, run_scoped, try_catch.
  destruct (attempt env clock reqUrl cacheKey (enter w)) as [[r|e] s1] eqn:Ea.
  - intros H. injection H as <- <-.
    destruct (attempt_ok_puts _ _ _ _ _ _ _ Ea) as (html & -> & [Hq|Hp]).
    + left. exact Hq.
    + right. exists html. split; [reflexivity | exact Hp].
  - apply attempt_throws_before_put in Ea. cbn [global enter] in Ea.
    destruct (recover clock reqUrl e s1) as [o s2] eqn:Er.
    pose proof (confined_recover no_put clock reqUrl e eq_refl _ _ _ Er) as Hr.
    intros H. injection H as _ <-. left. eapply only_trans; [exact Ea | exact Hr].
Qed.

Lemma fetch_puts request env clock w resp w' :
  worker request env clock w = (Ok resp, w') ->
  only no_put w w' \/
  exists reqUrl htmlContent,
    normal (Js.substring 9 (pathname request)) = Some reqUrl /\
    resp = html_response htmlContent /\
    List.filter is_put (trace w') =
      List.filter is_put (trace w) ++ [KvPut (computeKey reqUrl) htmlContent 3600].
Proof.
  unfold fetch.
  destruct (String.eqb (method request) "OPTIONS");
    [intros H; injection H as _ <-; left; apply only_refl|].
  destruct (_ && _).
  - destruct (negb _); [intros H; injection H as _ <-; left; apply only_refl|].
    cbn [String.length].
    destruct (normalize _ _ _) as [reqUrl|] eqn:En;
      [|intros H; injection H as _ <-; left; apply only_refl].
    rewrite bind_eq.
    destruct (cache_lookup env (computeKey reqUrl) w) as [[[c|]|e] w0] eqn:El.
    + intros H; injection H as _ <-. left.
      exact (confined_cache_lookup no_put env _ eq_refl _ _ _ El).
    + pose proof (confined_cache_lookup no_put env _ eq_refl _ _ _ El) as H0.
      intros H. apply handle_miss_puts in H as [Hq|(html & -> & Hp)].
      * left. eapply only_trans; [exact H0 | exact Hq].
      * right. exists reqUrl, html. split; [reflexivity|]. split; [reflexivity|].
        destruct H0 as [Ht _]. unfold id in Ht. rewrite !others_no_put in Ht. now rewrite Hp, Ht.
    + discriminate.
  - destruct (_ && _); intros H; injection H as _ <-; left; apply only_refl.
Qed.

(** C10. A request answered 500 leaves the Content Store as it was and has
    made no [put] call to it; and whenever a request has made a [put] call or
    changed the store, its answer is the 200 response carrying the rendered
    document, and that document under the target's key is the one thing it
    put. *)
Theorem fault_leaves_store_untouched request env clock w resp w' :
  worker request env clock w = (Ok resp, w') ->
  (status resp = 500 ->
   kv w' = kv w /\ List.filter is_put (trace w') = List.filter is_put (trace w)) /\
  (kv w' <> kv w \/ List.filter is_put (trace w') <> List.filter is_put (trace w) ->
   exists reqUrl htmlContent,
     normal (Js.substring 9 (pathname request)) = Some reqUrl /\
     resp = {| status := 200; body := BodyText htmlContent;
               headers := [("content-type", "text/html;charset=UTF-8");
                           ("access-control-allow-origin", "*")] |} /\
     List.filter is_put (trace w') =
       List.filter is_put (trace w) ++ [KvPut (computeKey reqUrl) htmlContent 3600]).
Proof.
  intros H. apply fetch_puts in H as [[Ht Hk]|(reqUrl & html & Hn & -> & Hp)].
  - rewrite !others_no_put in Ht. specialize (Hk eq_refl). split.
    + intros _. split; assumption.
    + intros [Hne|Hne]; contradiction.
  - split.
    + intros Hs. discriminate Hs.
    + intros _. exists reqUrl, html. repeat split; assumption.
Qed.

Lemma handle_miss_reusing env clock reqUrl cacheKey w w1 info b error w2 :
  getOptimalSession (MYBROWSER env) (now_acquire clock) w = (Ok (Some info), w1) ->
  Puppeteer.connect (MYBROWSER env) (sessionId (heap w1 info)) = Ok b ->
  render env b reqUrl
    (with_trace (trace w1 ++ [Connect (sessionId (heap w1 info))]) w1) = (Throw error, w2) ->
  handle_miss env clock reqUrl cacheKey w =
  (Ok (fault_response error reqUrl (now_iso clock)),
   if null_read error
   then with_sessionCache (map_delete (sessionId (heap w2 info)) (sessionCache w2)) w2
   else heap_write info (set_inUse false (heap w2 info)) w2).
Proof.
  intros Hg Hc Hr. unfold handle_miss, run_scoped, try_catch, attempt.
  rewrite bind_eq, (obtain_browser_connected _ _ _ _ _ _ Hg Hc).
  unfold carry_on. rewrite bind_eq. unfold lift at 1. cbn [global]. rewrite Hr.
  unfold recover. rewrite bind_eq. cbn [gets id browser sessionInfo launched].
  rewrite bind_eq. unfold try_catch. rewrite bind_eq.
  destruct (null_read error); reflexivity.
Qed.

(** C2 (as amended). When a request that holds a session from the registry
    ends in an upstream fault, the error path removes the session's entry
    only if the fault is an [Error] whose message contains "Cannot read
    properties of null"; after any other fault the entry stays in the
    registry and is marked free, with [lastUsed] as acquisition set it. *)
Theorem fault_release_depends_on_message
    request env clock reqUrl w w0 w1 info b error w2 :
  aims request reqUrl ->
  cache_lookup env (computeKey reqUrl) w = (Ok None, w0) ->
  getOptimalSession (MYBROWSER env) (now_acquire clock) w0 = (Ok (Some info), w1) ->
  Puppeteer.connect (MYBROWSER env) (sessionId (heap w1 info)) = Ok b ->
  render env b reqUrl
    (with_trace (trace w1 ++ [Connect (sessionId (heap w1 info))]) w1) = (Throw error, w2) ->
  exists w',
    worker request env clock w = (Ok (fault_response error reqUrl (now_iso clock)), w') /\
    (null_read error = true ->
       forall r, ~ In (sessionId (heap w1 info), r) (sessionCache w')) /\
    (null_read error = false ->
       sessionCache w' = sessionCache w1 /\
       (exists k, In (k, info) (sessionCache w')) /\
       inUse (heap w' info) = false /\
       lastUsed (heap w' info) = lastUsed (heap w1 info) /\
       sessionId (heap w' info) = sessionId (heap w1 info)).
Proof.
  intros Ha Hl Hg Hc Hr. rewrite (fetch_target _ _ _ _ _ Ha), Hl.
  rewrite (handle_miss_reusing _ _ _ _ _ _ _ _ _ _ Hg Hc Hr).
  apply render_touches_trace_only in Hr. rewrite Hr. clear Hr.
  eexists. split; [reflexivity|]. split; intros Hn; rewrite Hn.
  - intros r. apply map_has_false. cbn [sessionCache with_sessionCache with_trace heap].
    apply map_delete_has.
  - cbn [sessionCache heap heap_write with_trace]. rewrite Nat.eqb_refl.
    split; [reflexivity|]. split; [exact (acquired_is_tracked _ _ _ _ _ Hg)|].
    repeat split; reflexivity.
Qed.

Lemma others_no_connect t : others no_connect t = List.filter is_connect t.
Proof.
  unfold others. induction t as [|ev t IH]; [reflexivity|].
  cbn [List.filter]. rewrite IH. now destruct ev.
Qed.

(** C6. When connecting to the session acquisition chose fails, the handler
    deletes that session's entry and goes on to launch a new session: the
    launch is the call that follows the failed connect, and only calls on
    the page, disconnects and puts come after it, so that the failed connect
    is the only connect of the request. The answer is that of the launched
    browser: the fault of the launch, of the rendering or of the disconnect,
    or else the rendered document, with the launched session filed. When the
    request is over the registry has an entry under the failed id only if the
    browser just launched carries it. *)
Theorem failed_connect_falls_back request env clock reqUrl w w0 w1 info ce :
  aims request reqUrl ->
  cache_lookup env (computeKey reqUrl) w = (Ok None, w0) ->
  getOptimalSession (MYBROWSER env) (now_acquire clock) w0 = (Ok (Some info), w1) ->
  Puppeteer.connect (MYBROWSER env) (sessionId (heap w1 info)) = Throw ce ->
  let sid := sessionId (heap w1 info) in
  let w2 := with_sessionCache (map_delete sid (sessionCache w1))
              (with_trace (trace w1 ++ [Connect sid]) w1) in
  (forall r, ~ In (sid, r) (sessionCache w2)) /\
  obtain_browser env clock (enter w0) = launch_new (MYBROWSER env) (enter w2) /\
  exists resp w' evs,
    worker request env clock w = (Ok resp, w') /\
    trace w' = trace w1 ++ Connect sid :: Launch :: evs /\
    List.Forall (fun ev => In (kind ev) [KPage; KDisconnect; KPut]) evs /\
    List.filter is_connect (trace w') = List.filter is_connect (trace w) ++ [Connect sid] /\
    (forall r, In (sid, r) (sessionCache w') ->
       exists b, Puppeteer.launch (MYBROWSER env) = Ok b /\
                 Puppeteer.browser_sessionId b = Some sid) /\
    (forall e, Puppeteer.launch (MYBROWSER env) = Throw e ->
       resp = fault_response e reqUrl (now_iso clock) /\
       w' = with_trace (trace w2 ++ [Launch]) w2) /\
    (forall b error w3,
       Puppeteer.launch (MYBROWSER env) = Ok b ->
       render env b reqUrl (with_trace (trace w2 ++ [Launch]) w2) = (Throw error, w3) ->
       resp = fault_response error reqUrl (now_iso clock) /\
       w' = with_trace (trace w3 ++ [Disconnect]) w3) /\
    (forall b html w3 de,
       Puppeteer.launch (MYBROWSER env) = Ok b ->
       render env b reqUrl (with_trace (trace w2 ++ [Launch]) w2) = (Ok html, w3) ->
       Puppeteer.disconnect b = Some de ->
       resp = fault_response de reqUrl (now_iso clock)) /\
    (forall b html w3,
       Puppeteer.launch (MYBROWSER env) = Ok b ->
       render env b reqUrl (with_trace (trace w2 ++ [Launch]) w2) = (Ok html, w3) ->
       Puppeteer.disconnect b = None ->
       resp = html_response html /\
       sessionCache w' =
         match Puppeteer.browser_sessionId b with
         | Some new => if Js.truthy new
                       then map_set new (heap_next w2) (sessionCache w2)
                       else sessionCache w2
         | None => sessionCache w2
         end /\
       (forall new, Puppeteer.browser_sessionId b = Some new -> Js.truthy new = true ->
          heap w' (heap_next w2) =
            {| sessionId := new; lastUsed := now_release clock; inUse := false |}) /\
       List.filter is_disconnect evs = [Disconnect] /\
       List.filter is_put evs =
         match HTML_CACHE env with
         | Some _ => [KvPut (computeKey reqUrl) html 3600]
         | None => []
         end).
Proof.
  intros Ha Hl Hg Hc sid w2.
  split; [intros r; apply map_has_false, map_delete_has|].
  pose proof (obtain_browser_refused _ _ _ _ _ _ Hg Hc) as Ho. fold sid in Ho. fold w2 in Ho.
  split; [exact Ho|].
  destruct (provisioning_outcome env clock reqUrl (computeKey reqUrl) w0 w2 Ho)
    as (resp & w' & evs & Hm & Htr & Hlate & Hlf & Hrf & Hdf & Hok).
  exists resp, w', evs.
  split; [rewrite (fetch_target _ _ _ _ _ Ha), Hl; exact Hm|].
  assert (Htr' : trace w' = trace w1 ++ Connect sid :: Launch :: evs).
  { rewrite Htr. unfold w2. cbn [trace with_sessionCache with_trace].
    now rewrite <- app_assoc. }
  split; [exact Htr'|]. split; [exact Hlate|]. split.
  - rewrite Htr', List.filter_app. cbn [List.filter is_connect]. f_equal.
    + pose proof (confined_getOptimalSession no_connect _ _ eq_refl _ _ _ Hg) as [H1 _].
      pose proof (confined_cache_lookup no_connect _ _ eq_refl _ _ _ Hl) as [H0 _].
      unfold id in *. rewrite !others_no_connect in *. now rewrite H1, H0.
    + f_equal. clear -Hlate. induction Hlate as [|ev l Hev _ IH]; [reflexivity|].
      cbn [List.filter]. rewrite IH.
      destruct ev; cbn in Hev; try reflexivity; intuition discriminate.
  - split; [|split; [exact Hlf|split; [exact Hrf|split; [exact Hdf|exact Hok]]]].
    intros r Hin. unfold handle_miss, run_scoped in Hm.
    destruct (try_catch _ _ (enter w0)) as [o s'] eqn:Et. injection Hm as -> <-.
    assert (Etail : try_catch (launch_new (MYBROWSER env) ≫=
                                 carry_on env clock reqUrl (computeKey reqUrl))
                              (recover clock reqUrl) (enter w2) = (Ok resp, s')).
    { rewrite <- Et. unfold try_catch, attempt. rewrite !bind_eq, Ho. reflexivity. }
    destruct (after_launch_registry _ _ _ _ _ _ _ Etail _ _ Hin) as [Hold|Hnew];
      [|exact Hnew].
    exfalso. exact (map_has_false _ _ (map_delete_has sid (sessionCache w1)) r Hold).
Qed.

(** C8. When the session listing fails, session acquisition answers "no
    session" instead of throwing, and the handler goes on to launch a new
    session: the launch is the call that follows the failed listing, and
    only calls on the page, disconnects and puts come after it. The listing
    error is never the answer: the answer is that of the launched browser,
    the fault of the launch, of the rendering or of the disconnect, or else
    200 with the rendered document and the launched session filed. *)
Theorem listing_failure_provisions request env clock reqUrl w w0 e :
  aims request reqUrl ->
  cache_lookup env (computeKey reqUrl) w = (Ok None, w0) ->
  Puppeteer.sessions (MYBROWSER env) = Throw e ->
  let w1 := with_trace (trace w0 ++ [Sessions]) (remove_expired (now_acquire clock) w0) in
  getOptimalSession (MYBROWSER env) (now_acquire clock) w0 = (Ok None, w1) /\
  obtain_browser env clock (enter w0) = launch_new (MYBROWSER env) (enter w1) /\
  (exists resp w' evs,
     worker request env clock w = (Ok resp, w') /\
     trace w' = trace w0 ++ Sessions :: Launch :: evs /\
     List.Forall (fun ev => In (kind ev) [KPage; KDisconnect; KPut]) evs /\
     (forall le, Puppeteer.launch (MYBROWSER env) = Throw le ->
        resp = fault_response le reqUrl (now_iso clock) /\
        w' = with_trace (trace w1 ++ [Launch]) w1) /\
     (forall b error w2,
        Puppeteer.launch (MYBROWSER env) = Ok b ->
        render env b reqUrl (with_trace (trace w1 ++ [Launch]) w1) = (Throw error, w2) ->
        resp = fault_response error reqUrl (now_iso clock) /\
        w' = with_trace (trace w2 ++ [Disconnect]) w2) /\
     (forall b html w2 de,
        Puppeteer.launch (MYBROWSER env) = Ok b ->
        render env b reqUrl (with_trace (trace w1 ++ [Launch]) w1) = (Ok html, w2) ->
        Puppeteer.disconnect b = Some de ->
        resp = fault_response de reqUrl (now_iso clock)) /\
     (forall b html w2,
        Puppeteer.launch (MYBROWSER env) = Ok b ->
        render env b reqUrl (with_trace (trace w1 ++ [Launch]) w1) = (Ok html, w2) ->
        Puppeteer.disconnect b = None ->
        resp = html_response html /\
        sessionCache w' =
          match Puppeteer.browser_sessionId b with
          | Some new => if Js.truthy new
                        then map_set new (heap_next w1) (sessionCache w1)
                        else sessionCache w1
          | None => sessionCache w1
          end /\
        (forall new, Puppeteer.browser_sessionId b = Some new -> Js.truthy new = true ->
           heap w' (heap_next w1) =
             {| sessionId := new; lastUsed := now_release clock; inUse := false |}) /\
        List.filter is_disconnect evs = [Disconnect] /\
        List.filter is_put evs =
          match HTML_CACHE env with
          | Some _ => [KvPut (computeKey reqUrl) html 3600]
          | None => []
          end)) /\
  (forall b htmlContent w2,
     Puppeteer.launch (MYBROWSER env) = Ok b ->
     render env b reqUrl (with_trace (trace w1 ++ [Launch]) w1) = (Ok htmlContent, w2) ->
     Puppeteer.disconnect b = None ->
     exists w',
       worker request env clock w =
       (Ok {| status := 200; body := BodyText htmlContent;
              headers := [("content-type", "text/html;charset=UTF-8");
                          ("access-control-allow-origin", "*")] |}, w')).
Proof.
  intros Ha Hl Hs w1.
  pose proof (getOptimalSession_unlisted _ (now_acquire clock) _ w0 Hs) as Hg. fold w1 in Hg.
  split; [exact Hg|].
  pose proof (obtain_browser_none _ _ _ _ Hg) as Ho. split; [exact Ho|].
  destruct (provisioning_outcome env clock reqUrl (computeKey reqUrl) w0 w1 Ho)
    as (resp & w' & evs & Hm & Htr & Hlate & Hlf & Hrf & Hdf & Hok).
  assert (Hf : worker request env clock w = (Ok resp, w'))
    by (rewrite (fetch_target _ _ _ _ _ Ha), Hl; exact Hm).
  split.
  - exists resp, w', evs. split; [exact Hf|]. split.
    + rewrite Htr. unfold w1. cbn [trace with_trace remove_expired with_sessionCache].
      now rewrite <- app_assoc.
    + split; [exact Hlate|]. split; [exact Hlf|]. split; [exact Hrf|].
      split; [exact Hdf|exact Hok].
  - intros b html w2 Hb Hr Hd. exists w'. rewrite Hf.
    now destruct (Hok b html w2 Hb Hr Hd) as [-> _].
Qed.

End WorkerFacts.

(** ** The properties at work *)

Lemma sample_aims :
  targets Sample.decodeURIComponent Sample.URL_toString Sample.request Sample.url.
Proof. repeat split. Defined.

(** C1, at a failing input: the target answers 404, and the handler answers
    200 with the document the page held and stores it in the Content Store. *)
Lemma not_found_page_is_served :
  fst (Sample.fetch Sample.request Sample.envD Sample.clock Sample.empty_world) =
    Ok {| status := 200;
          body := BodyText "<html><head></head><body>Not Found</body></html>";
          headers := [("content-type", "text/html;charset=UTF-8");
                      ("access-control-allow-origin", "*")] |} /\
  kv (snd (Sample.fetch Sample.request Sample.envD Sample.clock Sample.empty_world))
    !! computeKey Sample.url
  = Some "<html><head></head><body>Not Found</body></html>".
Proof. split; vm_compute; reflexivity. Qed.

(** C2 (as stated) fails: after a navigation timeout on the reused session
    [s1] the request is answered 500 and the entry of [s1] is still in the
    registry, marked free; the next acquisition hands the same object out. *)
Lemma timeout_keeps_session :
  fst (Sample.fetch Sample.request Sample.envA Sample.clock Sample.warm_world) =
    Ok (fault_response (ErrorObj "Navigation timeout of 15000 ms exceeded")
          Sample.url "2025-07-05T00:00:07.000Z") /\
  entries (snd (Sample.fetch Sample.request Sample.envA Sample.clock Sample.warm_world)) =
    [("s1", {| sessionId := "s1"; lastUsed := 5000; inUse := false |})] /\
  fst (getOptimalSession (MYBROWSER Sample.envA) 9000
         (snd (Sample.fetch Sample.request Sample.envA Sample.clock Sample.warm_world))) =
    Ok (Some 0%nat).
Proof. repeat split; vm_compute; reflexivity. Qed.

Lemma fault_release_depends_on_message_witness :
  targets Sample.decodeURIComponent Sample.URL_toString Sample.request Sample.url /\
  cache_lookup Sample.envA (computeKey Sample.url) Sample.warm_world = (Ok None, Sample.wA0) /\
  getOptimalSession (MYBROWSER Sample.envA) (now_acquire Sample.clock) Sample.wA0 =
    (Ok (Some 0%nat), Sample.wA1) /\
  Puppeteer.connect (MYBROWSER Sample.envA) (sessionId (heap Sample.wA1 0%nat)) = Ok Sample.bA /\
  render Sample.envA Sample.bA Sample.url
    (with_trace (trace Sample.wA1 ++ [Connect (sessionId (heap Sample.wA1 0%nat))]) Sample.wA1) =
    (Throw (ErrorObj "Navigation timeout of 15000 ms exceeded"), Sample.wA2) /\
  exists w',
    Sample.fetch Sample.request Sample.envA Sample.clock Sample.warm_world =
      (Ok (fault_response (ErrorObj "Navigation timeout of 15000 ms exceeded")
             Sample.url (now_iso Sample.clock)), w') /\
    sessionCache w' = sessionCache Sample.wA1 /\
    inUse (heap w' 0%nat) = false.
Proof.
  assert (H1 : targets Sample.decodeURIComponent Sample.URL_toString Sample.request Sample.url)
    by exact sample_aims.
  assert (H2 : cache_lookup Sample.envA (computeKey Sample.url) Sample.warm_world
               = (Ok None, Sample.wA0)) by (vm_compute; reflexivity).
  assert (H3 : getOptimalSession (MYBROWSER Sample.envA) (now_acquire Sample.clock) Sample.wA0
               = (Ok (Some 0%nat), Sample.wA1)) by (vm_compute; reflexivity).
  assert (H4 : Puppeteer.connect (MYBROWSER Sample.envA) (sessionId (heap Sample.wA1 0%nat))
               = Ok Sample.bA) by (vm_compute; reflexivity).
  assert (H5 : render Sample.envA Sample.bA Sample.url
                 (with_trace (trace Sample.wA1 ++ [Connect (sessionId (heap Sample.wA1 0%nat))])
                    Sample.wA1)
               = (Throw (ErrorObj "Navigation timeout of 15000 ms exceeded"), Sample.wA2))
    by (vm_compute; reflexivity).
  repeat (split; [assumption|]).
  destruct (fault_release_depends_on_message _ _ _ _ _ _ _ _ _ _ _ _ _ H1 H2 H3 H4 H5)
    as (w' & Hf & _ & Hfree).
  exists w'. split; [exact Hf|].
  destruct (Hfree eq_refl) as (Hc & _ & Hu & _). split; assumption.
Defined.

Lemma reconciliation_drops_unlisted_witness :
  Puppeteer.sessions Sample.serviceE = Ok Sample.listE /\
  (forall k r, In (k, r) (sessionCache Sample.wE) -> In k ["s1"]) /\
  ~ In "s0" (List.map fst (sessionCache Sample.wE)).
Proof.
  assert (H : Puppeteer.sessions Sample.serviceE = Ok Sample.listE) by reflexivity.
  split; [exact H|].
  destruct (reconciliation_drops_unlisted Sample.serviceE 5000 Sample.listE
              Sample.stale_world H) as (_ & _ & _ & Hfinal).
  split; [exact Hfinal|].
  intros Hin. apply in_map_iff in Hin as ([k r] & Hk & Hin). cbn [fst] in Hk. subst k.
  apply Hfinal in Hin. destruct Hin as [Heq|[]]. discriminate Heq.
Defined.

Lemma acquired_session_free_then_busy_witness :
  getOptimalSession Sample.serviceE 5000 Sample.stale_world = (Ok (Some 1%nat), Sample.wE) /\
  exists k,
    In (k, 1%nat) (sessionCache Sample.wE) /\
    inUse (heap Sample.wE 1%nat) = true /\
    lastUsed (heap Sample.wE 1%nat) = 5000 /\
    exists a, In a Sample.listE /\ Puppeteer.sessionId a = k /\
              Js.truthy_opt (Puppeteer.connectionId a) = false.
Proof.
  assert (Hg : getOptimalSession Sample.serviceE 5000 Sample.stale_world
               = (Ok (Some 1%nat), Sample.wE)) by (vm_compute; reflexivity).
  split; [exact Hg|].
  destruct (acquired_session_free_then_busy _ _ _ _ _ Hg)
    as (act & k & Hs & Hin & Hu & Hl & _ & Ha & _).
  injection Hs as <-.
  exists k. repeat split; assumption.
Defined.

Lemma failed_connect_falls_back_witness :
  targets Sample.decodeURIComponent Sample.URL_toString Sample.request Sample.url /\
  cache_lookup Sample.envB (computeKey Sample.url) Sample.warm_world = (Ok None, Sample.wB0) /\
  getOptimalSession (MYBROWSER Sample.envB) (now_acquire Sample.clock) Sample.wB0 =
    (Ok (Some 0%nat), Sample.wB1) /\
  Puppeteer.connect (MYBROWSER Sample.envB) (sessionId (heap Sample.wB1 0%nat)) =
    Throw (ErrorObj "Unable to connect to session") /\
  exists w' evs,
    Sample.fetch Sample.request Sample.envB Sample.clock Sample.warm_world =
      (Ok (html_response Sample.hello), w') /\
    trace w' = trace Sample.wB1 ++ Connect "s1" :: Launch :: evs /\
    List.filter is_connect (trace w') = [Connect "s1"] /\
    sessionCache w' = [("s9", 1%nat)].
Proof.
  assert (H1 : targets Sample.decodeURIComponent Sample.URL_toString Sample.request Sample.url)
    by exact sample_aims.
  assert (H2 : cache_lookup Sample.envB (computeKey Sample.url) Sample.warm_world
               = (Ok None, Sample.wB0)) by (vm_compute; reflexivity).
  assert (H3 : getOptimalSession (MYBROWSER Sample.envB) (now_acquire Sample.clock) Sample.wB0
               = (Ok (Some 0%nat), Sample.wB1)) by (vm_compute; reflexivity).
  assert (H4 : Puppeteer.connect (MYBROWSER Sample.envB) (sessionId (heap Sample.wB1 0%nat))
               = Throw (ErrorObj "Unable to connect to session")) by (vm_compute; reflexivity).
  repeat (split; [assumption|]).
  destruct (failed_connect_falls_back _ _ _ _ _ _ _ _ _ _ _ H1 H2 H3 H4)
    as (_ & _ & resp & w' & evs & Hf & Htr & _ & Hc & _ & _ & _ & _ & Hok).
  destruct (Hok (Sample.browser "s9" (Sample.page (Some 200) Sample.hello)) Sample.hello _
              eq_refl (surjective_pairing _) eq_refl) as (Hresp & Hsc & _).
  exists w', evs. subst resp. split; [exact Hf|]. split; [exact Htr|].
  split; [exact Hc|]. rewrite Hsc. vm_compute. reflexivity.
Defined.

Lemma listing_failure_provisions_witness :
  targets Sample.decodeURIComponent Sample.URL_toString Sample.request Sample.url /\
  cache_lookup Sample.envC (computeKey Sample.url) Sample.warm_world = (Ok None, Sample.wC0) /\
  Puppeteer.sessions (MYBROWSER Sample.envC) = Throw (ErrorObj "Unable to list sessions") /\
  getOptimalSession (MYBROWSER Sample.envC) (now_acquire Sample.clock) Sample.wC0 =
    (Ok None, Sample.wC1) /\
  exists w' evs,
    Sample.fetch Sample.request Sample.envC Sample.clock Sample.warm_world =
      (Ok {| status := 200; body := BodyText Sample.hello;
             headers := [("content-type", "text/html;charset=UTF-8");
                         ("access-control-allow-origin", "*")] |}, w') /\
    trace w' = trace Sample.wC0 ++ Sessions :: Launch :: evs /\
    sessionCache w' = [("s1", 0%nat); ("s9", 1%nat)].
Proof.
  assert (H1 : targets Sample.decodeURIComponent Sample.URL_toString Sample.request Sample.url)
    by exact sample_aims.
  assert (H2 : cache_lookup Sample.envC (computeKey Sample.url) Sample.warm_world
               = (Ok None, Sample.wC0)) by (vm_compute; reflexivity).
  assert (H3 : Puppeteer.sessions (MYBROWSER Sample.envC)
               = Throw (ErrorObj "Unable to list sessions")) by reflexivity.
  split; [exact H1|]. split; [exact H2|]. split; [exact H3|].
  destruct (listing_failure_provisions _ _ Sample.request Sample.envC Sample.clock
              Sample.url Sample.warm_world Sample.wC0 _ H1 H2 H3)
    as (Hg & _ & (resp & w' & evs & Hf & Htr & _ & _ & _ & _ & Hok) & _).
  split; [exact Hg|].
  destruct (Hok Sample.bC Sample.hello _ eq_refl (surjective_pairing _) eq_refl)
    as (Hresp & Hsc & _).
  exists w', evs. subst resp. split; [exact Hf|]. split; [exact Htr|].
  rewrite Hsc. vm_compute. reflexivity.
Defined.

(** C7 (as stated) fails. The Content Store holds an entry for the target
    and the handler still lists sessions, launches a browser and renders the
    page: once because the lookup fails, once because the payload held is
    the empty string. *)
Lemma cached_entry_is_bypassed :
  (kv (Sample.cached_world Sample.hello) !! computeKey Sample.url = Some Sample.hello /\
   trace (snd (Sample.fetch Sample.request Sample.envG Sample.clock
                 (Sample.cached_world Sample.hello))) =
     [KvGet (computeKey Sample.url); Sessions; Launch; NewPage;
      SetUserAgent DEFAULT_USER_AGENT; SetRequestInterception;
      Goto Sample.url 15000; Content; PageClose; Disconnect;
      KvPut (computeKey Sample.url) Sample.hello 3600]) /\
  (kv (Sample.cached_world "") !! computeKey Sample.url = Some "" /\
   trace (snd (Sample.fetch Sample.request Sample.envF Sample.clock
                 (Sample.cached_world ""))) =
     [KvGet (computeKey Sample.url); Sessions; Launch; NewPage;
      SetUserAgent DEFAULT_USER_AGENT; SetRequestInterception;
      Goto Sample.url 15000; Content; PageClose; Disconnect;
      KvPut (computeKey Sample.url) Sample.hello 3600]).
Proof. repeat split; vm_compute; reflexivity. Qed.

Lemma cached_payload_short_circuits_witness :
  targets Sample.decodeURIComponent Sample.URL_toString Sample.request Sample.url /\
  HTML_CACHE Sample.envF = Some Sample.store /\
  get_fault Sample.store = None /\
  kv (Sample.cached_world Sample.hello) !! computeKey Sample.url = Some Sample.hello /\
  Sample.hello <> "" /\
  Sample.fetch Sample.request Sample.envF Sample.clock (Sample.cached_world Sample.hello) =
  (Ok {| status := 200; body := BodyText Sample.hello;
         headers := [("content-type", "text/html;charset=UTF-8");
                     ("access-control-allow-origin", "*");
                     ("cache-control", "public, max-age=3600")] |},
   with_trace (trace (Sample.cached_world Sample.hello) ++ [KvGet (computeKey Sample.url)])
     (Sample.cached_world Sample.hello)).
Proof.
  assert (H1 : targets Sample.decodeURIComponent Sample.URL_toString Sample.request Sample.url)
    by exact sample_aims.
  assert (H4 : kv (Sample.cached_world Sample.hello) !! computeKey Sample.url = Some Sample.hello)
    by (vm_compute; reflexivity).
  assert (H5 : Sample.hello <> "") by discriminate.
  split; [exact H1|]. split; [reflexivity|]. split; [reflexivity|].
  split; [exact H4|]. split; [exact H5|].
  exact (proj1 (cached_payload_short_circuits _ _ Sample.request Sample.envF Sample.clock
                  Sample.url Sample.store Sample.hello (Sample.cached_world Sample.hello)
                  H1 eq_refl eq_refl H4 H5)).
Defined.

Lemma unparsable_target_is_rejected_witness :
  method Sample.bad_request = "GET" /\
  Js.startsWith "/content/" (pathname Sample.bad_request) = true /\
  Js.truthy (Js.substring 9 (pathname Sample.bad_request)) = true /\
  normalize Sample.decodeURIComponent Sample.URL_toString
    (Js.substring 9 (pathname Sample.bad_request)) = None /\
  Sample.fetch Sample.bad_request Sample.envF Sample.clock Sample.warm_world =
  (Ok {| status := 400;
         body := BodyJson [("success", JBool false); ("error", JString "Invalid URL format")];
         headers := json_headers |}, Sample.warm_world).
Proof.
  repeat (split; [reflexivity|]).
  exact (unparsable_target_is_rejected Sample.decodeURIComponent Sample.URL_toString
           Sample.bad_request Sample.envF Sample.clock Sample.warm_world
           eq_refl eq_refl eq_refl eq_refl).
Defined.

Lemma fault_leaves_store_untouched_witness :
  Sample.fetch Sample.request Sample.envA Sample.clock Sample.warm_world =
    (Ok (fault_response (ErrorObj "Navigation timeout of 15000 ms exceeded")
           Sample.url (now_iso Sample.clock)),
     snd (Sample.fetch Sample.request Sample.envA Sample.clock Sample.warm_world)) /\
  status (fault_response (ErrorObj "Navigation timeout of 15000 ms exceeded")
            Sample.url (now_iso Sample.clock)) = 500 /\
  kv (snd (Sample.fetch Sample.request Sample.envA Sample.clock Sample.warm_world)) =
    kv Sample.warm_world /\
  List.filter is_put
    (trace (snd (Sample.fetch Sample.request Sample.envA Sample.clock Sample.warm_world))) =
  List.filter is_put (trace Sample.warm_world).
Proof.
  assert (H : Sample.fetch Sample.request Sample.envA Sample.clock Sample.warm_world =
    (Ok (fault_response (ErrorObj "Navigation timeout of 15000 ms exceeded")
           Sample.url (now_iso Sample.clock)),
     snd (Sample.fetch Sample.request Sample.envA Sample.clock Sample.warm_world)))
    by (vm_compute; reflexivity).
  split; [exact H|]. split; [reflexivity|].
  exact (proj1 (fault_leaves_store_untouched _ _ _ _ _ _ _ _ H) eq_refl).
Defined.

(** * Further properties of the code *)

(** ** Properties of every step of a block *)

Section Respect.

Variable R : World -> World -> Prop.
Hypothesis R_refl : forall w, R w w.
Hypothesis R_trans : forall w1 w2 w3, R w1 w2 -> R w2 w3 -> R w1 w3.

Section Blocks.

Context {S : Type} (proj : S -> World).

Lemma respects_ret {A} (a : A) : respects R proj (mret a).
Proof. intros s o s' H. injection H as <- <-. apply R_refl. Qed.

Lemma respects_throw {A} e : respects R proj (throw e : M S A).
Proof. intros s o s' H. injection H as <- <-. apply R_refl. Qed.

Lemma respects_settle {A} (r : Outcome A) : respects R proj (settle r).
Proof. intros s o s' H. injection H as <- <-. apply R_refl. Qed.

Lemma respects_gets {A} (f : S -> A) : respects R proj (gets f).
Proof. intros s o s' H. injection H as <- <-. apply R_refl. Qed.

Lemma respects_modify (f : S -> S) :
  (forall s, R (proj s) (proj (f s))) -> respects R proj (modify f).
Proof. intros Hf s o s' H. injection H as <- <-. apply Hf. Qed.

Lemma respects_bind {A B} (m : M S A) (f : A -> M S B) :
  respects R proj m -> (forall a, respects R proj (f a)) ->
  respects R proj (m ≫= f).
Proof.
  intros Hm Hf s o s' H. unfold mbind, M_bind in H.
  destruct (m s) as [[a|e] s1] eqn:E.
  - eapply R_trans; [eapply Hm, E | eapply Hf, H].
  - injection H as <- <-. eapply Hm, E.
Qed.

Lemma respects_try_catch {A} (m : M S A) (h : Thrown -> M S A) :
  respects R proj m -> (forall e, respects R proj (h e)) ->
  respects R proj (try_catch m h).
Proof.
  intros Hm Hh s o s' H. unfold try_catch in H.
  destruct (m s) as [[a|e] s1] eqn:E.
  - injection H as <- <-. eapply Hm, E.
  - eapply R_trans; [eapply Hm, E | eapply Hh, H].
Qed.

End Blocks.

Lemma respects_lift {A} (m : M World A) :
  respects R id m -> respects R global (lift m).
Proof.
  intros Hm s o s' H. unfold lift in H.
  destruct (m (global s)) as [o1 w1] eqn:E. injection H as <- <-.
  cbn [global]. apply (Hm _ _ _ E).
Qed.

Lemma respects_run_scoped {A} (m : M Scope A) :
  respects R global m -> respects R id (run_scoped m).
Proof.
  intros Hm w o w' H. unfold run_scoped in H.
  destruct (m (enter w)) as [o1 s1] eqn:E. injection H as <- <-.
  apply (Hm _ _ _ E).
Qed.

(** Changes to the locals of [fetch] leave the world alone. *)
Lemma respects_assign (f : Scope -> Scope) :
  (forall s, global (f s) = global s) -> respects R global (modify f).
Proof. intros Hf. apply respects_modify. intros s. rewrite Hf. apply R_refl. Qed.

End Respect.

(** ** The registry stays a map of objects filed under their ids *)

Lemma stays_refl w : stays_well_formed w w.
Proof. intros H. exact H. Qed.

Lemma stays_trans w1 w2 w3 :
  stays_well_formed w1 w2 -> stays_well_formed w2 w3 -> stays_well_formed w1 w3.
Proof. intros H1 H2 H. apply H2, H1, H. Qed.

Lemma well_formed_outside w t k :
  well_formed w ->
  well_formed {| sessionCache := sessionCache w; heap_next := heap_next w;
                 heap := heap w; kv := k; trace := t |}.
Proof. intros H. exact H. Qed.

Lemma well_formed_filter f w :
  well_formed w ->
  well_formed (with_sessionCache (List.filter f (sessionCache w)) w).
Proof.
  intros (Hd & Hk & Ha). split; [|split].
  - now apply filter_keeps_distinct.
  - intros k r Hin. apply filter_In in Hin as [Hin _]. now apply Hk.
  - intros k r Hin. apply filter_In in Hin as [Hin _]. now apply (Ha k r).
Qed.

Lemma well_formed_heap_write info v w :
  sessionId v = sessionId (heap w info) ->
  well_formed w -> well_formed (heap_write info v w).
Proof.
  intros Hv (Hd & Hk & Ha). split; [exact Hd|]. split; [|exact Ha].
  intros k r Hin. cbn [heap heap_write].
  destruct (Nat.eqb r info) eqn:E; [|now apply Hk].
  apply Nat.eqb_eq in E. subst r. rewrite Hv. now apply Hk.
Qed.

Lemma well_formed_insert k v w :
  sessionId v = k ->
  well_formed w ->
  well_formed (with_sessionCache (map_set k (heap_next w) (sessionCache w))
                 (snd (heap_alloc v w))).
Proof.
  intros Hv (Hd & Hk & Ha). split; [|split].
  - now apply map_set_keeps_distinct.
  - intros k' r Hin. cbn [heap with_sessionCache heap_alloc snd].
    apply map_set_In in Hin as [Heq|Hin].
    + injection Heq as -> ->. now rewrite Nat.eqb_refl.
    + destruct (Nat.eqb r (heap_next w)) eqn:E; [|now apply Hk].
      apply Nat.eqb_eq in E. specialize (Ha k' r Hin). lia.
  - intros k' r Hin. cbn [heap_next with_sessionCache heap_alloc snd].
    apply map_set_In in Hin as [Heq|Hin].
    + injection Heq as _ ->. lia.
    + specialize (Ha k' r Hin). lia.
Qed.

Abbreviation steady := (respects stays_well_formed).

Lemma steady_emit ev : steady id (emit ev).
Proof. apply respects_modify. intros w H. exact H. Qed.

Lemma steady_call {A} ev (r : Outcome A) : steady id (call ev r).
Proof.
  apply (respects_bind _ stays_trans); [apply steady_emit|].
  intros _. apply (respects_settle _ stays_refl).
Qed.

Lemma steady_call_void ev f : steady id (call_void ev f).
Proof.
  apply (respects_bind _ stays_trans); [apply steady_emit|].
  intros _. destruct f; [apply (respects_throw _ stays_refl) | apply (respects_ret _ stays_refl)].
Qed.

Lemma steady_filter (f : World -> string * loc -> bool) :
  steady id (modify (fun w => with_sessionCache (List.filter (f w) (sessionCache w)) w)).
Proof. apply respects_modify. intros w Hw. exact (well_formed_filter (f w) w Hw). Qed.

Lemma steady_heap_write info (f : SessionInfo -> SessionInfo) :
  (forall i, sessionId (f i) = sessionId i) ->
  steady id (modify (fun w => heap_write info (f (heap w info)) w)).
Proof.
  intros Hf. apply respects_modify. intros w Hw.
  apply well_formed_heap_write; [apply Hf | exact Hw].
Qed.

Lemma steady_cache_set k v : sessionId v = k -> steady id (cache_set k v).
Proof.
  intros Hv w o w' H. unfold cache_set, alloc in H. rewrite bind_eq in H.
  cbn in H. injection H as _ <-. intros Hw. now apply well_formed_insert.
Qed.

Lemma steady_cache_delete k : steady id (cache_delete k).
Proof. apply (steady_filter (fun _ e => negb (String.eqb (fst e) k))). Qed.

Ltac steady_step :=
  first
    [ apply steady_call
    | apply steady_call_void
    | apply steady_cache_delete
    | apply steady_cache_set; reflexivity
    | apply steady_heap_write; intros ?; reflexivity
    | apply (respects_bind _ stays_trans)
    | apply (respects_try_catch _ stays_trans)
    | apply respects_lift
    | apply (respects_ret _ stays_refl)
    | apply (respects_throw _ stays_refl)
    | apply (respects_gets _ stays_refl)
    | apply (respects_settle _ stays_refl)
    | apply (respects_assign _ stays_refl); intros ?; reflexivity
    | match goal with
      | |- respects _ _ (match ?x with _ => _ end) => destruct x
      | |- respects _ _ (if ?x then _ else _) => destruct x
      end ].

Ltac steady_tac := repeat (intros; steady_step).

Lemma steady_pick_session act now : steady id (pick_session act now).
Proof.
  intros w o w' H. rewrite pick_session_eq in H.
  destruct (List.find _ _) as [[k info]|].
  - injection H as _ <-. intros Hw.
    apply well_formed_heap_write; [cbn; now rewrite Nat.eqb_refl|].
    now apply well_formed_heap_write.
  - destruct (List.filter _ act) as [|sel rest]; injection H as _ <-; [apply stays_refl|].
    intros Hw. now apply well_formed_insert.
Qed.

Lemma steady_getOptimalSession endpoint now : steady id (getOptimalSession endpoint now).
Proof.
  unfold getOptimalSession.
  apply (respects_bind _ stays_trans);
    [apply (steady_filter (fun w e => negb (expired now (heap w (snd e)))))|].
  intros _. apply (respects_bind _ stays_trans); [steady_tac|].
  intros [act|]; [|steady_tac].
  apply (respects_bind _ stays_trans);
    [apply (steady_filter (fun _ e => existsb (String.eqb (fst e))
                                        (List.map Puppeteer.sessionId act)))|].
  intros _. apply steady_pick_session.
Qed.

Lemma steady_cache_lookup env key : steady id (cache_lookup env key).
Proof. unfold cache_lookup, kv_get. steady_tac. Qed.

Lemma steady_kv_put ns key value ttl : steady id (kv_put ns key value ttl).
Proof.
  unfold kv_put. apply (respects_bind _ stays_trans); [apply steady_call_void|].
  intros _. apply respects_modify. intros w Hw. exact Hw.
Qed.

Lemma steady_cache_store env key html : steady id (cache_store env key html).
Proof.
  unfold cache_store. destruct (HTML_CACHE env) as [ns|]; [|steady_tac].
  apply (respects_try_catch _ stays_trans); [apply steady_kv_put | steady_tac].
Qed.

Lemma steady_launch_new endpoint : steady global (launch_new endpoint).
Proof. unfold launch_new, assign_browser, assign_launched. steady_tac. Qed.

Lemma steady_obtain_browser env clock : steady global (obtain_browser env clock).
Proof.
  unfold obtain_browser, assign_browser, assign_sessionInfo.
  apply (respects_bind _ stays_trans); [apply respects_lift, steady_getOptimalSession|].
  intros found. apply (respects_bind _ stays_trans); [steady_tac|].
  intros _. destruct found as [info|]; [|apply steady_launch_new].
  apply (respects_bind _ stays_trans); [steady_tac|]. intros sid.
  apply (respects_try_catch _ stays_trans); [steady_tac|].
  intros e. apply (respects_bind _ stays_trans); [steady_tac|]. intros _.
  apply (respects_bind _ stays_trans); [steady_tac|]. intros _.
  apply steady_launch_new.
Qed.

Lemma steady_render env b reqUrl : steady id (render env b reqUrl).
Proof. unfold render. steady_tac. Qed.

Lemma steady_hand_back clock b : steady global (hand_back clock b).
Proof. unfold hand_back. steady_tac. Qed.

Lemma steady_recover clock reqUrl error : steady global (recover clock reqUrl error).
Proof. unfold recover. steady_tac. Qed.

Lemma steady_handle_miss env clock reqUrl key :
  steady id (handle_miss env clock reqUrl key).
Proof.
  unfold handle_miss. apply respects_run_scoped.
  apply (respects_try_catch _ stays_trans); [|intros e; apply steady_recover].
  unfold attempt. apply (respects_bind _ stays_trans); [apply steady_obtain_browser|].
  intros b. unfold carry_on.
  apply (respects_bind _ stays_trans); [apply respects_lift, steady_render|].
  intros html. apply (respects_bind _ stays_trans); [apply steady_hand_back|].
  intros _. apply (respects_bind _ stays_trans); [apply respects_lift, steady_cache_store|].
  intros _. apply (respects_ret _ stays_refl).
Qed.

Lemma steady_fetch decodeURIComponent URL_toString request env clock :
  steady id (fetch decodeURIComponent URL_toString request env clock).
Proof.
  unfold fetch.
  destruct (String.eqb (method request) "OPTIONS"); [apply (respects_ret _ stays_refl)|].
  destruct (_ && _).
  - destruct (negb _); [apply (respects_ret _ stays_refl)|].
    destruct (normalize _ _ _) as [reqUrl|]; [|apply (respects_ret _ stays_refl)].
    apply (respects_bind _ stays_trans); [apply steady_cache_lookup|].
    intros [cached|]; [apply (respects_ret _ stays_refl) | apply steady_handle_miss].
  - destruct (_ && _); apply (respects_ret _ stays_refl).
Qed.

(** X1. Every request, however it ends, leaves the registry a proper [Map]
    of session objects: no key occurs twice, every entry is filed under the
    [sessionId] of the object it holds, and every reference is to an object
    that exists. *)
Theorem fetch_keeps_well_formed decodeURIComponent URL_toString request env clock w :
  well_formed w ->
  well_formed (snd (fetch decodeURIComponent URL_toString request env clock w)).
Proof.
  intros Hw.
  destruct (fetch decodeURIComponent URL_toString request env clock w) as [o w'] eqn:E.
  exact (steady_fetch decodeURIComponent URL_toString request env clock _ _ _ E Hw).
Qed.

Lemma empty_world_well_formed : well_formed Sample.empty_world.
Proof.
  split; [apply List.NoDup_nil|]. split; intros k r [].
Qed.

(** ** Session acquisition: pruning, retention and exclusiveness *)

Lemma map_set_keeps_others k r c e :
  In e c -> map_has k c = false -> In e (map_set k r c).
Proof.
  unfold map_has. induction c as [|x c IH]; intros Hin Hh; [destruct Hin|].
  cbn [existsb] in Hh. apply orb_false_iff in Hh as [Hx Hh].
  cbn [map_set]. rewrite Hx. destruct Hin as [<-|Hin]; [now left|].
  right. now apply IH.
Qed.

Lemma acquired_marked endpoint now w info w' :
  getOptimalSession endpoint now w = (Ok (Some info), w') ->
  inUse (heap w' info) = true /\ lastUsed (heap w' info) = now.
Proof.
  intros Hg.
  destruct (Puppeteer.sessions endpoint) as [act|err] eqn:Hs;
    [|rewrite (getOptimalSession_unlisted _ _ _ _ Hs) in Hg; discriminate Hg].
  rewrite (getOptimalSession_listed endpoint now act w Hs), pick_session_eq in Hg.
  destruct (List.find _ _) as [[k r]|].
  - injection Hg as -> <-. cbn [heap heap_write]. now rewrite Nat.eqb_refl.
  - destruct (List.filter _ act) as [|sel rest]; [discriminate Hg|].
    injection Hg as <- <-. cbn [heap with_sessionCache heap_alloc snd].
    now rewrite Nat.eqb_refl.
Qed.

Lemma expired_false now i :
  expired now i = false <-> now - lastUsed i <= SESSION_TIMEOUT.
Proof. unfold expired. rewrite Z.gtb_ltb, Z.ltb_ge. reflexivity. Qed.

Lemma timeout_positive : 0 <= SESSION_TIMEOUT.
Proof. unfold SESSION_TIMEOUT. lia. Qed.

Lemma reconciled_unexpired act now w k r :
  In (k, r) (sessionCache (reconciled act now w)) ->
  now - lastUsed (heap w r) <= SESSION_TIMEOUT.
Proof.
  unfold reconciled, remove_stale, remove_expired.
  cbn [sessionCache with_sessionCache with_trace]. intros Hin.
  apply filter_In in Hin as [Hin _]. apply filter_In in Hin as [_ He].
  cbn [snd] in He. apply negb_true_iff in He. now apply expired_false.
Qed.

(** X2. Whatever the listing answers, even when it fails, [getOptimalSession]
    leaves no entry whose object was last used more than [SESSION_TIMEOUT]
    before now. *)
Theorem acquisition_prunes_expired endpoint now w k r :
  In (k, r) (sessionCache (snd (getOptimalSession endpoint now w))) ->
  now - lastUsed (heap (snd (getOptimalSession endpoint now w)) r) <= SESSION_TIMEOUT.
Proof.
  pose proof timeout_positive as Hpos.
  destruct (Puppeteer.sessions endpoint) as [act|err] eqn:Hs.
  - rewrite (getOptimalSession_listed _ _ _ _ Hs), pick_session_eq.
    destruct (List.find _ _) as [[k' info]|].
    + cbn [snd sessionCache heap heap_write]. intros Hin.
      destruct (Nat.eqb r info); cbn [lastUsed set_lastUsed]; [lia|].
      now apply (reconciled_unexpired act now w k r).
    + destruct (List.filter _ act) as [|sel rest].
      * cbn [snd]. apply reconciled_unexpired.
      * cbn [snd sessionCache heap with_sessionCache heap_alloc]. intros Hin.
        destruct (Nat.eqb r _) eqn:Hr; cbn [lastUsed]; [lia|].
        apply map_set_In in Hin as [Heq|Hin].
        -- injection Heq as _ ->. now rewrite Nat.eqb_refl in Hr.
        -- now apply (reconciled_unexpired act now w k r).
  - rewrite (getOptimalSession_unlisted _ _ _ _ Hs).
    cbn [snd sessionCache heap with_trace remove_expired with_sessionCache]. intros Hin.
    apply filter_In in Hin as [_ He]. cbn [snd] in He.
    apply negb_true_iff in He. now apply expired_false.
Qed.

(** X3. [getOptimalSession] never forgets a live session: an entry that has
    not expired and whose id the listing still reports (or any unexpired
    entry, when the listing fails) is still filed, under the same object,
    afterwards. *)
Theorem acquisition_keeps_live_entries endpoint now w k r :
  In (k, r) (sessionCache w) ->
  now - lastUsed (heap w r) <= SESSION_TIMEOUT ->
  (forall act, Puppeteer.sessions endpoint = Ok act ->
               In k (List.map Puppeteer.sessionId act)) ->
  In (k, r) (sessionCache (snd (getOptimalSession endpoint now w))).
Proof.
  intros Hin Hlive Hlisted.
  destruct (Puppeteer.sessions endpoint) as [act|err] eqn:Hs.
  - specialize (Hlisted act eq_refl).
    assert (Hrec : In (k, r) (sessionCache (reconciled act now w))).
    { unfold reconciled, remove_stale, remove_expired.
      cbn [sessionCache with_sessionCache with_trace].
      apply filter_In. split.
      - apply filter_In. split; [exact Hin|]. cbn [snd].
        apply negb_true_iff. now apply expired_false.
      - cbn [fst]. apply existsb_exists. exists k. split; [exact Hlisted|].
        apply String.eqb_refl. }
    rewrite (getOptimalSession_listed _ _ _ _ Hs), pick_session_eq.
    destruct (List.find _ _) as [[k' info]|]; [exact Hrec|].
    destruct (List.filter _ act) as [|sel rest] eqn:Hf; [exact Hrec|].
    cbn [snd sessionCache with_sessionCache heap_alloc].
    apply map_set_keeps_others; [exact Hrec|].
    assert (Hsel : In sel (List.filter (adoptable (reconciled act now w)) act))
      by (rewrite Hf; now left).
    apply filter_In in Hsel as [_ Hsel]. unfold adoptable in Hsel.
    apply andb_true_iff in Hsel as [_ Hsel]. now apply negb_true_iff in Hsel.
  - rewrite (getOptimalSession_unlisted _ _ _ _ Hs).
    cbn [snd sessionCache with_trace remove_expired with_sessionCache].
    apply filter_In. split; [exact Hin|]. cbn [snd].
    apply negb_true_iff. now apply expired_false.
Qed.

Lemma busy_is_skipped endpoint now w k r info w' :
  well_formed w ->
  In (k, r) (sessionCache w) ->
  inUse (heap w r) = true ->
  now - lastUsed (heap w r) <= SESSION_TIMEOUT ->
  getOptimalSession endpoint now w = (Ok (Some info), w') ->
  info <> r /\ sessionId (heap w' info) <> k.
Proof.
  intros (Hd & Hk & Ha) Hin Hbusy Hlive Hg.
  destruct (Puppeteer.sessions endpoint) as [act|err] eqn:Hs;
    [|rewrite (getOptimalSession_unlisted _ _ _ _ Hs) in Hg; discriminate Hg].
  rewrite (getOptimalSession_listed endpoint now act w Hs), pick_session_eq in Hg.
  destruct (List.find _ _) as [[k' r']|] eqn:Hfind.
  - injection Hg as -> <-.
    apply find_some in Hfind as [Hin' Hav].
    apply available_listed in Hav as [Hfree _].
    apply reconciled_from in Hin'.
    change (heap (reconciled act now w)) with (heap w) in *.
    assert (Hne : info <> r) by (intros ->; congruence).
    split; [exact Hne|].
    cbn [heap heap_write]. rewrite Nat.eqb_refl. cbn [sessionId set_lastUsed set_inUse].
    rewrite (Hk _ _ Hin'). intros ->.
    apply Hne.
    now injection (same_key_same_entry _ _ _ Hd Hin' Hin eq_refl).
  - destruct (List.filter _ act) as [|sel rest] eqn:Hf; [discriminate Hg|].
    injection Hg as <- <-.
    change (heap_next (reconciled act now w)) with (heap_next w).
    split.
    + specialize (Ha _ _ Hin). lia.
    + cbn [heap with_sessionCache heap_alloc snd]. rewrite Nat.eqb_refl.
      cbn [sessionId]. intros Heq.
      apply adoptable_listed in Hf as (Hsel & _ & Hnew).
      apply (map_has_false _ _ Hnew r). rewrite Heq.
      apply reconciled_keeps; [exact Hin|now apply expired_false|].
      rewrite <- Heq. now apply in_map.
Qed.

(** X4. A filed session that is marked busy and has not expired is never
    handed out: what [getOptimalSession] returns is another object, for
    another session id. *)
Theorem busy_session_is_not_acquired endpoint now w k r info w' :
  well_formed w ->
  In (k, r) (sessionCache w) ->
  inUse (heap w r) = true ->
  now - lastUsed (heap w r) <= SESSION_TIMEOUT ->
  getOptimalSession endpoint now w = (Ok (Some info), w') ->
  info <> r /\ sessionId (heap w' info) <> k.
Proof. apply busy_is_skipped. Qed.

(** X5. Two acquisitions in a row, the second within [SESSION_TIMEOUT] of
    the first and with no release in between, never hand out the same
    session twice. *)
Theorem successive_acquisitions_differ e1 e2 now1 now2 w i1 w1 i2 w2 :
  well_formed w ->
  getOptimalSession e1 now1 w = (Ok (Some i1), w1) ->
  now2 - now1 <= SESSION_TIMEOUT ->
  getOptimalSession e2 now2 w1 = (Ok (Some i2), w2) ->
  i2 <> i1 /\ sessionId (heap w2 i2) <> sessionId (heap w1 i1).
Proof.
  intros Hw H1 Hnear H2.
  assert (Hw1 : well_formed w1).
  { pose proof (steady_getOptimalSession e1 now1 w _ _ H1) as Hst. now apply Hst. }
  destruct (acquired_is_tracked _ _ _ _ _ H1) as [k Hin].
  destruct (acquired_marked _ _ _ _ _ H1) as [Hbusy Hlast].
  destruct Hw1 as (Hd & Hk & Ha).
  rewrite (Hk _ _ Hin).
  apply (busy_is_skipped e2 now2 w1 k i1 i2 w2); try assumption.
  - now repeat split.
  - now rewrite Hlast.
Qed.

(** X13. Liveness of acquisition: when the registry holds a session that is
    free and not expired, and the listing shows that session with no
    connection, [getOptimalSession] hands out a session the registry already
    held, marked free before; it neither answers "no session" nor adopts a
    new one. *)
Theorem free_listed_session_is_found endpoint now act w k r :
  Puppeteer.sessions endpoint = Ok act ->
  In (k, r) (sessionCache w) ->
  inUse (heap w r) = false ->
  now - lastUsed (heap w r) <= SESSION_TIMEOUT ->
  In k (List.map Puppeteer.sessionId act) ->
  (forall a, In a act -> Puppeteer.sessionId a = k ->
             Js.truthy_opt (Puppeteer.connectionId a) = false) ->
  exists k' info w',
    getOptimalSession endpoint now w = (Ok (Some info), w') /\
    In (k', info) (sessionCache w) /\
    inUse (heap w info) = false /\
    sessionCache w' = sessionCache (reconciled act now w).
Proof.
  intros Hs Hin Hfree Hlive Hk Hidle.
  rewrite (getOptimalSession_listed _ _ _ _ Hs), pick_session_eq.
  assert (Hrec : In (k, r) (sessionCache (reconciled act now w)))
    by (apply reconciled_keeps; [exact Hin|now apply expired_false|exact Hk]).
  assert (Hav : available act (reconciled act now w) (k, r) = true).
  { unfold available. cbn [fst snd].
    change (heap (reconciled act now w)) with (heap w). rewrite Hfree. cbn [negb andb].
    apply andb_true_iff. split.
    - apply existsb_exists. exists k. split; [exact Hk|apply String.eqb_refl].
    - destruct (List.find _ act) as [a|] eqn:Hf.
      + apply find_some in Hf as [Ha Heq]. apply String.eqb_eq in Heq.
        now rewrite (Hidle a Ha Heq).
      + apply in_map_iff in Hk as (a & Ha & Hina).
        pose proof (find_none _ _ Hf a Hina) as Hno. cbn in Hno.
        rewrite Ha, String.eqb_refl in Hno. discriminate Hno. }
  destruct (List.find (available act (reconciled act now w)) _) as [[k' info]|] eqn:Hfind.
  - apply find_some in Hfind as [Hin' Hav'].
    apply available_listed in Hav' as [Hfree' _].
    exists k', info. eexists. split; [reflexivity|].
    split; [exact (reconciled_from _ _ _ _ _ Hin')|]. split; [exact Hfree'|reflexivity].
  - pose proof (find_none _ _ Hfind _ Hrec) as Hno. congruence.
Qed.

(** X14. Acquisition adds at most one entry to the registry, and when the
    listing succeeds the registry it leaves has no more entries than the
    listing has sessions. *)
Theorem registry_is_bounded_by_listing endpoint now w :
  distinct_keys w ->
  (length (sessionCache (snd (getOptimalSession endpoint now w)))
     <= S (length (sessionCache w)))%nat /\
  forall act, Puppeteer.sessions endpoint = Ok act ->
    (length (sessionCache (snd (getOptimalSession endpoint now w))) <= length act)%nat.
Proof.
  intros Hd. split.
  - destruct (Puppeteer.sessions endpoint) as [act|err] eqn:Hs.
    + rewrite (getOptimalSession_listed _ _ _ _ Hs), pick_session_eq.
      assert (Hlen : (length (sessionCache (reconciled act now w))
                        <= length (sessionCache w))%nat).
      { unfold reconciled, remove_stale, remove_expired.
        cbn [sessionCache with_sessionCache with_trace].
        etransitivity; apply List.filter_length_le. }
      destruct (List.find _ _) as [[k' info]|]; [cbn [snd sessionCache heap_write]; lia|].
      destruct (List.filter _ act) as [|sel rest]; [cbn [snd]; lia|].
      cbn [snd sessionCache with_sessionCache heap_alloc].
      rewrite <- (List.length_map fst), map_set_keys.
      destruct (map_has _ _); rewrite ?List.length_app, List.length_map; cbn [length]; lia.
    + rewrite (getOptimalSession_unlisted _ _ _ _ Hs).
      cbn [snd sessionCache with_trace remove_expired with_sessionCache].
      pose proof (List.filter_length_le
                    (fun e => negb (expired now (heap w (snd e)))) (sessionCache w)). lia.
  - intros act Hs.
    rewrite <- (List.length_map fst), <- (List.length_map Puppeteer.sessionId act).
    apply List.NoDup_incl_length.
    + now apply getOptimalSession_keeps_distinct.
    + intros k Hk. apply in_map_iff in Hk as ([k0 r] & Heq & Hin). cbn [fst] in Heq. subst k0.
      revert Hin. rewrite (getOptimalSession_listed _ _ _ _ Hs), pick_session_eq.
      assert (Hrec : forall k r, In (k, r) (sessionCache (reconciled act now w)) ->
                                 In k (List.map Puppeteer.sessionId act))
        by (intros k1 r1; apply remove_stale_keys).
      destruct (List.find _ _) as [[k' info]|]; [apply Hrec|].
      destruct (List.filter _ act) as [|sel rest] eqn:Hf; [apply Hrec|].
      cbn [snd sessionCache with_sessionCache heap_alloc]. intros Hin.
      apply map_set_In in Hin as [Heq|Hin]; [|now apply (Hrec k r)].
      injection Heq as -> _. apply in_map.
      now apply adoptable_listed in Hf as (Hsel & _).
Qed.

Lemma strip_non_alnum_chars s c :
  In c (list_ascii_of_string (Js.strip_non_alnum s)) -> Js.alnum c = true.
Proof.
  induction s as [|a s IH]; cbn; [intros []|].
  destruct (Js.alnum a) eqn:E; [|exact IH].
  cbn. intros [<-|H]; [exact E|now apply IH].
Qed.

(** X15. A cache key is [html:] followed by letters and digits only: no
    character of the Base64 text other than [a-z], [A-Z] and [0-9] survives
    in it, whatever the target. *)
Theorem computeKey_is_alphanumeric reqUrl :
  exists s,
    computeKey reqUrl = "html:" +:+ s /\
    forall c, In c (list_ascii_of_string s) ->
      (97 <= Js.code c <= 122 \/ 65 <= Js.code c <= 90 \/ 48 <= Js.code c <= 57).
Proof.
  exists (Js.strip_non_alnum (Js.btoa reqUrl)). split; [reflexivity|].
  intros c Hc. apply strip_non_alnum_chars in Hc.
  unfold Js.alnum, Js.in_range in Hc.
  apply orb_true_iff in Hc as [Hc|Hc]; [apply orb_true_iff in Hc as [Hc|Hc]|];
    apply andb_true_iff in Hc as [H1 H2];
    apply Z.leb_le in H1; apply Z.leb_le in H2; cbn in H1, H2; auto.
Qed.

(** ** The request handler, path by path *)

Lemma others_no_launch t : others no_launch t = List.filter is_launch t.
Proof.
  unfold others. induction t as [|ev t IH]; [reflexivity|].
  cbn [List.filter]. rewrite IH. now destruct ev.
Qed.

Lemma others_no_disconnect t : others no_disconnect t = List.filter is_disconnect t.
Proof.
  unfold others. induction t as [|ev t IH]; [reflexivity|].
  cbn [List.filter]. rewrite IH. now destruct ev.
Qed.

(** A request that reuses a session and renders the page. *)
Lemma handle_miss_reused_ok env clock reqUrl cacheKey w w1 info b html w2 :
  getOptimalSession (MYBROWSER env) (now_acquire clock) w = (Ok (Some info), w1) ->
  Puppeteer.connect (MYBROWSER env) (sessionId (heap w1 info)) = Ok b ->
  render env b reqUrl
    (with_trace (trace w1 ++ [Connect (sessionId (heap w1 info))]) w1) = (Ok html, w2) ->
  let wa := heap_write info (set_inUse false (heap w2 info)) w2 in
  let wb := heap_write info (set_lastUsed (now_release clock) (heap wa info)) wa in
  handle_miss env clock reqUrl cacheKey w =
  (Ok (html_response html), snd (cache_store env cacheKey html wb)).
Proof.
  intros Hg Hc Hr wa wb. unfold handle_miss, run_scoped, try_catch, attempt.
  rewrite bind_eq, (obtain_browser_connected _ _ _ _ _ _ Hg Hc).
  unfold carry_on. rewrite bind_eq. unfold lift at 1. cbn [global]. rewrite Hr.
  rewrite bind_eq. unfold hand_back. rewrite bind_eq. cbn [gets id launched sessionInfo].
  rewrite bind_eq. unfold lift at 1. cbn [modify global].
  unfold lift at 1. cbn [modify global].
  rewrite bind_eq. unfold lift. cbn [global].
  fold wa. fold wb.
  destruct (cache_store_returns env cacheKey html wb) as [w4 ->]. reflexivity.
Qed.

Lemma cache_store_registry env key html w :
  sessionCache (snd (cache_store env key html w)) = sessionCache w /\
  heap (snd (cache_store env key html w)) = heap w /\
  heap_next (snd (cache_store env key html w)) = heap_next w.
Proof.
  unfold cache_store. destruct (HTML_CACHE env) as [ns|]; [|now repeat split].
  unfold try_catch, kv_put, call_void. rewrite !bind_eq. cbn.
  destruct (put_fault ns); cbn; now repeat split.
Qed.

(** A request for which no session was acquired and the launch succeeded. *)
Lemma handle_miss_launched env clock reqUrl cacheKey w w1 b :
  getOptimalSession (MYBROWSER env) (now_acquire clock) w = (Ok None, w1) ->
  Puppeteer.launch (MYBROWSER env) = Ok b ->
  handle_miss env clock reqUrl cacheKey w =
  run_scoped
    (fun _ => try_catch (carry_on env clock reqUrl cacheKey b) (recover clock reqUrl)
       {| browser := Some b; launched := true; sessionInfo := None;
          global := with_trace (trace w1 ++ [Launch]) w1 |}) w.
Proof.
  intros Hg Hb. unfold handle_miss, run_scoped, try_catch, attempt.
  rewrite bind_eq, (obtain_browser_none _ _ _ _ Hg), (launch_new_ok _ _ _ Hb).
  reflexivity.
Qed.

Lemma handle_miss_launch_fails env clock reqUrl cacheKey w w1 e :
  getOptimalSession (MYBROWSER env) (now_acquire clock) w = (Ok None, w1) ->
  Puppeteer.launch (MYBROWSER env) = Throw e ->
  handle_miss env clock reqUrl cacheKey w =
  (Ok (fault_response e reqUrl (now_iso clock)), with_trace (trace w1 ++ [Launch]) w1).
Proof.
  intros Hg Hb. unfold handle_miss, run_scoped, try_catch, attempt.
  rewrite bind_eq, (obtain_browser_none _ _ _ _ Hg).
  unfold launch_new, lift, call. rewrite !bind_eq. cbn. rewrite Hb. reflexivity.
Qed.

Lemma handle_miss_launched_fault env clock reqUrl cacheKey w w1 b error w2 :
  getOptimalSession (MYBROWSER env) (now_acquire clock) w = (Ok None, w1) ->
  Puppeteer.launch (MYBROWSER env) = Ok b ->
  render env b reqUrl (with_trace (trace w1 ++ [Launch]) w1) = (Throw error, w2) ->
  handle_miss env clock reqUrl cacheKey w =
  (Ok (fault_response error reqUrl (now_iso clock)),
   with_trace (trace w2 ++ [Disconnect]) w2).
Proof.
  intros Hg Hb Hr. rewrite (handle_miss_launched _ _ _ _ _ _ _ Hg Hb).
  unfold run_scoped, try_catch, carry_on. rewrite bind_eq. unfold lift at 1.
  cbn [global]. rewrite Hr.
  run_monad. destruct (Puppeteer.disconnect b); reflexivity.
Qed.

Lemma handle_miss_launched_ok env clock reqUrl cacheKey w w1 b html w2 sid :
  getOptimalSession (MYBROWSER env) (now_acquire clock) w = (Ok None, w1) ->
  Puppeteer.launch (MYBROWSER env) = Ok b ->
  render env b reqUrl (with_trace (trace w1 ++ [Launch]) w1) = (Ok html, w2) ->
  Puppeteer.browser_sessionId b = Some sid ->
  Js.truthy sid = true ->
  Puppeteer.disconnect b = None ->
  let wr := snd (heap_alloc {| sessionId := sid; lastUsed := now_release clock;
                               inUse := false |} w2) in
  let wc := with_sessionCache (map_set sid (heap_next w2) (sessionCache wr)) wr in
  handle_miss env clock reqUrl cacheKey w =
  (Ok (html_response html),
   snd (cache_store env cacheKey html (with_trace (trace wc ++ [Disconnect]) wc))).
Proof.
  intros Hg Hb Hr Hid Ht Hd wr wc. rewrite (handle_miss_launched _ _ _ _ _ _ _ Hg Hb).
  unfold run_scoped, try_catch, carry_on. rewrite bind_eq. unfold lift at 1.
  cbn [global]. rewrite Hr. subst wc wr.
  run_monad. rewrite Hid, Ht, Hd.
  destruct (HTML_CACHE env) as [ns|]; [|reflexivity].
  destruct (put_fault ns); reflexivity.
Qed.

(** What a request the cache did not answer can respond. *)
Lemma handle_miss_answer env clock reqUrl cacheKey w resp w' :
  handle_miss env clock reqUrl cacheKey w = (Ok resp, w') ->
  (exists html w3, resp = html_response html /\
                   cache_store env cacheKey html w3 = (Ok tt, w')) \/
  (exists e, resp = fault_response e reqUrl (now_iso clock)).
Proof.
  unfold handle_miss, run_scoped, try_catch.
  destruct (attempt env clock reqUrl cacheKey (enter w)) as [[r|e] s1] eqn:Ea.
  - intros H. injection H as <- <-. left.
    unfold attempt in Ea. rewrite bind_eq in Ea.
    destruct (obtain_browser env clock (enter w)) as [[b|e1] s2]; [|discriminate].
    unfold carry_on in Ea. rewrite bind_eq in Ea.
    destruct (lift (render env b reqUrl) s2) as [[html|e2] s3]; [|discriminate].
    rewrite bind_eq in Ea.
    destruct (hand_back clock b s3) as [[[]|e3] s4]; [|discriminate].
    rewrite bind_eq in Ea. unfold lift in Ea.
    destruct (cache_store env cacheKey html (global s4)) as [[[]|e4] w5] eqn:Es;
      [|discriminate].
    injection Ea as <- <-. exists html, (global s4). split; [reflexivity|exact Es].
  - destruct (recover_returns clock reqUrl e s1) as [s' ->].
    intros H. injection H as <- <-. right. now exists e.
Qed.

(** The calls of a rendering that fails somewhere before [page.close()]. *)
Lemma render_fault_trace env b reqUrl w error w2 page :
  render env b reqUrl w = (Throw error, w2) ->
  Puppeteer.newPage b = Ok page ->
  Puppeteer.close page = None ->
  exists evs,
    trace w2 = trace w ++ NewPage :: evs /\
    ~ In PageClose evs /\ ~ In Disconnect evs.
Proof.
  intros Hr Hp Hc. revert Hr. unfold render, call, call_void. rewrite !bind_eq.
  cbn. rewrite Hp. cbn.
  assert (Hnot : forall l : list Event,
            Forall (fun ev => kind ev = KPage /\ ev <> PageClose) l ->
            ~ In PageClose l /\ ~ In Disconnect l).
  { intros l Hl. rewrite List.Forall_forall in Hl. split; intros Hin.
    - now destruct (Hl _ Hin) as [_ Hne].
    - now destruct (Hl _ Hin) as [Hk _]. }
  destruct (Puppeteer.setUserAgent page); cbn.
  { intros H. injection H as _ <-. cbn [trace]. rewrite <- !app_assoc. cbn.
    eexists. split; [reflexivity|]. apply Hnot. repeat constructor; discriminate. }
  destruct (Puppeteer.setRequestInterception page); cbn.
  { intros H. injection H as _ <-. cbn [trace]. rewrite <- !app_assoc. cbn.
    eexists. split; [reflexivity|]. apply Hnot. repeat constructor; discriminate. }
  destruct (Puppeteer.goto page); cbn.
  2:{ intros H. injection H as _ <-. cbn [trace]. rewrite <- !app_assoc. cbn.
      eexists. split; [reflexivity|]. apply Hnot. repeat constructor; discriminate. }
  destruct (Puppeteer.content page); cbn.
  2:{ intros H. injection H as _ <-. cbn [trace]. rewrite <- !app_assoc. cbn.
      eexists. split; [reflexivity|]. apply Hnot. repeat constructor; discriminate. }
  rewrite Hc. cbn. discriminate.
Qed.

Section Paths.

Variable decodeURIComponent : string -> option string.
Variable URL_toString : string -> option string.

#[local] Abbreviation worker := (fetch decodeURIComponent URL_toString).
#[local] Abbreviation aims := (targets decodeURIComponent URL_toString).
#[local] Abbreviation normal := (normalize decodeURIComponent URL_toString).

(** X6. A request that reuses a registry session and renders the page hands
    the session back: the registry is as acquisition left it, the session's
    object is marked free with [lastUsed] set to the time of release, no
    other object changes, and the request neither launches nor disconnects
    a browser. *)
Theorem reused_session_is_released request env clock reqUrl w w0 w1 info b html w2 :
  aims request reqUrl ->
  cache_lookup env (computeKey reqUrl) w = (Ok None, w0) ->
  getOptimalSession (MYBROWSER env) (now_acquire clock) w0 = (Ok (Some info), w1) ->
  Puppeteer.connect (MYBROWSER env) (sessionId (heap w1 info)) = Ok b ->
  render env b reqUrl
    (with_trace (trace w1 ++ [Connect (sessionId (heap w1 info))]) w1) = (Ok html, w2) ->
  exists w',
    worker request env clock w = (Ok (html_response html), w') /\
    sessionCache w' = sessionCache w1 /\
    heap w' info = {| sessionId := sessionId (heap w1 info);
                      lastUsed := now_release clock; inUse := false |} /\
    (forall r, r <> info -> heap w' r = heap w1 r) /\
    List.filter is_launch (trace w') = List.filter is_launch (trace w) /\
    List.filter is_disconnect (trace w') = List.filter is_disconnect (trace w).
Proof.
  intros Ha Hl Hg Hc Hr. rewrite (fetch_target _ _ _ _ _ _ _ Ha), Hl.
  rewrite (handle_miss_reused_ok _ _ _ _ _ _ _ _ _ _ Hg Hc Hr).
  eexists. split; [reflexivity|].
  pose proof (render_touches_trace_only _ _ _ _ _ _ Hr) as Hw2.
  match goal with
  | |- context [cache_store env ?k html ?wb] =>
      destruct (cache_store_registry env k html wb) as (Hsc & Hh & _);
      pose proof (confined_cache_store no_launch env k html eq_refl wb _ _
                    (surjective_pairing _)) as [Hn1 _];
      pose proof (confined_cache_store no_disconnect env k html eq_refl wb _ _
                    (surjective_pairing _)) as [Hn2 _]
  end.
  rewrite Hsc, Hh. unfold id in *.
  rewrite !others_no_launch in Hn1. rewrite !others_no_disconnect in Hn2.
  rewrite Hn1, Hn2. clear Hsc Hh Hn1 Hn2.
  cbn [sessionCache heap heap_write trace]. rewrite !Nat.eqb_refl.
  rewrite Hw2. cbn [sessionCache heap with_trace trace].
  split; [reflexivity|]. split; [reflexivity|]. split.
  { intros r Hne. apply Nat.eqb_neq in Hne. now rewrite Hne. }
  pose proof (confined_render no_launch env b reqUrl eq_refl _ _ _ Hr) as [Hr1 _].
  pose proof (confined_render no_disconnect env b reqUrl eq_refl _ _ _ Hr) as [Hr2 _].
  pose proof (confined_getOptimalSession no_launch _ _ eq_refl _ _ _ Hg) as [Hg1 _].
  pose proof (confined_getOptimalSession no_disconnect _ _ eq_refl _ _ _ Hg) as [Hg2 _].
  pose proof (confined_cache_lookup no_launch _ _ eq_refl _ _ _ Hl) as [Hl1 _].
  pose proof (confined_cache_lookup no_disconnect _ _ eq_refl _ _ _ Hl) as [Hl2 _].
  unfold id in *.
  rewrite !others_no_launch in *. rewrite !others_no_disconnect in *.
  cbn [trace with_trace] in Hr1, Hr2. rewrite List.filter_app in Hr1, Hr2.
  cbn [List.filter is_launch is_disconnect] in Hr1, Hr2. rewrite app_nil_r in Hr1, Hr2.
  split; congruence.
Qed.

Lemma lookup_quiet (allowed : Kind -> bool) env key w o w0 :
  allowed KGet = true ->
  cache_lookup env key w = (o, w0) ->
  others allowed (trace w0) = others allowed (trace w).
Proof.
  intros Hk Hl. now destruct (confined_cache_lookup allowed env key Hk _ _ _ Hl).
Qed.

Lemma acquisition_quiet (allowed : Kind -> bool) endpoint now w o w1 :
  allowed KList = true ->
  getOptimalSession endpoint now w = (o, w1) ->
  others allowed (trace w1) = others allowed (trace w).
Proof.
  intros Hk Hg. now destruct (confined_getOptimalSession allowed endpoint now Hk _ _ _ Hg).
Qed.

Lemma render_quiet (allowed : Kind -> bool) env b reqUrl w o w2 :
  allowed KPage = true ->
  render env b reqUrl w = (o, w2) ->
  others allowed (trace w2) = others allowed (trace w).
Proof.
  intros Hk Hr. now destruct (confined_render allowed env b reqUrl Hk _ _ _ Hr).
Qed.

Lemma store_quiet (allowed : Kind -> bool) env key html w :
  allowed KPut = true ->
  others allowed (trace (snd (cache_store env key html w))) = others allowed (trace w).
Proof.
  intros Hk.
  now destruct (confined_cache_store allowed env key html Hk w _ _ (surjective_pairing _)).
Qed.

(** X7. When no session could be acquired, the launched browser renders the
    page and reports a session id, the handler files that session as free
    with [lastUsed] set to the time of release, under a new object, leaves
    the other objects as they were, and launches and disconnects exactly
    once. *)
Theorem launched_session_is_registered request env clock reqUrl w w0 w1 b html w2 sid :
  aims request reqUrl ->
  cache_lookup env (computeKey reqUrl) w = (Ok None, w0) ->
  getOptimalSession (MYBROWSER env) (now_acquire clock) w0 = (Ok None, w1) ->
  Puppeteer.launch (MYBROWSER env) = Ok b ->
  render env b reqUrl (with_trace (trace w1 ++ [Launch]) w1) = (Ok html, w2) ->
  Puppeteer.browser_sessionId b = Some sid ->
  sid <> "" ->
  Puppeteer.disconnect b = None ->
  exists w',
    worker request env clock w = (Ok (html_response html), w') /\
    sessionCache w' = map_set sid (heap_next w1) (sessionCache w1) /\
    In (sid, heap_next w1) (sessionCache w') /\
    heap w' (heap_next w1) =
      {| sessionId := sid; lastUsed := now_release clock; inUse := false |} /\
    (forall r, r <> heap_next w1 -> heap w' r = heap w1 r) /\
    List.filter is_launch (trace w') = List.filter is_launch (trace w) ++ [Launch] /\
    List.filter is_disconnect (trace w') =
      List.filter is_disconnect (trace w) ++ [Disconnect].
Proof.
  intros Ha Hl Hg Hb Hr Hid Hne Hd. rewrite (fetch_target _ _ _ _ _ _ _ Ha), Hl.
  assert (Ht : Js.truthy sid = true) by (destruct sid; [congruence|reflexivity]).
  rewrite (handle_miss_launched_ok _ _ _ _ _ _ _ _ _ _ Hg Hb Hr Hid Ht Hd).
  eexists. split; [reflexivity|].
  pose proof (render_touches_trace_only _ _ _ _ _ _ Hr) as Hw2.
  match goal with
  | |- context [cache_store env ?k html ?wb] =>
      destruct (cache_store_registry env k html wb) as (Hsc & Hh & _);
      pose proof (store_quiet no_launch env k html wb eq_refl) as Hn1;
      pose proof (store_quiet no_disconnect env k html wb eq_refl) as Hn2
  end.
  rewrite Hsc, Hh. rewrite !others_no_launch in Hn1. rewrite !others_no_disconnect in Hn2.
  rewrite Hn1, Hn2. clear Hsc Hh Hn1 Hn2.
  cbn [sessionCache heap heap_alloc with_sessionCache with_trace trace snd heap_next].
  rewrite Hw2. cbn [sessionCache heap with_trace trace heap_next].
  split; [reflexivity|]. split; [apply map_set_has|].
  rewrite Nat.eqb_refl. split; [reflexivity|]. split.
  { intros r Hr'. apply Nat.eqb_neq in Hr'. now rewrite Hr'. }
  pose proof (render_quiet no_launch _ _ _ _ _ _ eq_refl Hr) as Hr1.
  pose proof (render_quiet no_disconnect _ _ _ _ _ _ eq_refl Hr) as Hr2.
  pose proof (acquisition_quiet no_launch _ _ _ _ _ eq_refl Hg) as Hg1.
  pose proof (acquisition_quiet no_disconnect _ _ _ _ _ eq_refl Hg) as Hg2.
  pose proof (lookup_quiet no_launch _ _ _ _ _ eq_refl Hl) as Hl1.
  pose proof (lookup_quiet no_disconnect _ _ _ _ _ eq_refl Hl) as Hl2.
  rewrite !others_no_launch in *. rewrite !others_no_disconnect in *.
  cbn [trace with_trace] in Hr2. rewrite !List.filter_app in *.
  cbn [List.filter is_launch is_disconnect trace with_trace] in *.
  rewrite ?app_nil_r in *. rewrite List.filter_app in Hr1. cbn in Hr1.
  split; congruence.
Qed.

(** X8. When no session could be acquired and the launch fails, the request
    is answered 500 with the message of the launch error; the launch is its
    last call to the outside, nothing is disconnected and the registry is as
    acquisition left it. *)
Theorem failed_launch_is_reported request env clock reqUrl w w0 w1 e :
  aims request reqUrl ->
  cache_lookup env (computeKey reqUrl) w = (Ok None, w0) ->
  getOptimalSession (MYBROWSER env) (now_acquire clock) w0 = (Ok None, w1) ->
  Puppeteer.launch (MYBROWSER env) = Throw e ->
  worker request env clock w =
  (Ok {| status := 500;
         body := BodyJson [("success", JBool false);
                           ("error", JString (error_message e));
                           ("url", JString reqUrl);
                           ("timestamp", JString (now_iso clock))];
         headers := json_headers |},
   with_trace (trace w1 ++ [Launch]) w1).
Proof.
  intros Ha Hl Hg Hb. rewrite (fetch_target _ _ _ _ _ _ _ Ha), Hl.
  now rewrite (handle_miss_launch_fails _ _ _ _ _ _ _ Hg Hb).
Qed.

(** X9. When the browser the handler launched fails to render the page, the
    request is answered 500 with the message of that fault, whatever the
    disconnect does; the browser is disconnected once, and its session is not
    filed: registry and objects are as acquisition left them. *)
Theorem failed_render_of_launched_browser request env clock reqUrl w w0 w1 b error w2 :
  aims request reqUrl ->
  cache_lookup env (computeKey reqUrl) w = (Ok None, w0) ->
  getOptimalSession (MYBROWSER env) (now_acquire clock) w0 = (Ok None, w1) ->
  Puppeteer.launch (MYBROWSER env) = Ok b ->
  render env b reqUrl (with_trace (trace w1 ++ [Launch]) w1) = (Throw error, w2) ->
  exists w',
    worker request env clock w = (Ok (fault_response error reqUrl (now_iso clock)), w') /\
    sessionCache w' = sessionCache w1 /\
    heap w' = heap w1 /\
    trace w' = trace w2 ++ [Disconnect] /\
    List.filter is_disconnect (trace w') =
      List.filter is_disconnect (trace w) ++ [Disconnect].
Proof.
  intros Ha Hl Hg Hb Hr. rewrite (fetch_target _ _ _ _ _ _ _ Ha), Hl.
  rewrite (handle_miss_launched_fault _ _ _ _ _ _ _ _ _ Hg Hb Hr).
  eexists. split; [reflexivity|].
  pose proof (render_touches_trace_only _ _ _ _ _ _ Hr) as Hw2.
  cbn [sessionCache heap with_trace trace]. rewrite Hw2.
  cbn [sessionCache heap with_trace trace].
  split; [reflexivity|]. split; [reflexivity|]. split; [reflexivity|].
  pose proof (render_quiet no_disconnect _ _ _ _ _ _ eq_refl Hr) as Hr2.
  pose proof (acquisition_quiet no_disconnect _ _ _ _ _ eq_refl Hg) as Hg2.
  pose proof (lookup_quiet no_disconnect _ _ _ _ _ eq_refl Hl) as Hl2.
  rewrite !others_no_disconnect in *. cbn [trace with_trace] in Hr2.
  rewrite !List.filter_app in *. cbn [List.filter is_disconnect] in *.
  rewrite ?app_nil_r in *. congruence.
Qed.

(** X10. With a Content Store that answers, a request answered 200 is
    answered from the store the next time: as long as the document is not
    empty, a later request for the same target gets the same document, and
    the lookup is its only call to the outside. *)
Theorem served_page_is_cached request env clock reqUrl ns w resp w' :
  aims request reqUrl ->
  HTML_CACHE env = Some ns ->
  get_fault ns = None ->
  put_fault ns = None ->
  worker request env clock w = (Ok resp, w') ->
  status resp = 200 ->
  exists html,
    body resp = BodyText html /\
    kv w' !! computeKey reqUrl = Some html /\
    (html <> "" ->
     forall clock',
       worker request env clock' w' =
       (Ok {| status := 200; body := BodyText html;
              headers := [("content-type", "text/html;charset=UTF-8");
                          ("access-control-allow-origin", "*");
                          ("cache-control", "public, max-age=3600")] |},
        with_trace (trace w' ++ [KvGet (computeKey reqUrl)]) w')).
Proof.
  intros Ha Hc Hgf Hpf Hf Hs.
  assert (Hhit : forall html w1 clock',
            kv w1 !! computeKey reqUrl = Some html -> html <> "" ->
            worker request env clock' w1 =
            (Ok (cache_hit_response html),
             with_trace (trace w1 ++ [KvGet (computeKey reqUrl)]) w1)).
  { intros html w1 clock' Hk Hne. rewrite (fetch_target _ _ _ _ _ _ _ Ha).
    unfold cache_lookup. rewrite Hc. unfold try_catch, kv_get, call_void.
    rewrite !bind_eq. rewrite Hgf. cbn. rewrite Hk.
    destruct html; [congruence | reflexivity]. }
  rewrite (fetch_target _ _ _ _ _ _ _ Ha) in Hf.
  destruct (cache_lookup env (computeKey reqUrl) w) as [[[cached|]|e] w0] eqn:Hl.
  - injection Hf as <- <-. exists cached.
    unfold cache_lookup in Hl. rewrite Hc in Hl.
    unfold try_catch, kv_get, call_void in Hl. rewrite !bind_eq in Hl.
    rewrite Hgf in Hl. cbn in Hl.
    destruct (kv w !! computeKey reqUrl) as [[|c s]|] eqn:Hk; cbn in Hl; try discriminate.
    injection Hl as <- <-. cbn [body cache_hit_response kv with_trace].
    split; [reflexivity|]. split; [exact Hk|].
    intros _ clock'. apply Hhit; [exact Hk|discriminate].
  - destruct (handle_miss_answer _ _ _ _ _ _ _ Hf) as [(html & w3 & -> & Hst)|[e ->]];
      [|discriminate Hs].
    exists html. split; [reflexivity|].
    assert (Hk : kv w' !! computeKey reqUrl = Some html).
    { unfold cache_store in Hst. rewrite Hc in Hst.
      unfold try_catch, kv_put, call_void in Hst. rewrite !bind_eq in Hst.
      rewrite Hpf in Hst. cbn in Hst. injection Hst as <-.
      cbn [kv with_kv]. apply lookup_insert_eq. }
    split; [exact Hk|]. intros Hne clock'. now apply Hhit.
  - discriminate Hf.
Qed.

(** X11. Whatever the request, the handler answers with one of the statuses
    200, 204, 400, 405 and 500, and every answer carries the header
    [access-control-allow-origin: *]. *)
Theorem every_answer_allows_any_origin request env clock w resp w' :
  worker request env clock w = (Ok resp, w') ->
  In (status resp) [200; 204; 400; 405; 500] /\
  In ("access-control-allow-origin", "*") (headers resp).
Proof.
  unfold fetch.
  destruct (String.eqb (method request) "OPTIONS");
    [intros H; injection H as <- _; cbn; auto|].
  destruct (_ && _).
  - destruct (negb _); [intros H; injection H as <- _; cbn; auto 10|].
    destruct (normalize _ _ _) as [reqUrl|]; [|intros H; injection H as <- _; cbn; auto 10].
    rewrite bind_eq.
    destruct (cache_lookup env (computeKey reqUrl) w) as [[[cached|]|e] w0];
      [intros H; injection H as <- _; cbn; auto 10| |discriminate].
    intros H. destruct (handle_miss_answer _ _ _ _ _ _ _ H) as [(html & w3 & -> & _)|[e ->]];
      cbn; auto 10.
  - destruct (_ && _); intros H; injection H as <- _; cbn; auto 10.
Qed.

(** X12. A request that is refused or set aside (answers 400, 204 and 405,
    and every [OPTIONS] request) makes no call to the outside and leaves
    registry, objects and store exactly as they were. *)
Theorem refused_request_touches_nothing request env clock w resp w' :
  worker request env clock w = (Ok resp, w') ->
  method request = "OPTIONS" \/ In (status resp) [400; 204; 405] ->
  w' = w.
Proof.
  unfold fetch. intros H Hcase.
  destruct (String.eqb (method request) "OPTIONS") eqn:Hm;
    [now injection H as _ <-|].
  destruct Hcase as [Ho|Hst]; [rewrite Ho in Hm; discriminate Hm|].
  destruct (_ && _).
  - destruct (negb _); [now injection H as _ <-|].
    destruct (normalize _ _ _) as [reqUrl|]; [|now injection H as _ <-].
    rewrite bind_eq in H.
    destruct (cache_lookup env (computeKey reqUrl) w) as [[[cached|]|e] w0];
      [injection H as <- _; cbn in Hst; intuition discriminate| |discriminate].
    destruct (handle_miss_answer _ _ _ _ _ _ _ H) as [(html & w3 & -> & _)|[e ->]];
      cbn in Hst; intuition discriminate.
  - destruct (_ && _); now injection H as _ <-.
Qed.

(** X16. When the rendering on a reused session fails after the page was
    opened (anywhere before [page.close()]), the handler answers 500 and makes
    no further call: after [newPage] the page is never closed and the browser
    never disconnected. *)
Theorem fault_on_reused_session_leaves_page_open
    request env clock reqUrl w w0 w1 info b page error w2 :
  aims request reqUrl ->
  cache_lookup env (computeKey reqUrl) w = (Ok None, w0) ->
  getOptimalSession (MYBROWSER env) (now_acquire clock) w0 = (Ok (Some info), w1) ->
  Puppeteer.connect (MYBROWSER env) (sessionId (heap w1 info)) = Ok b ->
  Puppeteer.newPage b = Ok page ->
  Puppeteer.close page = None ->
  render env b reqUrl
    (with_trace (trace w1 ++ [Connect (sessionId (heap w1 info))]) w1) = (Throw error, w2) ->
  exists w' evs,
    worker request env clock w = (Ok (fault_response error reqUrl (now_iso clock)), w') /\
    trace w' = trace w1 ++ Connect (sessionId (heap w1 info)) :: NewPage :: evs /\
    ~ In PageClose evs /\ ~ In Disconnect evs.
Proof.
  intros Ha Hl Hg Hc Hp Hcl Hr. rewrite (fetch_target _ _ _ _ _ _ _ Ha), Hl.
  rewrite (handle_miss_reusing _ _ _ _ _ _ _ _ _ _ Hg Hc Hr).
  destruct (render_fault_trace _ _ _ _ _ _ _ Hr Hp Hcl) as (evs & Ht & Hn1 & Hn2).
  eexists. exists evs. split; [reflexivity|]. split; [|now split].
  cbn [trace with_trace] in Ht. rewrite <- app_assoc in Ht. cbn in Ht.
  destruct (null_read error); cbn [trace with_sessionCache heap_write]; exact Ht.
Qed.

End Paths.

(** ** Warming up *)

Lemma map_set_length k r c :
  (length (map_set k r c) <= S (length c))%nat.
Proof.
  rewrite <- (List.length_map fst (map_set k r c)), map_set_keys.
  destruct (map_has k c); rewrite ?List.length_app, List.length_map; cbn [length]; lia.
Qed.

Lemma steady_warmupSessions endpoint now : steady id (warmupSessions endpoint now).
Proof.
  unfold warmupSessions.
  apply respects_bind; [apply stays_trans|apply respects_gets, stays_refl|].
  intros size. destruct (size >=? MAX_SESSIONS); [apply respects_ret, stays_refl|].
  apply respects_try_catch; [apply stays_trans| |intros e; apply respects_ret, stays_refl].
  apply respects_bind; [apply stays_trans|apply steady_call|]. intros b.
  apply respects_bind; [apply stays_trans| |intros _; apply steady_call_void].
  destruct (Puppeteer.browser_sessionId b) as [sid|]; [|apply respects_ret, stays_refl].
  destruct (Js.truthy sid); [|apply respects_ret, stays_refl].
  now apply steady_cache_set.
Qed.

(** X17. [warmupSessions] never throws, whatever the launch and the
    disconnect do. With [MAX_SESSIONS] entries or more in the registry it
    does nothing at all; otherwise it leaves the registry as it was or sets
    one key, to a new object: it adds at most one entry, so that the registry
    does not grow past [MAX_SESSIONS] by it. It leaves the Content Store
    alone and keeps the registry well formed. *)
Theorem warmup_is_capped endpoint now w :
  exists w',
    warmupSessions endpoint now w = (Ok tt, w') /\
    (MAX_SESSIONS <= Z.of_nat (length (sessionCache w)) -> w' = w) /\
    (sessionCache w' = sessionCache w \/
     exists sid, sessionCache w' = map_set sid (heap_next w) (sessionCache w)) /\
    (length (sessionCache w') <= S (length (sessionCache w)))%nat /\
    Z.of_nat (length (sessionCache w')) <=
      Z.max (Z.of_nat (length (sessionCache w))) MAX_SESSIONS /\
    kv w' = kv w /\
    (well_formed w -> well_formed w').
Proof.
  destruct (warmupSessions endpoint now w) as [o w'] eqn:E.
  pose proof (steady_warmupSessions endpoint now w o w' E) as Hwf.
  unfold id, stays_well_formed in Hwf.
  assert (Hsize : forall c : list (string * loc),
            (c = sessionCache w \/ exists sid, c = map_set sid (heap_next w) (sessionCache w)) ->
            Z.of_nat (length (sessionCache w)) < MAX_SESSIONS ->
            (length c <= S (length (sessionCache w)))%nat /\
            Z.of_nat (length c) <= Z.max (Z.of_nat (length (sessionCache w))) MAX_SESSIONS).
  { intros c [->|[sid ->]] Hlt; [lia|].
    pose proof (map_set_length sid (heap_next w) (sessionCache w)). lia. }
  revert E. unfold warmupSessions. rewrite bind_eq. cbn [gets].
  destruct (Z.of_nat (length (sessionCache w)) >=? MAX_SESSIONS) eqn:Hcap.
  - intros E. injection E as <- <-. exists w.
    split; [reflexivity|]. split; [reflexivity|]. split; [now left|].
    split; [lia|]. split; [lia|]. split; [reflexivity|exact Hwf].
  - assert (Hlt : Z.of_nat (length (sessionCache w)) < MAX_SESSIONS) by lia.
    assert (Hdone : forall w1 : World,
              (sessionCache w1 = sessionCache w \/
               exists sid, sessionCache w1 = map_set sid (heap_next w) (sessionCache w)) ->
              kv w1 = kv w -> (well_formed w -> well_formed w1) ->
              (MAX_SESSIONS <= Z.of_nat (length (sessionCache w)) -> w1 = w) /\
              (sessionCache w1 = sessionCache w \/
               exists sid, sessionCache w1 = map_set sid (heap_next w) (sessionCache w)) /\
              (length (sessionCache w1) <= S (length (sessionCache w)))%nat /\
              Z.of_nat (length (sessionCache w1)) <=
                Z.max (Z.of_nat (length (sessionCache w))) MAX_SESSIONS /\
              kv w1 = kv w /\ (well_formed w -> well_formed w1)).
    { intros w1 Hc Hk Hw. destruct (Hsize _ Hc Hlt) as [Hl1 Hl2].
      split; [lia|]. repeat (split; [assumption|]). exact Hw. }
    run_monad.
    destruct (Puppeteer.launch endpoint) as [b|e].
    2:{ intros E. injection E as <- <-. eexists. split; [reflexivity|].
        apply Hdone; [now left|reflexivity|exact Hwf]. }
    destruct (Puppeteer.browser_sessionId b) as [[|c sid]|]; cbn [Js.truthy];
      destruct (Puppeteer.disconnect b); intros E; injection E as <- <-;
      eexists; (split; [reflexivity|]);
      (apply Hdone; [|reflexivity|exact Hwf]);
      cbn [sessionCache heap_next with_trace with_sessionCache];
      first [now left | right; eexists; reflexivity].
Qed.

(** X18. Below the cap, when the launch succeeds and the browser reports a
    session id, [warmupSessions] files that session as free, last used now,
    and disconnects from it; what the disconnect does makes no difference. *)
Theorem warmed_session_is_filed_free endpoint now w b sid :
  Z.of_nat (length (sessionCache w)) < MAX_SESSIONS ->
  Puppeteer.launch endpoint = Ok b ->
  Puppeteer.browser_sessionId b = Some sid ->
  sid <> "" ->
  exists w',
    warmupSessions endpoint now w = (Ok tt, w') /\
    sessionCache w' = map_set sid (heap_next w) (sessionCache w) /\
    In (sid, heap_next w) (sessionCache w') /\
    heap w' (heap_next w) = {| sessionId := sid; lastUsed := now; inUse := false |} /\
    (forall r, r <> heap_next w -> heap w' r = heap w r) /\
    trace w' = trace w ++ [Launch; Disconnect].
Proof.
  intros Hlt Hb Hid Hne. unfold warmupSessions. rewrite bind_eq. cbn [gets].
  destruct (Z.of_nat (length (sessionCache w)) >=? MAX_SESSIONS) eqn:Hsize; [lia|].
  assert (Ht : Js.truthy sid = true) by (destruct sid; [congruence|reflexivity]).
  run_monad. rewrite Hb, Hid, Ht.
  destruct (Puppeteer.disconnect b); eexists; (split; [reflexivity|]);
    cbn [sessionCache heap heap_next trace with_trace with_sessionCache];
    rewrite Nat.eqb_refl, <- app_assoc;
    (split; [reflexivity|]); (split; [apply map_set_has|]);
    (split; [reflexivity|]); (split; [|reflexivity]);
    intros r Hr; apply Nat.eqb_neq in Hr; now rewrite Hr.
Qed.

(** ** The older handler *)

Section LegacyFacts.

Variable URL_toString : string -> option string.
Variable URL_error : string -> Thrown.
Variable random_index : nat -> nat.

#[local] Abbreviation legacy_fetch :=
  (LegacyWorker.fetch URL_toString URL_error random_index).
#[local] Abbreviation legacy_pick := (LegacyWorker.getRandomSession random_index).

(** The ids [getRandomSession] draws from. *)
#[local] Abbreviation idle_ids act :=
  (List.map Puppeteer.sessionId
     (List.filter (fun v => negb (Js.truthy_opt (Puppeteer.connectionId v))) act)).

Lemma getRandomSession_listed endpoint act t :
  LegacyWorker.sessions endpoint = Ok act ->
  legacy_pick endpoint t =
  (Ok (if Nat.eqb (length (idle_ids act)) 0 then None
       else nth_error (idle_ids act) (random_index (length (idle_ids act)))),
   t ++ [LegacyWorker.Sessions]).
Proof.
  intros Hs. unfold LegacyWorker.getRandomSession, LegacyWorker.call, LegacyWorker.emit.
  rewrite !bind_eq. cbn. rewrite Hs. cbn.
  destruct (Nat.eqb _ 0); reflexivity.
Qed.

Lemma getRandomSession_unlisted endpoint e t :
  LegacyWorker.sessions endpoint = Throw e ->
  legacy_pick endpoint t = (Throw e, t ++ [LegacyWorker.Sessions]).
Proof.
  intros Hs. unfold LegacyWorker.getRandomSession, LegacyWorker.call, LegacyWorker.emit.
  rewrite !bind_eq. cbn. now rewrite Hs.
Qed.

(** X19. When the listing succeeds, [getRandomSession] makes that one call
    and returns either nothing or the id of a listed session that has no
    connection; as long as the index drawn lies within the array, it returns
    nothing only when every listed session has a connection. *)
Theorem getRandomSession_picks_idle endpoint act t :
  LegacyWorker.sessions endpoint = Ok act ->
  exists found,
    legacy_pick endpoint t = (Ok found, t ++ [LegacyWorker.Sessions]) /\
    (forall sid, found = Some sid ->
       exists a, In a act /\ Puppeteer.sessionId a = sid /\
                 Js.truthy_opt (Puppeteer.connectionId a) = false) /\
    ((forall n, (0 < n)%nat -> (random_index n < n)%nat) ->
     (found = None <->
      forall a, In a act -> Js.truthy_opt (Puppeteer.connectionId a) = true)).
Proof.
  intros Hs. rewrite (getRandomSession_listed _ _ _ Hs). eexists. split; [reflexivity|].
  split.
  - intros sid Hf. destruct (Nat.eqb _ 0); [discriminate|].
    apply nth_error_In in Hf. apply in_map_iff in Hf as (a & Ha & Hin).
    apply filter_In in Hin as [Hin Hidle]. apply negb_true_iff in Hidle. now exists a.
  - intros Hdraw. destruct (Nat.eqb (length (idle_ids act)) 0) eqn:Hlen.
    + apply Nat.eqb_eq in Hlen. split; [intros _|reflexivity].
      intros a Hin. destruct (Js.truthy_opt (Puppeteer.connectionId a)) eqn:Hc; [reflexivity|].
      assert (Hmem : In (Puppeteer.sessionId a) (idle_ids act)).
      { apply in_map, filter_In. split; [exact Hin|]. now rewrite Hc. }
      destruct (idle_ids act); [destruct Hmem|discriminate Hlen].
    + apply Nat.eqb_neq in Hlen.
      assert (Hin : (random_index (length (idle_ids act)) < length (idle_ids act))%nat)
        by (apply Hdraw; lia).
      apply nth_error_Some in Hin.
      split; [intros Hn; contradiction|].
      intros Hall. exfalso. apply Hlen. rewrite List.length_map.
      destruct (List.filter _ act) as [|a l] eqn:Hf; [reflexivity|].
      assert (Ha : In a (List.filter
                (fun v => negb (Js.truthy_opt (Puppeteer.connectionId v))) act))
        by (rewrite Hf; now left).
      apply filter_In in Ha as [Ha Hidle]. rewrite (Hall a Ha) in Hidle. discriminate Hidle.
Qed.

Ltac run_legacy :=
  cbv [LegacyWorker.connect_or_launch LegacyWorker.work LegacyWorker.on_fault
       LegacyWorker.call LegacyWorker.call_void LegacyWorker.emit
       try_catch mbind M_bind mret M_ret modify settle throw].

Lemma legacy_pick_trace endpoint t o t1 :
  legacy_pick endpoint t = (o, t1) -> t1 = t ++ [LegacyWorker.Sessions].
Proof.
  destruct (LegacyWorker.sessions endpoint) as [act|e] eqn:Hs.
  - rewrite (getRandomSession_listed _ _ _ Hs). now intros H; injection H as _ <-.
  - rewrite (getRandomSession_unlisted _ _ _ Hs). now intros H; injection H as _ <-.
Qed.

Lemma connect_or_launch_cases env found t o t2 :
  LegacyWorker.connect_or_launch env found t = (o, t2) ->
  List.filter LegacyWorker.is_disconnect t2 = List.filter LegacyWorker.is_disconnect t /\
  match o with
  | Ok (b, launched) => LegacyWorker.serves env b
  | Throw e => LegacyWorker.launch env = Throw e
  end.
Proof.
  unfold LegacyWorker.serves. run_legacy.
  destruct found as [[|c sid]|]; cbn [Js.truthy].
  2: destruct (LegacyWorker.connect env (String c sid)) as [b|ce] eqn:Hc.
  2:{ intros H. injection H as <- <-. rewrite List.filter_app, app_nil_r. eauto. }
  all: destruct (LegacyWorker.launch env) as [b|le] eqn:Hl;
    intros H; injection H as <- <-; rewrite ?List.filter_app, ?app_nil_r; auto.
Qed.

(** The [try]/[catch] statement on a page. *)
Lemma legacy_attempt_cases request reqUrl b launched page t o t' :
  try_catch (LegacyWorker.work request reqUrl b launched page)
            (LegacyWorker.on_fault reqUrl b launched) t = (o, t') ->
  match o with
  | Throw e => LegacyWorker.disconnect b = Some e
  | Ok resp =>
      LegacyWorker.disconnect b = None ->
      List.filter LegacyWorker.is_disconnect t' =
        List.filter LegacyWorker.is_disconnect t ++ [LegacyWorker.Disconnect] /\
      (LegacyWorker.status resp = 500 \/
       exists code doc,
         LegacyWorker.goto page = Ok (Some code) /\ code < 400 /\
         LegacyWorker.evaluate page = Ok doc /\
         resp = if LegacyWorker.wantsJson request
                then LegacyWorker.json_response reqUrl launched (LegacyWorker.sessionId b)
                       (LegacyWorker.extract doc)
                else LegacyWorker.html_response (LegacyWorker.extract doc) reqUrl
                       (LegacyWorker.sessionId b))
  end.
Proof.
  run_legacy.
  destruct (LegacyWorker.setDefaultTimeout page) as [e0|].
  { destruct (LegacyWorker.disconnect b) eqn:Hd; intros H; injection H as <- <-;
      [reflexivity|]. intros _. rewrite !List.filter_app, app_nil_r. cbn. auto. }
  destruct (LegacyWorker.goto page) as [[code|]|e1] eqn:Hg.
  2,3: destruct (LegacyWorker.disconnect b) eqn:Hd; intros H; injection H as <- <-;
      [reflexivity|]; intros _; rewrite !List.filter_app, !app_nil_r; cbn; auto.
  destruct (code >=? 400) eqn:Hcode.
  { destruct (LegacyWorker.disconnect b) eqn:Hd; intros H; injection H as <- <-;
      [reflexivity|]. intros _. rewrite !List.filter_app, !app_nil_r. cbn. auto. }
  destruct (LegacyWorker.evaluate page) as [doc|e2] eqn:He.
  2:{ destruct (LegacyWorker.disconnect b) eqn:Hd; intros H; injection H as <- <-;
      [reflexivity|]. intros _. rewrite !List.filter_app, !app_nil_r. cbn. auto. }
  destruct (LegacyWorker.disconnect b) eqn:Hd.
  { intros H. injection H as <- <-. reflexivity. }
  intros H. assert (Ho : exists resp, o = Ok resp /\
      resp = if LegacyWorker.wantsJson request
             then LegacyWorker.json_response reqUrl launched (LegacyWorker.sessionId b)
                    (LegacyWorker.extract doc)
             else LegacyWorker.html_response (LegacyWorker.extract doc) reqUrl
                    (LegacyWorker.sessionId b)).
  { destruct (LegacyWorker.wantsJson request); injection H as <- _; eauto. }
  destruct Ho as (resp & -> & Hresp). intros _. split.
  - destruct (LegacyWorker.wantsJson request); injection H as _ <-;
      rewrite !List.filter_app, !app_nil_r; reflexivity.
  - right. exists code, doc. repeat split; auto. lia.
Qed.

Lemma legacy_fetch_eq request env reqUrl t :
  URL_toString (LegacyWorker.text_or (LegacyWorker.url_param request) "https://example.com")
    = Some reqUrl ->
  legacy_fetch request env t =
  match legacy_pick env t with
  | (Throw e, t1) => (Throw e, t1)
  | (Ok found, t1) =>
      match LegacyWorker.connect_or_launch env found t1 with
      | (Throw e, t2) => (Throw e, t2)
      | (Ok (b, launched), t2) =>
          match LegacyWorker.newPage b with
          | Throw e => (Throw e, t2 ++ [LegacyWorker.NewPage])
          | Ok page =>
              try_catch (LegacyWorker.work request reqUrl b launched page)
                        (LegacyWorker.on_fault reqUrl b launched)
                        (t2 ++ [LegacyWorker.NewPage])
          end
      end
  end.
Proof.
  intros Hu. unfold LegacyWorker.fetch. rewrite Hu, bind_eq.
  destruct (legacy_pick env t) as [[found|e] t1]; [|reflexivity].
  rewrite bind_eq.
  destruct (LegacyWorker.connect_or_launch env found t1) as [[[b launched]|e] t2];
    [|reflexivity].
  rewrite bind_eq. unfold LegacyWorker.call at 1, LegacyWorker.emit. rewrite bind_eq.
  cbn [modify settle]. destruct (LegacyWorker.newPage b); reflexivity.
Qed.

(** X20. As long as no disconnect throws, a request the older handler answers
    has disconnected from its browser exactly once, on the success path as on
    the fault path, and a request it fails to answer has not disconnected at
    all. *)
Theorem legacy_answer_disconnects_once request env t o t' :
  (forall b, LegacyWorker.serves env b -> LegacyWorker.disconnect b = None) ->
  legacy_fetch request env t = (o, t') ->
  List.filter LegacyWorker.is_disconnect t' =
    List.filter LegacyWorker.is_disconnect t ++
    match o with Ok _ => [LegacyWorker.Disconnect] | Throw _ => [] end.
Proof.
  intros Hquiet.
  destruct (URL_toString (LegacyWorker.text_or (LegacyWorker.url_param request) "https://example.com")) as [reqUrl|] eqn:Hu.
  2:{ unfold LegacyWorker.fetch. rewrite Hu.
      intros H. injection H as <- <-. now rewrite app_nil_r. }
  rewrite (legacy_fetch_eq _ _ _ _ Hu).
  destruct (legacy_pick env t) as [[found|e] t1] eqn:Hp;
    pose proof (legacy_pick_trace _ _ _ _ Hp) as ->.
  2:{ intros H. injection H as <- <-. now rewrite List.filter_app, !app_nil_r. }
  destruct (LegacyWorker.connect_or_launch env found _) as [[[b launched]|e] t2] eqn:Hc;
    destruct (connect_or_launch_cases _ _ _ _ _ Hc) as [Ht2 Hb];
    rewrite List.filter_app, app_nil_r in Ht2.
  2:{ intros H. injection H as <- <-. now rewrite app_nil_r. }
  destruct (LegacyWorker.newPage b) as [page|e].
  2:{ intros H. injection H as <- <-. now rewrite List.filter_app, !app_nil_r. }
  intros H. pose proof (legacy_attempt_cases _ _ _ _ _ _ _ _ H) as Hcase.
  destruct o as [resp|e].
  - destruct (Hcase (Hquiet b Hb)) as [Hd _]. rewrite Hd, List.filter_app, app_nil_r.
    now rewrite Ht2.
  - rewrite (Hquiet b Hb) in Hcase. discriminate Hcase.
Qed.

(** X21. The older handler answers 200 or 500 only, and a 200 is always
    backed by a navigation whose response had a status below 400: the answer
    is the JSON or the HTML form of what the script extracted from that
    page. *)
Theorem legacy_success_needs_good_status request env t resp t' :
  (forall b, LegacyWorker.serves env b -> LegacyWorker.disconnect b = None) ->
  legacy_fetch request env t = (Ok resp, t') ->
  LegacyWorker.status resp = 500 \/
  (LegacyWorker.status resp = 200 /\
   exists reqUrl b launched page code doc,
     URL_toString (LegacyWorker.text_or (LegacyWorker.url_param request)
                     "https://example.com") = Some reqUrl /\
     LegacyWorker.serves env b /\
     LegacyWorker.newPage b = Ok page /\
     LegacyWorker.goto page = Ok (Some code) /\ code < 400 /\
     LegacyWorker.evaluate page = Ok doc /\
     resp = if LegacyWorker.wantsJson request
            then LegacyWorker.json_response reqUrl launched (LegacyWorker.sessionId b)
                   (LegacyWorker.extract doc)
            else LegacyWorker.html_response (LegacyWorker.extract doc) reqUrl
                   (LegacyWorker.sessionId b)).
Proof.
  intros Hquiet.
  destruct (URL_toString (LegacyWorker.text_or (LegacyWorker.url_param request) "https://example.com")) as [reqUrl|] eqn:Hu;
    [|unfold LegacyWorker.fetch; rewrite Hu; discriminate].
  rewrite (legacy_fetch_eq _ _ _ _ Hu).
  destruct (legacy_pick env t) as [[found|e] t1]; [|discriminate].
  destruct (LegacyWorker.connect_or_launch env found _) as [[[b launched]|e] t2] eqn:Hc;
    [|discriminate].
  destruct (connect_or_launch_cases _ _ _ _ _ Hc) as [_ Hb].
  destruct (LegacyWorker.newPage b) as [page|e] eqn:Hp; [|discriminate].
  intros H. pose proof (legacy_attempt_cases _ _ _ _ _ _ _ _ H) as Hcase.
  destruct (Hcase (Hquiet b Hb)) as [_ [H500|(code & doc & Hg & Hlt & He & Hresp)]];
    [now left|right].
  split; [rewrite Hresp; now destruct (LegacyWorker.wantsJson request)|].
  exists reqUrl, b, launched, page, code, doc. repeat split; assumption.
Qed.

(** X22. The older handler fails to answer in five cases only: the target
    does not parse as a URL, the listing fails, the launch fails, the
    browser cannot open a page, or a disconnect throws. A failed connect is
    never one of them. *)
Theorem legacy_unanswered_causes request env t e t' :
  legacy_fetch request env t = (Throw e, t') ->
  URL_toString (LegacyWorker.text_or (LegacyWorker.url_param request)
                  "https://example.com") = None \/
  LegacyWorker.sessions env = Throw e \/
  LegacyWorker.launch env = Throw e \/
  (exists b, LegacyWorker.serves env b /\ LegacyWorker.newPage b = Throw e) \/
  (exists b, LegacyWorker.serves env b /\ LegacyWorker.disconnect b = Some e).
Proof.
  destruct (URL_toString (LegacyWorker.text_or (LegacyWorker.url_param request)
                            "https://example.com")) as [reqUrl|] eqn:Hu;
    [|intros _; now left].
  rewrite (legacy_fetch_eq _ _ _ _ Hu). intros H. right. revert H.
  destruct (legacy_pick env t) as [[found|e1] t1] eqn:Hp.
  2:{ intros H. injection H as -> _. left.
      destruct (LegacyWorker.sessions env) as [act|e2] eqn:Hs.
      - rewrite (getRandomSession_listed _ _ _ Hs) in Hp. discriminate Hp.
      - rewrite (getRandomSession_unlisted _ _ _ Hs) in Hp. now injection Hp as ->. }
  intros H. right. revert H.
  destruct (LegacyWorker.connect_or_launch env found _) as [[[b launched]|e1] t2] eqn:Hc;
    destruct (connect_or_launch_cases _ _ _ _ _ Hc) as [_ Hb].
  2:{ intros H. injection H as -> _. now left. }
  intros H. right. revert H.
  destruct (LegacyWorker.newPage b) as [page|e1] eqn:Hn.
  2:{ intros H. injection H as -> _. left. now exists b. }
  intros H. right. exists b. split; [exact Hb|].
  exact (legacy_attempt_cases _ _ _ _ _ _ _ _ H).
Qed.

End LegacyFacts.

Lemma append_cons c s r : String c s +:+ r = String c (s +:+ r).
Proof. reflexivity. Qed.

Lemma append_nil r : "" +:+ r = r.
Proof. reflexivity. Qed.

Lemma startsWith_app p s r :
  Js.startsWith p s = true -> Js.startsWith p (s +:+ r) = true.
Proof.
  revert s. induction p as [|a p IH]; intros s; [reflexivity|].
  destruct s as [|c s]; [discriminate|]. rewrite append_cons. cbn [Js.startsWith].
  destruct (Ascii.eqb a c); [apply IH|discriminate].
Qed.

Lemma startsWith_refl p : Js.startsWith p p = true.
Proof. induction p as [|a p IH]; cbn; [reflexivity|]. now rewrite Ascii.eqb_refl. Qed.

Lemma includes_startsWith p s : Js.startsWith p s = true -> Js.includes p s = true.
Proof. intros H. destruct s; cbn [Js.includes]; now rewrite H. Qed.

Lemma includes_app_l p s r :
  Js.includes p s = true -> Js.includes p (s +:+ r) = true.
Proof.
  induction s as [|c s IH].
  - cbn [Js.includes]. rewrite orb_false_r. intros H.
    apply includes_startsWith. now apply (startsWith_app p "" r).
  - cbn [Js.includes]. intros H. apply orb_true_iff in H as [H|H].
    + apply includes_startsWith. now apply startsWith_app.
    + rewrite append_cons. cbn [Js.includes]. rewrite (IH H). apply orb_true_r.
Qed.

Lemma includes_app_r p a s :
  Js.includes p s = true -> Js.includes p (a +:+ s) = true.
Proof.
  intros H. induction a as [|c a IH]; [exact H|].
  rewrite append_cons. cbn [Js.includes]. rewrite IH. apply orb_true_r.
Qed.

Lemma includes_concat p sep lines line :
  In line lines -> Js.includes p line = true ->
  Js.includes p (String.concat sep lines) = true.
Proof.
  intros Hin Hp. induction lines as [|l lines IH]; [destruct Hin|].
  cbn [String.concat]. destruct lines as [|l' lines].
  - destruct Hin as [->|[]]. exact Hp.
  - destruct Hin as [->|Hin].
    + now apply includes_app_l.
    + apply includes_app_r, includes_app_r. now apply IH.
Qed.

Lemma startsWith_same a p s :
  Js.startsWith (a +:+ p) (a +:+ s) = Js.startsWith p s.
Proof.
  induction a as [|c a IH]; [reflexivity|].
  rewrite !append_cons. cbn [Js.startsWith]. now rewrite Ascii.eqb_refl.
Qed.

(** X23. Whatever the script extracted, the HTML answer of the older handler
    sends the reader on to the normalised target: it holds the refresh line
    and the link with that URL, put in as it is, and it names the session. *)
Theorem legacy_html_points_to_target ogData reqUrl sessionId :
  exists html,
    LegacyWorker.body (LegacyWorker.html_response ogData reqUrl sessionId) =
      LegacyWorker.Text html /\
    Js.includes ("<meta http-equiv=" +:+ LegacyWorker.q +:+ "refresh" +:+ LegacyWorker.q +:+
                 " content=" +:+ LegacyWorker.q +:+ "0;url=" +:+ reqUrl +:+
                 LegacyWorker.q +:+ ">") html = true /\
    Js.includes ("<a href=" +:+ LegacyWorker.q +:+ reqUrl +:+ LegacyWorker.q +:+ ">")
      html = true /\
    Js.includes ("<!-- Session: " +:+ sessionId +:+ " -->") html = true.
Proof.
  eexists. split; [reflexivity|].
  split; [|split]; eapply includes_concat.
  - unfold LegacyWorker.html_lines. do 25 right. left. reflexivity.
  - apply (includes_app_r _ "  "), includes_startsWith, startsWith_refl.
  - unfold LegacyWorker.html_lines. do 30 right. left. reflexivity.
  - change (Js.includes
              ("<a href=" +:+ LegacyWorker.q +:+ reqUrl +:+ LegacyWorker.q +:+ ">")
              ("  <p>" +:+ "<a href=" +:+ LegacyWorker.q +:+ reqUrl +:+ LegacyWorker.q +:+
               ">Click here if you are not redirected automatically</a></p>") = true).
    apply includes_app_r, includes_startsWith. now rewrite !startsWith_same.
  - unfold LegacyWorker.html_lines. do 33 right. left. reflexivity.
  - apply (includes_app_r _ "  "), includes_startsWith, startsWith_refl.
Qed.

(** ** The further properties at work *)

Lemma warm_world_well_formed : well_formed Sample.warm_world.
Proof.
  split; [|split].
  - apply List.NoDup_cons; [intros []|apply List.NoDup_nil].
  - intros k r [Heq|[]]. now injection Heq as <- _.
  - intros k r [Heq|[]]. injection Heq as _ <-. apply Nat.lt_0_1.
Defined.

Lemma busy_world_well_formed : well_formed Sample.busy_world.
Proof.
  split; [|split].
  - apply List.NoDup_cons; [intros []|apply List.NoDup_nil].
  - intros k r [Heq|[]]. now injection Heq as <- _.
  - intros k r [Heq|[]]. injection Heq as _ <-. apply Nat.lt_0_1.
Defined.

Lemma fetch_keeps_well_formed_witness :
  well_formed Sample.warm_world /\
  well_formed (snd (Sample.fetch Sample.request Sample.envA Sample.clock Sample.warm_world)).
Proof.
  split; [exact warm_world_well_formed|].
  exact (fetch_keeps_well_formed Sample.decodeURIComponent Sample.URL_toString
           Sample.request Sample.envA Sample.clock Sample.warm_world warm_world_well_formed).
Defined.

Lemma acquisition_prunes_expired_witness :
  In ("s0", 0%nat) (sessionCache Sample.wM) /\
  ~ In ("s1", 1%nat) (sessionCache Sample.wM) /\
  1804200 - lastUsed (heap Sample.wM 0%nat) <= SESSION_TIMEOUT.
Proof.
  assert (H : In ("s0", 0%nat) (sessionCache Sample.wM)) by (vm_compute; left; reflexivity).
  split; [exact H|]. split.
  - vm_compute. intros [Heq|[]]. discriminate Heq.
  - exact (acquisition_prunes_expired
             (Sample.unlisted_service (Sample.page (Some 200) Sample.hello))
             1804200 Sample.stale_world "s0" 0%nat H).
Defined.

Lemma acquisition_keeps_live_entries_witness :
  In ("s1", 1%nat) (sessionCache Sample.stale_world) /\
  5000 - lastUsed (heap Sample.stale_world 1%nat) <= SESSION_TIMEOUT /\
  In ("s1", 1%nat) (sessionCache Sample.wE).
Proof.
  assert (H1 : In ("s1", 1%nat) (sessionCache Sample.stale_world))
    by (right; left; reflexivity).
  assert (H2 : 5000 - lastUsed (heap Sample.stale_world 1%nat) <= SESSION_TIMEOUT)
    by (vm_compute; discriminate).
  assert (H3 : forall act, Puppeteer.sessions Sample.serviceE = Ok act ->
                 In "s1" (List.map Puppeteer.sessionId act))
    by (intros act H; injection H as <-; left; reflexivity).
  split; [exact H1|]. split; [exact H2|].
  exact (acquisition_keeps_live_entries Sample.serviceE 5000 Sample.stale_world
           "s1" 1%nat H1 H2 H3).
Defined.

Lemma busy_session_is_not_acquired_witness :
  In ("s1", 0%nat) (sessionCache Sample.busy_world) /\
  inUse (heap Sample.busy_world 0%nat) = true /\
  getOptimalSession Sample.serviceH 5000 Sample.busy_world = (Ok (Some 1%nat), Sample.wH) /\
  1%nat <> 0%nat /\ sessionId (heap Sample.wH 1%nat) <> "s1".
Proof.
  assert (H1 : In ("s1", 0%nat) (sessionCache Sample.busy_world)) by (left; reflexivity).
  assert (H2 : inUse (heap Sample.busy_world 0%nat) = true) by reflexivity.
  assert (H3 : 5000 - lastUsed (heap Sample.busy_world 0%nat) <= SESSION_TIMEOUT)
    by (vm_compute; discriminate).
  assert (H4 : getOptimalSession Sample.serviceH 5000 Sample.busy_world
               = (Ok (Some 1%nat), Sample.wH)) by (vm_compute; reflexivity).
  repeat (split; [assumption|]).
  exact (busy_session_is_not_acquired Sample.serviceH 5000 Sample.busy_world "s1" 0%nat
           1%nat Sample.wH busy_world_well_formed H1 H2 H3 H4).
Defined.

Lemma successive_acquisitions_differ_witness :
  getOptimalSession Sample.serviceH 5000 Sample.warm_world = (Ok (Some 0%nat), Sample.wI1) /\
  getOptimalSession Sample.serviceH 6000 Sample.wI1 = (Ok (Some 1%nat), Sample.wI2) /\
  1%nat <> 0%nat /\
  sessionId (heap Sample.wI2 1%nat) <> sessionId (heap Sample.wI1 0%nat).
Proof.
  assert (H1 : getOptimalSession Sample.serviceH 5000 Sample.warm_world
               = (Ok (Some 0%nat), Sample.wI1)) by (vm_compute; reflexivity).
  assert (H2 : 6000 - 5000 <= SESSION_TIMEOUT) by (vm_compute; discriminate).
  assert (H3 : getOptimalSession Sample.serviceH 6000 Sample.wI1
               = (Ok (Some 1%nat), Sample.wI2)) by (vm_compute; reflexivity).
  split; [exact H1|]. split; [exact H3|].
  exact (successive_acquisitions_differ Sample.serviceH Sample.serviceH 5000 6000
           Sample.warm_world 0%nat Sample.wI1 1%nat Sample.wI2
           warm_world_well_formed H1 H2 H3).
Defined.

Lemma free_listed_session_is_found_witness :
  Puppeteer.sessions Sample.serviceE = Ok Sample.listE /\
  In ("s1", 1%nat) (sessionCache Sample.stale_world) /\
  inUse (heap Sample.stale_world 1%nat) = false /\
  exists k' info w',
    getOptimalSession Sample.serviceE 5000 Sample.stale_world = (Ok (Some info), w') /\
    In (k', info) (sessionCache Sample.stale_world).
Proof.
  assert (H1 : Puppeteer.sessions Sample.serviceE = Ok Sample.listE) by reflexivity.
  assert (H2 : In ("s1", 1%nat) (sessionCache Sample.stale_world))
    by (right; left; reflexivity).
  assert (H3 : inUse (heap Sample.stale_world 1%nat) = false) by reflexivity.
  assert (H4 : 5000 - lastUsed (heap Sample.stale_world 1%nat) <= SESSION_TIMEOUT)
    by (vm_compute; discriminate).
  assert (H5 : In "s1" (List.map Puppeteer.sessionId Sample.listE)) by (left; reflexivity).
  assert (H6 : forall a, In a Sample.listE -> Puppeteer.sessionId a = "s1" ->
                 Js.truthy_opt (Puppeteer.connectionId a) = false)
    by (intros a [<-|[]] _; reflexivity).
  repeat (split; [assumption|]).
  destruct (free_listed_session_is_found Sample.serviceE 5000 Sample.listE
              Sample.stale_world "s1" 1%nat H1 H2 H3 H4 H5 H6)
    as (k' & info & w' & Hg & Hin & _).
  exists k', info, w'. split; assumption.
Defined.

Lemma registry_is_bounded_by_listing_witness :
  distinct_keys Sample.stale_world /\
  (length (sessionCache Sample.wE) <= 1)%nat.
Proof.
  assert (H : distinct_keys Sample.stale_world).
  { apply List.NoDup_cons; [intros [Heq|[]]; discriminate Heq|].
    apply List.NoDup_cons; [intros []|apply List.NoDup_nil]. }
  split; [exact H|].
  exact (proj2 (registry_is_bounded_by_listing Sample.serviceE 5000 Sample.stale_world H)
           Sample.listE eq_refl).
Defined.

Lemma reused_session_is_released_witness :
  targets Sample.decodeURIComponent Sample.URL_toString Sample.request Sample.url /\
  cache_lookup Sample.envJ (computeKey Sample.url) Sample.warm_world = (Ok None, Sample.wJ0) /\
  getOptimalSession (MYBROWSER Sample.envJ) (now_acquire Sample.clock) Sample.wJ0 =
    (Ok (Some 0%nat), Sample.wJ1) /\
  Puppeteer.connect (MYBROWSER Sample.envJ) (sessionId (heap Sample.wJ1 0%nat)) = Ok Sample.bJ /\
  render Sample.envJ Sample.bJ Sample.url
    (with_trace (trace Sample.wJ1 ++ [Connect (sessionId (heap Sample.wJ1 0%nat))]) Sample.wJ1) =
    (Ok Sample.hello, Sample.wJ2) /\
  exists w',
    Sample.fetch Sample.request Sample.envJ Sample.clock Sample.warm_world =
      (Ok (html_response Sample.hello), w') /\
    heap w' 0%nat = {| sessionId := "s1"; lastUsed := 7000; inUse := false |} /\
    List.filter is_disconnect (trace w') = [].
Proof.
  assert (H1 : targets Sample.decodeURIComponent Sample.URL_toString Sample.request Sample.url)
    by exact sample_aims.
  assert (H2 : cache_lookup Sample.envJ (computeKey Sample.url) Sample.warm_world
               = (Ok None, Sample.wJ0)) by (vm_compute; reflexivity).
  assert (H3 : getOptimalSession (MYBROWSER Sample.envJ) (now_acquire Sample.clock) Sample.wJ0
               = (Ok (Some 0%nat), Sample.wJ1)) by (vm_compute; reflexivity).
  assert (H4 : Puppeteer.connect (MYBROWSER Sample.envJ) (sessionId (heap Sample.wJ1 0%nat))
               = Ok Sample.bJ) by (vm_compute; reflexivity).
  assert (H5 : render Sample.envJ Sample.bJ Sample.url
                 (with_trace (trace Sample.wJ1 ++ [Connect (sessionId (heap Sample.wJ1 0%nat))])
                    Sample.wJ1)
               = (Ok Sample.hello, Sample.wJ2)) by (vm_compute; reflexivity).
  repeat (split; [assumption|]).
  destruct (reused_session_is_released Sample.decodeURIComponent Sample.URL_toString
              _ _ _ _ _ _ _ _ _ _ _ H1 H2 H3 H4 H5)
    as (w' & Hf & _ & Hh & _ & _ & Hd).
  exists w'. split; [exact Hf|]. split; [exact Hh | exact Hd].
Defined.

Lemma launched_session_is_registered_witness :
  targets Sample.decodeURIComponent Sample.URL_toString Sample.request Sample.url /\
  cache_lookup Sample.envF (computeKey Sample.url) Sample.empty_world = (Ok None, Sample.wF0) /\
  getOptimalSession (MYBROWSER Sample.envF) (now_acquire Sample.clock) Sample.wF0 =
    (Ok None, Sample.wF1) /\
  Puppeteer.launch (MYBROWSER Sample.envF) = Ok Sample.bF /\
  render Sample.envF Sample.bF Sample.url
    (with_trace (trace Sample.wF1 ++ [Launch]) Sample.wF1) = (Ok Sample.hello, Sample.wF2) /\
  exists w',
    Sample.fetch Sample.request Sample.envF Sample.clock Sample.empty_world =
      (Ok (html_response Sample.hello), w') /\
    sessionCache w' = [("s9", 0%nat)] /\
    heap w' 0%nat = {| sessionId := "s9"; lastUsed := 7000; inUse := false |} /\
    List.filter is_disconnect (trace w') = [Disconnect].
Proof.
  assert (H1 : targets Sample.decodeURIComponent Sample.URL_toString Sample.request Sample.url)
    by exact sample_aims.
  assert (H2 : cache_lookup Sample.envF (computeKey Sample.url) Sample.empty_world
               = (Ok None, Sample.wF0)) by (vm_compute; reflexivity).
  assert (H3 : getOptimalSession (MYBROWSER Sample.envF) (now_acquire Sample.clock) Sample.wF0
               = (Ok None, Sample.wF1)) by (vm_compute; reflexivity).
  assert (H4 : Puppeteer.launch (MYBROWSER Sample.envF) = Ok Sample.bF) by reflexivity.
  assert (H5 : render Sample.envF Sample.bF Sample.url
                 (with_trace (trace Sample.wF1 ++ [Launch]) Sample.wF1)
               = (Ok Sample.hello, Sample.wF2)) by (vm_compute; reflexivity).
  assert (H6 : Puppeteer.browser_sessionId Sample.bF = Some "s9") by reflexivity.
  assert (H7 : "s9" <> "") by discriminate.
  assert (H8 : Puppeteer.disconnect Sample.bF = None) by reflexivity.
  repeat (split; [assumption|]).
  destruct (launched_session_is_registered Sample.decodeURIComponent Sample.URL_toString
              _ _ _ _ _ _ _ _ _ _ _ H1 H2 H3 H4 H5 H6 H7 H8)
    as (w' & Hf & Hc & _ & Hh & _ & _ & Hd).
  exists w'. split; [exact Hf|]. split; [exact Hc|]. split; [exact Hh | exact Hd].
Defined.

Lemma failed_launch_is_reported_witness :
  targets Sample.decodeURIComponent Sample.URL_toString Sample.request Sample.url /\
  cache_lookup Sample.envK (computeKey Sample.url) Sample.empty_world = (Ok None, Sample.wK0) /\
  getOptimalSession (MYBROWSER Sample.envK) (now_acquire Sample.clock) Sample.wK0 =
    (Ok None, Sample.wK1) /\
  fst (Sample.fetch Sample.request Sample.envK Sample.clock Sample.empty_world) =
    Ok (fault_response
          (ErrorObj "Unable to create new browser: code: 429: message: Too many browsers")
          Sample.url "2025-07-05T00:00:07.000Z") /\
  trace (snd (Sample.fetch Sample.request Sample.envK Sample.clock Sample.empty_world)) =
    [KvGet (computeKey Sample.url); Sessions; Launch].
Proof.
  assert (H1 : targets Sample.decodeURIComponent Sample.URL_toString Sample.request Sample.url)
    by exact sample_aims.
  assert (H2 : cache_lookup Sample.envK (computeKey Sample.url) Sample.empty_world
               = (Ok None, Sample.wK0)) by (vm_compute; reflexivity).
  assert (H3 : getOptimalSession (MYBROWSER Sample.envK) (now_acquire Sample.clock) Sample.wK0
               = (Ok None, Sample.wK1)) by (vm_compute; reflexivity).
  assert (H4 : Puppeteer.launch (MYBROWSER Sample.envK) =
               Throw (ErrorObj
                 "Unable to create new browser: code: 429: message: Too many browsers"))
    by reflexivity.
  repeat (split; [assumption|]).
  pose proof (failed_launch_is_reported Sample.decodeURIComponent Sample.URL_toString
                _ _ _ _ _ _ _ _ H1 H2 H3 H4) as Hf.
  unfold Sample.fetch. rewrite Hf. split; reflexivity.
Defined.

Lemma failed_render_of_launched_browser_witness :
  targets Sample.decodeURIComponent Sample.URL_toString Sample.request Sample.url /\
  cache_lookup Sample.envL (computeKey Sample.url) Sample.empty_world = (Ok None, Sample.wL0) /\
  getOptimalSession (MYBROWSER Sample.envL) (now_acquire Sample.clock) Sample.wL0 =
    (Ok None, Sample.wL1) /\
  Puppeteer.launch (MYBROWSER Sample.envL) = Ok Sample.bL /\
  render Sample.envL Sample.bL Sample.url
    (with_trace (trace Sample.wL1 ++ [Launch]) Sample.wL1) =
    (Throw (ErrorObj "Navigation timeout of 15000 ms exceeded"), Sample.wL2) /\
  exists w',
    Sample.fetch Sample.request Sample.envL Sample.clock Sample.empty_world =
      (Ok (fault_response (ErrorObj "Navigation timeout of 15000 ms exceeded")
             Sample.url (now_iso Sample.clock)), w') /\
    sessionCache w' = [] /\
    List.filter is_disconnect (trace w') = [Disconnect].
Proof.
  assert (H1 : targets Sample.decodeURIComponent Sample.URL_toString Sample.request Sample.url)
    by exact sample_aims.
  assert (H2 : cache_lookup Sample.envL (computeKey Sample.url) Sample.empty_world
               = (Ok None, Sample.wL0)) by (vm_compute; reflexivity).
  assert (H3 : getOptimalSession (MYBROWSER Sample.envL) (now_acquire Sample.clock) Sample.wL0
               = (Ok None, Sample.wL1)) by (vm_compute; reflexivity).
  assert (H4 : Puppeteer.launch (MYBROWSER Sample.envL) = Ok Sample.bL) by reflexivity.
  assert (H5 : render Sample.envL Sample.bL Sample.url
                 (with_trace (trace Sample.wL1 ++ [Launch]) Sample.wL1)
               = (Throw (ErrorObj "Navigation timeout of 15000 ms exceeded"), Sample.wL2))
    by (vm_compute; reflexivity).
  repeat (split; [assumption|]).
  destruct (failed_render_of_launched_browser Sample.decodeURIComponent Sample.URL_toString
              _ _ _ _ _ _ _ _ _ _ H1 H2 H3 H4 H5)
    as (w' & Hf & Hc & _ & _ & Hd).
  exists w'. split; [exact Hf|]. split; [exact Hc | exact Hd].
Defined.

Lemma sample_page_is_served :
  Sample.fetch Sample.request Sample.envF Sample.clock Sample.empty_world =
  (Ok (html_response Sample.hello), Sample.wF3).
Proof. vm_compute. reflexivity. Defined.

Lemma served_page_is_cached_witness :
  targets Sample.decodeURIComponent Sample.URL_toString Sample.request Sample.url /\
  Sample.fetch Sample.request Sample.envF Sample.clock Sample.empty_world =
    (Ok (html_response Sample.hello), Sample.wF3) /\
  exists html,
    kv Sample.wF3 !! computeKey Sample.url = Some html /\
    (html <> "" ->
     fst (Sample.fetch Sample.request Sample.envF Sample.clock Sample.wF3) =
       Ok (cache_hit_response html)).
Proof.
  split; [exact sample_aims|]. split; [exact sample_page_is_served|].
  destruct (served_page_is_cached Sample.decodeURIComponent Sample.URL_toString
              Sample.request Sample.envF Sample.clock Sample.url Sample.store
              Sample.empty_world _ _ sample_aims eq_refl eq_refl eq_refl
              sample_page_is_served eq_refl)
    as (html & _ & Hk & Hnext).
  exists html. split; [exact Hk|]. intros Hne.
  unfold Sample.fetch. now rewrite (Hnext Hne Sample.clock).
Defined.

Lemma every_answer_allows_any_origin_witness :
  Sample.fetch Sample.request Sample.envF Sample.clock Sample.empty_world =
    (Ok (html_response Sample.hello), Sample.wF3) /\
  In ("access-control-allow-origin", "*") (headers (html_response Sample.hello)).
Proof.
  split; [exact sample_page_is_served|].
  exact (proj2 (every_answer_allows_any_origin Sample.decodeURIComponent Sample.URL_toString
                  _ _ _ _ _ _ sample_page_is_served)).
Defined.

Lemma sample_request_is_refused :
  Sample.fetch Sample.bad_request Sample.envF Sample.clock Sample.warm_world =
  (Ok invalid_url_response, Sample.warm_world).
Proof. reflexivity. Defined.

Lemma refused_request_touches_nothing_witness :
  Sample.fetch Sample.bad_request Sample.envF Sample.clock Sample.warm_world =
    (Ok invalid_url_response, Sample.warm_world) /\
  In (status invalid_url_response) [400; 204; 405] /\
  Sample.warm_world = Sample.warm_world.
Proof.
  assert (H : In (status invalid_url_response) [400; 204; 405]) by (left; reflexivity).
  split; [exact sample_request_is_refused|]. split; [exact H|].
  exact (refused_request_touches_nothing Sample.decodeURIComponent Sample.URL_toString
           _ _ _ _ _ _ sample_request_is_refused (or_intror H)).
Defined.

Lemma fault_on_reused_session_leaves_page_open_witness :
  targets Sample.decodeURIComponent Sample.URL_toString Sample.request Sample.url /\
  Puppeteer.newPage Sample.bA = Ok Sample.slow_page /\
  Puppeteer.close Sample.slow_page = None /\
  exists w' evs,
    Sample.fetch Sample.request Sample.envA Sample.clock Sample.warm_world =
      (Ok (fault_response (ErrorObj "Navigation timeout of 15000 ms exceeded")
             Sample.url (now_iso Sample.clock)), w') /\
    trace w' = trace Sample.wA1 ++ Connect "s1" :: NewPage :: evs /\
    ~ In PageClose evs /\ ~ In Disconnect evs.
Proof.
  assert (H1 : targets Sample.decodeURIComponent Sample.URL_toString Sample.request Sample.url)
    by exact sample_aims.
  assert (H2 : cache_lookup Sample.envA (computeKey Sample.url) Sample.warm_world
               = (Ok None, Sample.wA0)) by (vm_compute; reflexivity).
  assert (H3 : getOptimalSession (MYBROWSER Sample.envA) (now_acquire Sample.clock) Sample.wA0
               = (Ok (Some 0%nat), Sample.wA1)) by (vm_compute; reflexivity).
  assert (H4 : Puppeteer.connect (MYBROWSER Sample.envA) (sessionId (heap Sample.wA1 0%nat))
               = Ok Sample.bA) by (vm_compute; reflexivity).
  assert (H5 : Puppeteer.newPage Sample.bA = Ok Sample.slow_page) by reflexivity.
  assert (H6 : Puppeteer.close Sample.slow_page = None) by reflexivity.
  assert (H7 : render Sample.envA Sample.bA Sample.url
                 (with_trace (trace Sample.wA1 ++ [Connect (sessionId (heap Sample.wA1 0%nat))])
                    Sample.wA1)
               = (Throw (ErrorObj "Navigation timeout of 15000 ms exceeded"), Sample.wA2))
    by (vm_compute; reflexivity).
  split; [exact H1|]. split; [exact H5|]. split; [exact H6|].
  exact (fault_on_reused_session_leaves_page_open Sample.decodeURIComponent
           Sample.URL_toString _ _ _ _ _ _ _ _ _ _ _ _ H1 H2 H3 H4 H5 H6 H7).
Defined.

Lemma warmed_session_is_filed_free_witness :
  Z.of_nat (length (sessionCache Sample.empty_world)) < MAX_SESSIONS /\
  Puppeteer.launch (MYBROWSER Sample.envF) = Ok Sample.bF /\
  exists w',
    warmupSessions (MYBROWSER Sample.envF) 5000 Sample.empty_world = (Ok tt, w') /\
    sessionCache w' = [("s9", 0%nat)] /\
    heap w' 0%nat = {| sessionId := "s9"; lastUsed := 5000; inUse := false |} /\
    trace w' = [Launch; Disconnect].
Proof.
  assert (H1 : Z.of_nat (length (sessionCache Sample.empty_world)) < MAX_SESSIONS)
    by reflexivity.
  assert (H2 : Puppeteer.launch (MYBROWSER Sample.envF) = Ok Sample.bF) by reflexivity.
  assert (H3 : Puppeteer.browser_sessionId Sample.bF = Some "s9") by reflexivity.
  assert (H4 : "s9" <> "") by discriminate.
  split; [exact H1|]. split; [exact H2|].
  destruct (warmed_session_is_filed_free (MYBROWSER Sample.envF) 5000 Sample.empty_world
              Sample.bF "s9" H1 H2 H3 H4) as (w' & Hw & Hc & _ & Hh & _ & Ht).
  exists w'. repeat split; assumption.
Defined.

Lemma getRandomSession_picks_idle_witness :
  LegacyWorker.sessions (LegacySample.service (LegacySample.page 200)) =
    Ok LegacySample.listing /\
  exists found,
    LegacyWorker.getRandomSession LegacySample.random_index
      (LegacySample.service (LegacySample.page 200)) [] =
      (Ok found, [LegacyWorker.Sessions]) /\
    (forall sid, found = Some sid ->
       exists a, In a LegacySample.listing /\ Puppeteer.sessionId a = sid /\
                 Js.truthy_opt (Puppeteer.connectionId a) = false).
Proof.
  assert (H : LegacyWorker.sessions (LegacySample.service (LegacySample.page 200)) =
              Ok LegacySample.listing) by reflexivity.
  split; [exact H|].
  destruct (getRandomSession_picks_idle LegacySample.random_index
              (LegacySample.service (LegacySample.page 200)) LegacySample.listing [] H)
    as (found & Hg & Hidle & _).
  exists found. split; assumption.
Defined.

Lemma sample_service_disconnects_quietly p b :
  LegacyWorker.serves (LegacySample.service p) b -> LegacyWorker.disconnect b = None.
Proof. intros [[sid H]|H]; injection H as <-; reflexivity. Defined.

Lemma sample_status_is_rejected :
  LegacySample.fetch LegacySample.request (LegacySample.service (LegacySample.page 404)) [] =
  (Ok (LegacyWorker.fault_response (ErrorObj "Failed to load page: 404")
         "https://example.com/" false "s1"),
   [LegacyWorker.Sessions; LegacyWorker.Connect "s1"; LegacyWorker.NewPage;
    LegacyWorker.SetDefaultTimeout 10000;
    LegacyWorker.Goto "https://example.com/" "domcontentloaded";
    LegacyWorker.Disconnect]).
Proof. vm_compute. reflexivity. Defined.

Lemma sample_page_is_extracted :
  LegacySample.fetch LegacySample.request (LegacySample.service (LegacySample.page 200)) [] =
  (Ok (LegacyWorker.html_response (LegacyWorker.extract LegacySample.document)
         "https://example.com/" "s1"),
   [LegacyWorker.Sessions; LegacyWorker.Connect "s1"; LegacyWorker.NewPage;
    LegacyWorker.SetDefaultTimeout 10000;
    LegacyWorker.Goto "https://example.com/" "domcontentloaded";
    LegacyWorker.Evaluate; LegacyWorker.Disconnect]).
Proof. vm_compute. reflexivity. Defined.

Lemma sample_listing_failure_is_fatal :
  LegacySample.fetch LegacySample.request LegacySample.unlisted_service [] =
  (Throw (ErrorObj "Unable to list sessions"), [LegacyWorker.Sessions]).
Proof. vm_compute. reflexivity. Defined.

Lemma legacy_answer_disconnects_once_witness :
  (forall b, LegacyWorker.serves (LegacySample.service (LegacySample.page 404)) b ->
             LegacyWorker.disconnect b = None) /\
  LegacySample.fetch LegacySample.request (LegacySample.service (LegacySample.page 404)) [] =
    (Ok (LegacyWorker.fault_response (ErrorObj "Failed to load page: 404")
           "https://example.com/" false "s1"),
     [LegacyWorker.Sessions; LegacyWorker.Connect "s1"; LegacyWorker.NewPage;
      LegacyWorker.SetDefaultTimeout 10000;
      LegacyWorker.Goto "https://example.com/" "domcontentloaded";
      LegacyWorker.Disconnect]) /\
  List.filter LegacyWorker.is_disconnect
    [LegacyWorker.Sessions; LegacyWorker.Connect "s1"; LegacyWorker.NewPage;
     LegacyWorker.SetDefaultTimeout 10000;
     LegacyWorker.Goto "https://example.com/" "domcontentloaded";
     LegacyWorker.Disconnect] = [LegacyWorker.Disconnect].
Proof.
  split; [exact (sample_service_disconnects_quietly (LegacySample.page 404))|].
  split; [exact sample_status_is_rejected|].
  exact (legacy_answer_disconnects_once Sample.URL_toString LegacySample.URL_error
           LegacySample.random_index LegacySample.request
           (LegacySample.service (LegacySample.page 404)) [] _ _
           (sample_service_disconnects_quietly (LegacySample.page 404))
           sample_status_is_rejected).
Defined.

Lemma legacy_success_needs_good_status_witness :
  LegacySample.fetch LegacySample.request (LegacySample.service (LegacySample.page 200)) [] =
    (Ok (LegacyWorker.html_response (LegacyWorker.extract LegacySample.document)
           "https://example.com/" "s1"),
     [LegacyWorker.Sessions; LegacyWorker.Connect "s1"; LegacyWorker.NewPage;
      LegacyWorker.SetDefaultTimeout 10000;
      LegacyWorker.Goto "https://example.com/" "domcontentloaded";
      LegacyWorker.Evaluate; LegacyWorker.Disconnect]) /\
  exists b page code,
    LegacyWorker.serves (LegacySample.service (LegacySample.page 200)) b /\
    LegacyWorker.newPage b = Ok page /\
    LegacyWorker.goto page = Ok (Some code) /\ code < 400.
Proof.
  split; [exact sample_page_is_extracted|].
  destruct (legacy_success_needs_good_status Sample.URL_toString LegacySample.URL_error
              LegacySample.random_index LegacySample.request
              (LegacySample.service (LegacySample.page 200)) [] _ _
              (sample_service_disconnects_quietly (LegacySample.page 200))
              sample_page_is_extracted)
    as [H500|(_ & reqUrl & b & launched & page & code & doc & _ & Hb & Hp & Hg & Hlt & _)].
  - discriminate H500.
  - exists b, page, code. repeat split; assumption.
Defined.

Lemma legacy_unanswered_causes_witness :
  LegacySample.fetch LegacySample.request LegacySample.unlisted_service [] =
    (Throw (ErrorObj "Unable to list sessions"), [LegacyWorker.Sessions]) /\
  LegacyWorker.sessions LegacySample.unlisted_service =
    Throw (ErrorObj "Unable to list sessions").
Proof.
  split; [exact sample_listing_failure_is_fatal|].
  destruct (legacy_unanswered_causes Sample.URL_toString LegacySample.URL_error
              LegacySample.random_index LegacySample.request
              LegacySample.unlisted_service [] _ _ sample_listing_failure_is_fatal)
    as [Hu|[Hs|[Hl|[(b & _ & Hn)|(b & Hb & Hd)]]]].
  - discriminate Hu.
  - exact Hs.
  - discriminate Hl.
  - reflexivity.
  - reflexivity.
Defined.
